(** * Trapezoid soil-moisture scripts (OPTRAM / TOTRAM) over Earth Engine

    A shallow embedding of [soil_moisture_OPTRAM.js] and of the TOTRAM
    script.  Both scripts are straight-line compositions of Earth Engine
    calls; every call is a pure function from images to images, so each call
    is embedded as the Rocq function computing it and each script variable as
    the definition of the same name.

    Pixel values are exact rationals ([Q], compared with [==]): the scripts
    compute in binary floating point, which this development idealises.
    Rounding moves a computed value in its last place; statements about
    the raw digital numbers are therefore kept off the cases in which a
    computed value meets a threshold exactly or a difference vanishes in
    exact arithmetic.  A band is a partial function from pixels to values, [None]
    being a masked pixel. *)

From Stdlib Require Import QArith Qminmax Lqa List ZArith String.
From Stdlib Require Import Permutation SetoidPermutation.
From stdpp Require Import base option gmap strings.

Local Open Scope Q_scope.
Local Open Scope string_scope.

(** ** Values, bands, geometries *)

Definition pixel : Type := (Z * Z)%type.

(** One band of an image over the pixel grid; [None] is a masked pixel. *)
Definition band : Type := pixel -> option Q.

(** A geometry (AOI, irrigation region) at a given scale: the pixels it
    covers, each one counted whole. *)
Definition geometry : Type := list pixel.

(** Property values of an image. *)
Inductive value : Type :=
| VString (s : string)
| VNumber (q : Q).

(** A single-band image with its metadata. *)
Record Image : Type := mkImage {
  bandName : string;
  data : band;
  properties : gmap string value
}.

(** ** Outcome of a server-side evaluation

    The scripts define and throw no error of their own: whenever an
    evaluation fails, it fails with the error the Earth Engine library
    reports ([EEException]).  The four other names are the error taxonomy of
    the specification, listed so that statements about them can be written;
    no definition below produces them. *)
Inductive error : Type :=
| EEException
| InsufficientDataError
| MissingBandError
| DomainError
| AggregationEmptyError.

Inductive result (A : Type) : Type :=
| Ok (a : A)
| Err (e : error).
Arguments Ok {A} a.
Arguments Err {A} e.

(** The error monad of server-side values, with stdpp's [x ← r; k]. *)
#[global] Instance result_ret : MRet result := fun A a => Ok a.
#[global] Instance result_bind : MBind result := fun A B k r =>
  match r with
  | Ok a => k a
  | Err e => Err e
  end.

Fixpoint mapM {A B : Type} (f : A -> result B) (l : list A) : result (list B) :=
  match l with
  | [] => Ok []
  | a :: l' => b ← f a; bs ← mapM f l'; Ok (b :: bs)
  end.

(** ** The Earth Engine calls the scripts make *)

Module ee.

(** *** Pixel-wise operations of [ee.Image] *)

Definition lift1 (f : Q -> Q) (a : band) : band :=
  fun px => match a px with Some x => Some (f x) | None => None end.

Definition lift2 (f : Q -> Q -> Q) (a b : band) : band :=
  fun px =>
    match a px, b px with
    | Some x, Some y => Some (f x y)
    | _, _ => None
    end.

Definition bool_to_Q (b : bool) : Q := if b then 1 else 0.

(** [image.gte(c)], [image.gt(c)], [image.lte(c)], [image.lt(c)]: 1 where the
    comparison holds, 0 elsewhere, masked where the input is. *)
Definition gte (a : band) (c : Q) : band := lift1 (fun x => bool_to_Q (Qle_bool c x)) a.
Definition gt (a : band) (c : Q) : band := lift1 (fun x => bool_to_Q (negb (Qle_bool x c))) a.
Definition lte (a : band) (c : Q) : band := lift1 (fun x => bool_to_Q (Qle_bool x c)) a.
Definition lt (a : band) (c : Q) : band := lift1 (fun x => bool_to_Q (negb (Qle_bool c x))) a.

(** [a.and(b)]: 1 where both inputs are non-zero. *)
Definition and_ (a b : band) : band :=
  lift2 (fun x y => bool_to_Q (negb (Qeq_bool x 0) && negb (Qeq_bool y 0))) a b.

(** [image.updateMask(mask)]: a pixel stays valid where it was valid and the
    mask is valid and non-zero. *)
Definition updateMask (a mask : band) : band :=
  fun px =>
    match a px, mask px with
    | Some v, Some m => if Qeq_bool m 0 then None else Some v
    | _, _ => None
    end.

(** *** Reducers *)

Definition omax (a b : option Q) : option Q :=
  match a, b with
  | Some x, Some y => Some (Qmax x y)
  | Some x, None => Some x
  | None, _ => b
  end.

Definition omin (a b : option Q) : option Q :=
  match a, b with
  | Some x, Some y => Some (Qmin x y)
  | Some x, None => Some x
  | None, _ => b
  end.

(** [ee.Reducer.max()], [ee.Reducer.min()], [ee.Reducer.mean()] over the valid
    inputs; the output is null ([None]) when there is no input. *)
Definition Reducer_max (vs : list Q) : option Q :=
  fold_right (fun x acc => omax (Some x) acc) None vs.

Definition Reducer_min (vs : list Q) : option Q :=
  fold_right (fun x acc => omin (Some x) acc) None vs.

Definition Qsum (vs : list Q) : Q := fold_right Qplus 0 vs.

Definition Reducer_mean (vs : list Q) : option Q :=
  match vs with
  | [] => None
  | _ => Some (Qsum vs / inject_Z (Z.of_nat (length vs)))
  end.

(** The valid (non-null, unmasked) inputs a reducer sees. *)
Fixpoint valid_values {A : Type} (f : A -> option Q) (l : list A) : list Q :=
  match l with
  | [] => []
  | a :: l' =>
      match f a with
      | Some v => v :: valid_values f l'
      | None => valid_values f l'
      end
  end.

(** The valid values of a band inside a geometry. *)
Definition valid_pixels (a : band) (g : geometry) : list Q := valid_values a g.

(** [collection.reduce(reducer)]: the bands of the composite.  Each pixel is
    the reducer over the valid values of that pixel across the images, masked
    where there is none; a collection without images gives an image without
    bands. *)
Definition ImageCollection_reduce (reducer : list Q -> option Q) (c : list Image)
    : list (string * band) :=
  match c with
  | [] => []
  | i :: _ => [(bandName i, fun px => reducer (valid_values (fun im => data im px) c))]
  end.

(** [collection.max()], [collection.min()], [collection.mean()]. *)
Definition ImageCollection_max := ImageCollection_reduce Reducer_max.
Definition ImageCollection_min := ImageCollection_reduce Reducer_min.
Definition ImageCollection_mean := ImageCollection_reduce Reducer_mean.

(** [image.reduceRegion({reducer, geometry, ...})]: a dictionary with one
    entry per band, null where the band has no valid pixel in the geometry. *)
Definition reduceRegion (reducer : list Q -> option Q) (g : geometry)
    (bands : list (string * band)) : list (string * option Q) :=
  List.map (fun nb => (fst nb, reducer (valid_pixels (snd nb) g))) bands.

Definition values (d : list (string * option Q)) : list (option Q) :=
  List.map snd d.

(** [ee.Number(list.get(0))]: the number at the head of the list.  There is
    none when the list is empty or when its head is null; every computation
    that uses the number then fails. *)
Definition Number_get0 (l : list (option Q)) : result Q :=
  match l with
  | Some v :: _ => Ok v
  | _ => Err EEException
  end.

(** *** Metadata *)

Definition rename (nm : string) (i : Image) : Image :=
  mkImage nm (data i) (properties i).

(** [image.set({k1: v1, ...})], the entries applied from left to right. *)
Definition set (kvs : list (string * value)) (i : Image) : Image :=
  mkImage (bandName i) (data i)
    (fold_left (fun m kv => <[fst kv := snd kv]> m) kvs (properties i)).

(** [image.propertyNames()]. *)
Definition propertyNames (props : gmap string value) : list string :=
  List.map fst (map_to_list props).

(** [dst.copyProperties(src, names)]: every property of [src] listed in
    [names] is written on [dst]. *)
Definition copyProperties (dst : Image) (src : gmap string value)
    (names : list string) : Image :=
  mkImage (bandName dst) (data dst)
    (fold_right
       (fun k m => match src !! k with Some v => <[k := v]> m | None => m end)
       (properties dst) names).

(** [image.select(name)] on a single-band image. *)
Definition select (nm : string) (i : Image) : result Image :=
  if String.eqb nm (bandName i) then Ok i else Err EEException.

(** [collection.select(name)]. *)
Definition ImageCollection_select (nm : string) (c : list Image) : result (list Image) :=
  mapM (select nm) c.

(** [ui.Chart.image.series(collection, region, reducer, scale, xProperty)]:
    one point per image, the reducer over the valid pixels of the region
    against the image's [xProperty]. *)
Definition Chart_image_series (c : list Image) (region : geometry)
    (reducer : list Q -> option Q) (xProperty : string)
    : list (option value * option Q) :=
  List.map
    (fun i => (properties i !! xProperty, reducer (valid_pixels (data i) region)))
    c.

End ee.

(** ** Index Engine: the STR band of [S2_proc]

    [ms.expression('((1 - SWIR) ** 2) / (2 * SWIR)', {'SWIR': ms.select('B12')})]
    with [ms = img.multiply(0.0001)]. *)

Definition STR_expr (SWIR : Q) : Q := ((1 - SWIR) ^ 2) / (2 * SWIR).

Definition S2_proc_STR (B12 : band) : band :=
  ee.lift1 STR_expr (ee.lift1 (fun v => v * (1 # 10000)) B12).

(** ** soil_moisture_OPTRAM.js *)

Module OPTRAM.

(** An image of [coll]: the bands the trapezoid uses and the properties. *)
Record Scene : Type := mkScene {
  NDVI : band;
  STR : band;
  scene_properties : gmap string value
}.

(** The vegetation-class masks [full] and [bare] of an image. *)
Definition full (image : Scene) : band := ee.gte (NDVI image) (6 # 10).

Definition bare (image : Scene) : band :=
  ee.and_ (ee.gte (NDVI image) (1 # 10)) (ee.lte (NDVI image) (2 # 10)).

Definition STR_full_cover (coll : list Scene) : list Image :=
  List.map
    (fun image =>
       mkImage "STR" (ee.updateMask (STR image) (full image)) (scene_properties image))
    coll.

Definition STR_bare_soil (coll : list Scene) : list Image :=
  List.map
    (fun image =>
       mkImage "STR" (ee.updateMask (STR image) (bare image)) (scene_properties image))
    coll.

Definition vw_opt (AOI : geometry) (coll : list Scene) : result Q :=
  ee.Number_get0 (ee.values
    (ee.reduceRegion ee.Reducer_max AOI (ee.ImageCollection_max (STR_full_cover coll)))).

Definition vd_opt (AOI : geometry) (coll : list Scene) : result Q :=
  ee.Number_get0 (ee.values
    (ee.reduceRegion ee.Reducer_min AOI (ee.ImageCollection_min (STR_full_cover coll)))).

Definition iw_opt (AOI : geometry) (coll : list Scene) : result Q :=
  ee.Number_get0 (ee.values
    (ee.reduceRegion ee.Reducer_max AOI (ee.ImageCollection_max (STR_bare_soil coll)))).

Definition id_opt (AOI : geometry) (coll : list Scene) : result Q :=
  ee.Number_get0 (ee.values
    (ee.reduceRegion ee.Reducer_min AOI (ee.ImageCollection_min (STR_bare_soil coll)))).

Definition sd_opt (AOI : geometry) (coll : list Scene) : result Q :=
  vd ← vd_opt AOI coll; id ← id_opt AOI coll; Ok (vd - id).

Definition sw_opt (AOI : geometry) (coll : list Scene) : result Q :=
  vw ← vw_opt AOI coll; iw ← iw_opt AOI coll; Ok (vw - iw).

(** The expression string of the script, on one pixel. *)
Definition expr (id sd iw sw NDVI STR : Q) : Q :=
  ((id + (sd * NDVI) - STR) / ((id - iw) + ((sd - sw) * NDVI))) * 100.

(** [image.expression(..., {...}).rename('soil_moisture')]: valid where both
    bands it reads are.  The expression image carries no property of its
    own, and the band name the library gives it is replaced at once. *)
Definition eq_image (id sd iw sw : Q) (image : Scene) : Image :=
  ee.rename "soil_moisture"
    (mkImage "constant" (ee.lift2 (expr id sd iw sw) (NDVI image) (STR image)) ∅).

(** [imgMedian] is the median composite [S2_proc.median()] clipped to the
    AOI; the evaluator only reads its NDVI and STR bands, so it is taken as
    an argument. *)
Definition OPTRAM_median (AOI : geometry) (coll : list Scene) (imgMedian : Scene)
    : result Image :=
  id ← id_opt AOI coll;
  sd ← sd_opt AOI coll;
  iw ← iw_opt AOI coll;
  sw ← sw_opt AOI coll;
  Ok (ee.set
        [("model", VString "OPTRAM");
         ("model_ref", VString "Sadeghi et al. (adapted).");
         ("units", VString "%");
         ("notes", VString
            "Relative surface soil moisture estimated by OPTRAM from Sentinel-2 STR & NDVI")]
        (eq_image id sd iw sw imgMedian)).

(** The body of the function mapped over [coll], once the four numbers it
    closes over are evaluated. *)
Definition series_image (id sd iw sw : Q) (image : Scene) : Image :=
  let eq := eq_image id sd iw sw image in
  ee.set [("model", VString "OPTRAM"); ("units", VString "%")]
    (ee.copyProperties eq (scene_properties image)
       (ee.propertyNames (scene_properties image))).

Definition optram_series (AOI : geometry) (coll : list Scene) : result (list Image) :=
  mapM
    (fun image =>
       id ← id_opt AOI coll;
       sd ← sd_opt AOI coll;
       iw ← iw_opt AOI coll;
       sw ← sw_opt AOI coll;
       Ok (series_image id sd iw sw image))
    coll.

(** The chart of a region: [ui.Chart.image.series(optram_series.select(
    'soil_moisture'), region, ee.Reducer.mean(), 20, 'system:time_start')]. *)
Definition region_chart (AOI : geometry) (coll : list Scene) (region : geometry)
    : result (list (option value * option Q)) :=
  series ← optram_series AOI coll;
  sm ← ee.ImageCollection_select "soil_moisture" series;
  Ok (ee.Chart_image_series sm region ee.Reducer_mean "system:time_start").

End OPTRAM.

(** ** The TOTRAM script *)

Module TOTRAM.

(** An image of [parameters]: [ee.Image.cat([ndvi, lst])] with the properties
    of the Landsat image. *)
Record Scene : Type := mkScene {
  NDVI : band;
  LST : band;
  scene_properties : gmap string value
}.

(** The vegetation-class masks [ndvi_full] and [ndvi_bare] of an image. *)
Definition ndvi_full (img : Scene) : band := ee.gt (NDVI img) (3 # 10).

Definition ndvi_bare (img : Scene) : band :=
  ee.and_ (ee.gte (NDVI img) 0) (ee.lt (NDVI img) (2 # 10)).

Definition lst_full_cover (parameters : list Scene) : list Image :=
  List.map
    (fun img =>
       ee.copyProperties
         (mkImage "LST" (ee.updateMask (LST img) (ndvi_full img)) (scene_properties img))
         (scene_properties img) (ee.propertyNames (scene_properties img)))
    parameters.

Definition lst_bareland (parameters : list Scene) : list Image :=
  List.map
    (fun img =>
       ee.copyProperties
         (mkImage "LST" (ee.updateMask (LST img) (ndvi_bare img)) (scene_properties img))
         (scene_properties img) (ee.propertyNames (scene_properties img)))
    parameters.

Definition vw (AOI : geometry) (parameters : list Scene) : result Q :=
  ee.Number_get0 (ee.values
    (ee.reduceRegion ee.Reducer_min AOI (ee.ImageCollection_min (lst_full_cover parameters)))).

Definition vd (AOI : geometry) (parameters : list Scene) : result Q :=
  ee.Number_get0 (ee.values
    (ee.reduceRegion ee.Reducer_max AOI (ee.ImageCollection_max (lst_full_cover parameters)))).

Definition iw (AOI : geometry) (parameters : list Scene) : result Q :=
  ee.Number_get0 (ee.values
    (ee.reduceRegion ee.Reducer_min AOI (ee.ImageCollection_min (lst_bareland parameters)))).

Definition id (AOI : geometry) (parameters : list Scene) : result Q :=
  ee.Number_get0 (ee.values
    (ee.reduceRegion ee.Reducer_max AOI (ee.ImageCollection_max (lst_bareland parameters)))).

Definition sd (AOI : geometry) (parameters : list Scene) : result Q :=
  i ← id AOI parameters; v ← vd AOI parameters; Ok (i - v).

Definition sw (AOI : geometry) (parameters : list Scene) : result Q :=
  i ← iw AOI parameters; v ← vw AOI parameters; Ok (i - v).

(** The expression string of the script, on one pixel. *)
Definition expr (id sd iw sw NDVI LST : Q) : Q :=
  (id + sd * NDVI - LST) / (id - iw + (sd - sw) * NDVI).

(** [img.expression(..., {...}).rename('soil_moisture')], as in OPTRAM. *)
Definition eq_image (id sd iw sw : Q) (img : Scene) : Image :=
  ee.rename "soil_moisture"
    (mkImage "constant" (ee.lift2 (expr id sd iw sw) (NDVI img) (LST img)) ∅).

(** The body of the function mapped over [parameters], once the four numbers
    it closes over are evaluated. *)
Definition series_image (id sd iw sw : Q) (img : Scene) : Image :=
  let eq := eq_image id sd iw sw img in
  ee.set [("model", VString "TOTRAM"); ("units", VString "relative")]
    (ee.copyProperties eq (scene_properties img)
       (ee.propertyNames (scene_properties img))).

Definition sm_series (AOI : geometry) (parameters : list Scene) : result (list Image) :=
  mapM
    (fun img =>
       id ← id AOI parameters;
       sd ← sd AOI parameters;
       iw ← iw AOI parameters;
       sw ← sw AOI parameters;
       Ok (series_image id sd iw sw img))
    parameters.

(** [sm_series.mean().rename('sm_mean').set({...})]; renaming the band-less
    mean of an empty series fails. *)
Definition sm_mean (AOI : geometry) (parameters : list Scene) : result Image :=
  series ← sm_series AOI parameters;
  match ee.ImageCollection_mean series with
  | [(_, b)] =>
      Ok (ee.set
            [("model", VString "TOTRAM");
             ("units", VString "relative");
             ("notes", VString "Thermal-optical relative soil moisture (TOTRAM)")]
            (ee.rename "sm_mean" (mkImage "soil_moisture" b ∅)))
  | _ => Err EEException
  end.

Definition region_chart (AOI : geometry) (parameters : list Scene) (region : geometry)
    : result (list (option value * option Q)) :=
  series ← sm_series AOI parameters;
  sm ← ee.ImageCollection_select "soil_moisture" series;
  Ok (ee.Chart_image_series sm region ee.Reducer_mean "system:time_start").

End TOTRAM.

(** ** Statements of the specification *)

(** Equality of optional rationals up to [==]. *)
Definition oQeq (a b : option Q) : Prop :=
  match a, b with
  | Some x, Some y => x == y
  | None, None => True
  | _, _ => False
  end.

(** Equality of evaluations: the same error, or equal numbers. *)
Definition rQeq (a b : result Q) : Prop :=
  match a, b with
  | Ok x, Ok y => x == y
  | Err e, Err e' => e = e'
  | _, _ => False
  end.

Definition to_option {A : Type} (r : result A) : option A :=
  match r with Ok a => Some a | Err _ => None end.

(** The corner expression of the scripts, for any masked collection:
    [ee.Number(masked.reduce(r).reduceRegion({reducer: r, geometry: AOI})
    .values().get(0))]. *)
Definition corner (reducer : list Q -> option Q) (AOI : geometry) (masked : list Image)
    : result Q :=
  ee.Number_get0 (ee.values
    (ee.reduceRegion reducer AOI (ee.ImageCollection_reduce reducer masked))).

(** The per-pixel composite of the first stage of a corner. *)
Definition stage1 (reducer : list Q -> option Q) (masked : list Image) : band :=
  fun px => reducer (ee.valid_values (fun im => data im px) masked).

(** An order for which extremes are unique up to [==]. *)
Record extreme_order (R : Q -> Q -> Prop) : Prop := {
  eo_compat : forall x x' v v', x == x' -> v == v' -> R x v -> R x' v';
  eo_refl : forall x, R x x;
  eo_trans : forall x y z, R x y -> R y z -> R x z;
  eo_antisym : forall x y, R x y -> R y x -> x == y
}.

(** The pool of a corner: every valid value of the masked band, over all
    images of the collection and all pixels of the geometry. *)
Definition pooled_values (masked : list Image) (AOI : geometry) : list Q :=
  flat_map (fun im => ee.valid_pixels (data im) AOI) masked.

(** [m] is the extreme of the pool for the order [R] ([R y v]: [v] is at
    least as extreme as [y]): a member of the pool that bounds every member;
    an empty pool has none. *)
Definition global_extreme (R : Q -> Q -> Prop) (pool : list Q) (m : option Q) : Prop :=
  match m with
  | None => pool = []
  | Some v => (exists x, In x pool /\ x == v) /\ (forall y, In y pool -> R y v)
  end.

Definition global_max : list Q -> option Q -> Prop := global_extreme Qle.
Definition global_min : list Q -> option Q -> Prop := global_extreme (fun y v => v <= y).

(** The rational model as the specification writes it. *)
Definition spec_value (dryBare wetBare sd sw index sourceBand : Q) : Q :=
  (dryBare + sd * index - sourceBand) / ((dryBare - wetBare) + (sd - sw) * index).

(** The scaling a units field declares: a percentage or a dimensionless
    relative index. *)
Definition spec_units_scale (units : value) : option Q :=
  match units with
  | VString u =>
      if String.eqb u "%" then Some 100
      else if String.eqb u "relative" then Some 1
      else None
  | VNumber _ => None
  end.

(** [out] carries the rational model of the specification over the bands
    [index] and [source], scaled as its units field declares. *)
Definition evaluates_model (units : string) (dryBare wetBare sd sw : Q)
    (index source : band) (out : Image) : Prop :=
  properties out !! "units" = Some (VString units) /\
  exists scale,
    spec_units_scale (VString units) = Some scale /\
    forall px,
      oQeq (data out px)
        match index px, source px with
        | Some n, Some s => Some (spec_value dryBare wetBare sd sw n s * scale)
        | _, _ => None
        end.

(** The denominator of the rational model. *)
Definition spec_denominator (dryBare wetBare sd sw index : Q) : Q :=
  (dryBare - wetBare) + (sd - sw) * index.

(** A mask predicate holds at a pixel when the mask band is valid and
    non-zero there: the test [updateMask] makes. *)
Definition holds (mask : band) (px : pixel) : Prop :=
  exists m, mask px = Some m /\ ~ m == 0.

(** One point of a chart, compared up to [==] on the value. *)
Definition point_eq (p q : option value * option Q) : Prop :=
  fst p = fst q /\ oQeq (snd p) (snd q).

(** Two charts carry the same points, whatever their order. *)
Definition chart_eq (a b : result (list (option value * option Q))) : Prop :=
  match a, b with
  | Ok s, Ok s' => PermutationA point_eq s s'
  | Err e, Err e' => e = e'
  | _, _ => False
  end.

(** ** The end-to-end scenario of the specification

    Three single-pixel images with NDVI 0.65, 0.15, 0.62 and STR 1.2, 2.0,
    1.1 (for TOTRAM: LST 300, 320, 305), and further images used to probe the
    evaluator. *)

Module Scenario.

Definition px0 : pixel := (0%Z, 0%Z).
Definition AOI : geometry := [px0].
Definition const (v : Q) : band := fun _ => Some v.
Definition at_time (t : Z) : gmap string value :=
  {[ "system:time_start" := VNumber (inject_Z t) ]}.

Definition s1 : OPTRAM.Scene := OPTRAM.mkScene (const (65 # 100)) (const (12 # 10)) (at_time 1).
Definition s2 : OPTRAM.Scene := OPTRAM.mkScene (const (15 # 100)) (const (20 # 10)) (at_time 2).
Definition s3 : OPTRAM.Scene := OPTRAM.mkScene (const (62 # 100)) (const (11 # 10)) (at_time 3).
(** NDVI 0: the denominator of the model vanishes. *)
Definition s_zero : OPTRAM.Scene := OPTRAM.mkScene (const 0) (const 1) (at_time 4).
(** NDVI 0.00001: the denominator is -0.000001. *)
Definition s_near : OPTRAM.Scene := OPTRAM.mkScene (const (1 # 100000)) (const 1) (at_time 5).

Definition coll : list OPTRAM.Scene := [s1; s2; s3].
Definition coll_probe : list OPTRAM.Scene := [s1; s2; s3; s_zero; s_near].
(** No image has a bare-soil pixel. *)
Definition coll_no_bare : list OPTRAM.Scene := [s1; s3].

Definition t1 : TOTRAM.Scene := TOTRAM.mkScene (const (65 # 100)) (const 300) (at_time 1).
Definition t2 : TOTRAM.Scene := TOTRAM.mkScene (const (15 # 100)) (const 320) (at_time 2).
Definition t3 : TOTRAM.Scene := TOTRAM.mkScene (const (62 # 100)) (const 305) (at_time 3).

Definition parameters : list TOTRAM.Scene := [t1; t2; t3].
Definition parameters_no_bare : list TOTRAM.Scene := [t1; t3].

End Scenario.

(** ** Ingestion and index engine

    The calls the two scripts make before the trapezoid: filters on the
    collection, clipping, scaling and the normalized difference. *)

Module eeIngest.

Definition pixel_eqb (p q : pixel) : bool :=
  Z.eqb (fst p) (fst q) && Z.eqb (snd p) (snd q).

Definition covers (g : geometry) (px : pixel) : bool := existsb (pixel_eqb px) g.

(** [image.clip(geometry)]: the pixels outside the geometry are masked.  A
    geometry holds whole pixels; pixels cut by its boundary are not told
    apart. *)
Definition clip (g : geometry) (a : band) : band :=
  fun px => if covers g px then a px else None.

(** [image.multiply(c)], [image.add(c)]. *)
Definition multiply (a : band) (c : Q) : band := ee.lift1 (fun v => v * c) a.
Definition add (a : band) (c : Q) : band := ee.lift1 (fun v => v + c) a.

(** [image.normalizedDifference([first, second])]:
    [(first - second) / (first + second)]; the pixel is masked where an input
    is masked or negative.  Where the sum is zero the quotient is the
    library's (0 here, as for its division). *)
Definition normalizedDifference (first second : band) : band :=
  fun px =>
    match first px, second px with
    | Some x, Some y =>
        if Qle_bool 0 x && Qle_bool 0 y then Some ((x - y) / (x + y)) else None
    | _, _ => None
    end.

(** [collection.filterDate(start, end)] on the properties of an image: the
    acquisition time [system:time_start] (milliseconds since the epoch) is at
    or after [start] and before [end]. *)
Definition in_date_range (start end_ : Q) (props : gmap string value) : bool :=
  match props !! "system:time_start" with
  | Some (VNumber t) => Qle_bool start t && negb (Qle_bool end_ t)
  | _ => false
  end.

(** [ee.Filter.lt(name, c)] on the properties of an image. *)
Definition Filter_lt (name : string) (c : Q) (props : gmap string value) : bool :=
  match props !! name with
  | Some (VNumber v) => negb (Qle_bool c v)
  | _ => false
  end.

(** [image.set(key, value)] with a computed number: a null leaves the
    property without a value. *)
Definition set_number (key : string) (v : option Q) (props : gmap string value)
    : gmap string value :=
  match v with
  | Some q => <[key := VNumber q]> props
  | None => delete key props
  end.

(** The properties of [dst.copyProperties(src, src.propertyNames())] for a
    derived image [dst] that carries no property of its own. *)
Definition copied_properties (src : gmap string value) : gmap string value :=
  properties
    (ee.copyProperties (mkImage "" (fun _ => None) ∅) src (ee.propertyNames src)).

End eeIngest.

(** ['2021-07-01'] and ['2024-06-30'] (UTC) in the unit of
    [system:time_start]. *)
Definition series_start : Q := 1625097600000.
Definition series_end : Q := 1719705600000.

(** *** soil_moisture_OPTRAM.js, up to [coll] *)

Module S2MSI.

(** An image of [Sentinel2MSI]: of the six selected bands, the three the
    indices read. *)
Record Raw : Type := mkRaw {
  B4 : band;
  B8 : band;
  B12 : band;
  raw_properties : gmap string value
}.

Section Ingest.
(** [filterBounds(AOI)] keeps the images whose footprint meets the AOI; the
    footprint test is the library's. *)
Variable meets : geometry -> Raw -> bool.

Definition S2 (Sentinel2MSI : list Raw) (AOI : geometry) : list Raw :=
  List.map
    (fun img =>
       mkRaw (eeIngest.clip AOI (B4 img)) (eeIngest.clip AOI (B8 img))
         (eeIngest.clip AOI (B12 img)) (raw_properties img))
    (List.filter (fun img => eeIngest.in_date_range series_start series_end
                               (raw_properties img))
       (List.filter (meets AOI) Sentinel2MSI)).
End Ingest.

Definition S2_proc (S2 : list Raw) : list OPTRAM.Scene :=
  List.map
    (fun img =>
       let ms_B4 := eeIngest.multiply (B4 img) (1 # 10000) in
       let ms_B8 := eeIngest.multiply (B8 img) (1 # 10000) in
       let ndvi := eeIngest.normalizedDifference ms_B8 ms_B4 in
       let STR := S2_proc_STR (B12 img) in
       OPTRAM.mkScene ndvi STR (eeIngest.copied_properties (raw_properties img)))
    S2.

Definition attachNDVIMinMax (AOI : geometry) (image : OPTRAM.Scene) : OPTRAM.Scene :=
  let NDVI_min := ee.Reducer_min (ee.valid_pixels (OPTRAM.NDVI image) AOI) in
  let NDVI_max := ee.Reducer_max (ee.valid_pixels (OPTRAM.NDVI image) AOI) in
  OPTRAM.mkScene (OPTRAM.NDVI image) (OPTRAM.STR image)
    (eeIngest.set_number "NDVI_max" NDVI_max
       (eeIngest.set_number "NDVI_min" NDVI_min (OPTRAM.scene_properties image))).

Definition coll (AOI : geometry) (S2_proc : list OPTRAM.Scene) : list OPTRAM.Scene :=
  List.map (attachNDVIMinMax AOI) S2_proc.

End S2MSI.

(** *** The TOTRAM script, up to [parameters] *)

Module L8.

(** An image of [Landsat8]: the two reflectance bands NDVI reads and the
    thermal band. *)
Record Raw : Type := mkRaw {
  SR_B4 : band;
  SR_B5 : band;
  ST_B10 : band;
  raw_properties : gmap string value
}.

Section Ingest.
Variable meets : geometry -> Raw -> bool.

Definition landsat (Landsat8 : list Raw) (AOI : geometry) : list Raw :=
  List.map
    (fun img =>
       mkRaw (eeIngest.clip AOI (SR_B4 img)) (eeIngest.clip AOI (SR_B5 img))
         (eeIngest.clip AOI (ST_B10 img)) (raw_properties img))
    (List.filter (fun img => eeIngest.Filter_lt "CLOUD_COVER" 20 (raw_properties img))
       (List.filter (fun img => eeIngest.in_date_range series_start series_end
                                  (raw_properties img))
          (List.filter (meets AOI) Landsat8))).
End Ingest.

Definition parameters (landsat : list Raw) : list TOTRAM.Scene :=
  List.map
    (fun img =>
       let ms_B4 :=
         eeIngest.add (eeIngest.multiply (SR_B4 img) (275 # 10000000)) (- (2 # 10)) in
       let ms_B5 :=
         eeIngest.add (eeIngest.multiply (SR_B5 img) (275 # 10000000)) (- (2 # 10)) in
       let ndvi := eeIngest.normalizedDifference ms_B5 ms_B4 in
       let lst := eeIngest.add (eeIngest.multiply (ST_B10 img) (341802 # 100000000)) 149 in
       TOTRAM.mkScene ndvi lst (eeIngest.copied_properties (raw_properties img)))
    landsat.

(** ['2022-07-01'] and ['2022-07-31'] (UTC) in the unit of
    [system:time_start]. *)
Definition july_start : Q := 1656633600000.
Definition july_end : Q := 1659225600000.

(** [sm_series.filterDate('2022-07-01','2022-07-31').mean()]: the bands of the
    composite. *)
Definition sm_july (AOI : geometry) (parameters : list TOTRAM.Scene)
    : result (list (string * band)) :=
  series ← TOTRAM.sm_series AOI parameters;
  Ok (ee.ImageCollection_mean
        (List.filter (fun i => eeIngest.in_date_range july_start july_end (properties i))
           series)).

End L8.

(** ** A small ingested collection

    Raw images on two pixels, one inside the AOI and one outside, used to
    exercise the ingestion and the index engine. *)

Module Probe.

Definition inside : pixel := (0%Z, 0%Z).
Definition outside : pixel := (1%Z, 0%Z).
Definition AOI : geometry := [inside].
Definition meets (g : geometry) {A : Type} (img : A) : bool := true.

Definition props (t cloud : Q) : gmap string value :=
  <["CLOUD_COVER" := VNumber cloud]> {[ "system:time_start" := VNumber t ]}.

(** Sentinel-2: two full-cover images, one bare-soil image, and one image
    acquired after [series_end]. *)
Definition r_full1 : S2MSI.Raw :=
  S2MSI.mkRaw (Scenario.const 1000) (Scenario.const 6000) (Scenario.const 2000)
    (props 1640995200000 0).
Definition r_full2 : S2MSI.Raw :=
  S2MSI.mkRaw (Scenario.const 1000) (Scenario.const 5000) (Scenario.const 2500)
    (props 1643673600000 0).
Definition r_bare : S2MSI.Raw :=
  S2MSI.mkRaw (Scenario.const 850) (Scenario.const 1150) (Scenario.const 4000)
    (props 1646092800000 0).
Definition r_late : S2MSI.Raw :=
  S2MSI.mkRaw (Scenario.const 1000) (Scenario.const 6000) (Scenario.const 1000)
    (props 1719705600000 0).

Definition Sentinel2MSI : list S2MSI.Raw := [r_full1; r_bare; r_full2; r_late].

Definition S2_proc : list OPTRAM.Scene :=
  S2MSI.S2_proc (S2MSI.S2 (fun g img => meets g img) Sentinel2MSI AOI).
Definition coll : list OPTRAM.Scene := S2MSI.coll AOI S2_proc.

(** Landsat 8: two full-cover images, two bare-soil images (one in July
    2022), and one image with 30 percent of clouds. *)
Definition l_full1 : L8.Raw :=
  L8.mkRaw (Scenario.const 10000) (Scenario.const 20000) (Scenario.const 44000)
    (props 1640995200000 5).
Definition l_full2 : L8.Raw :=
  L8.mkRaw (Scenario.const 10000) (Scenario.const 19000) (Scenario.const 45000)
    (props 1643673600000 10).
Definition l_bare1 : L8.Raw :=
  L8.mkRaw (Scenario.const 10000) (Scenario.const 11000) (Scenario.const 47000)
    (props 1646092800000 12).
Definition l_bare2 : L8.Raw :=
  L8.mkRaw (Scenario.const 10000) (Scenario.const 10000) (Scenario.const 48000)
    (props 1657843200000 19).
Definition l_cloudy : L8.Raw :=
  L8.mkRaw (Scenario.const 10000) (Scenario.const 20000) (Scenario.const 40000)
    (props 1648771200000 30).

Definition Landsat8 : list L8.Raw := [l_full1; l_bare1; l_cloudy; l_full2; l_bare2].

Definition parameters : list TOTRAM.Scene :=
  L8.parameters (L8.landsat (fun g img => meets g img) Landsat8 AOI).

End Probe.

(** ** Statements about the charts and the composites *)

(** The point of a chart for an output band [out] over a region: its key is
    [time] and it has no value exactly when the region has no valid pixel. *)
Definition chart_point (time : option value) (out : band) (region : geometry)
    (pt : option value * option Q) : Prop :=
  fst pt = time /\
  (snd pt = None <-> forall px, In px region -> out px = None).

(** [m] lies between the values of two pixels of the region. *)
Definition between_pixels (out : band) (region : geometry) (m : Q) : Prop :=
  exists px1 px2 v1 v2,
    In px1 region /\ In px2 region /\
    out px1 = Some v1 /\ out px2 = Some v2 /\ v1 <= m /\ m <= v2.

(** [m] lies between the values that two images of a list have at a pixel. *)
Definition between_images (images : list Image) (px : pixel) (m : Q) : Prop :=
  exists i1 i2 v1 v2,
    In i1 images /\ In i2 images /\
    data i1 px = Some v1 /\ data i2 px = Some v2 /\ v1 <= m /\ m <= v2.

(** The image [sm_mean] builds from an evaluated series. *)
Definition mean_image (series : list Image) : Image :=
  ee.set
    [("model", VString "TOTRAM");
     ("units", VString "relative");
     ("notes", VString "Thermal-optical relative soil moisture (TOTRAM)")]
    (ee.rename "sm_mean"
       (mkImage "soil_moisture"
          (fun px => ee.Reducer_mean (ee.valid_values (fun im => data im px) series)) ∅)).

(** Two evaluations give the same image: same failure, or the same band
    name and properties and, up to [==], the same pixels. *)
Definition image_eq (a b : result Image) : Prop :=
  match a, b with
  | Ok i, Ok i' =>
      bandName i = bandName i' /\ properties i = properties i' /\
      forall px, oQeq (data i px) (data i' px)
  | Err e, Err e' => e = e'
  | _, _ => False
  end.

(** Properties an ingested image carries. *)
Definition acquired_within (start end_ : Q) (props : gmap string value) : Prop :=
  exists t, props !! "system:time_start" = Some (VNumber t) /\ start <= t /\ t < end_.

Definition cloud_cover_below (c : Q) (props : gmap string value) : Prop :=
  exists v, props !! "CLOUD_COVER" = Some (VNumber v) /\ v < c.

(** A band of digital numbers: every valid pixel holds an integer, as the
    16-bit bands of the Landsat and Sentinel-2 archives do before the
    scripts scale them. *)
Definition digital_numbers (b : band) : Prop :=
  forall px v, b px = Some v -> exists z : Z, v == inject_Z z.

(** ** Lemmas on the library calls *)

Section ValidValues.
Context {A : Type}.
Implicit Types (f : A -> option Q) (l : list A).

Lemma in_valid_values f l v :
  In v (ee.valid_values f l) <-> exists a, In a l /\ f a = Some v.
Proof.
  induction l as [|a l IH]; simpl.
  - split; [tauto | intros (a & [] & _)].
  - destruct (f a) as [w|] eqn:E; simpl; rewrite IH; split.
    + intros [-> | (b & Hb & Hv)]; eauto.
    + intros (b & [<- | Hb] & Hv); [left; congruence | eauto].
    + intros (b & Hb & Hv); eauto.
    + intros (b & [<- | Hb] & Hv); [congruence | eauto].
Qed.

Lemma valid_values_nil f l :
  ee.valid_values f l = [] <-> forall a, In a l -> f a = None.
Proof.
  induction l as [|a l IH]; simpl.
  - split; [intros _ a [] | reflexivity].
  - destruct (f a) as [w|] eqn:E.
    + split; [discriminate | intros H; specialize (H a (or_introl eq_refl)); congruence].
    + rewrite IH. split.
      * intros H b [<- | Hb]; auto.
      * intros H b Hb; auto.
Qed.
End ValidValues.

Lemma in_pooled_values masked AOI v :
  In v (pooled_values masked AOI) <->
  exists im px, In im masked /\ In px AOI /\ data im px = Some v.
Proof.
  unfold pooled_values, ee.valid_pixels. rewrite in_flat_map. split.
  - intros (im & Him & Hv). apply in_valid_values in Hv as (px & Hpx & E). eauto.
  - intros (im & px & Him & Hpx & E). exists im. split; [assumption|].
    apply in_valid_values. eauto.
Qed.

(** An extreme only depends on which values are in the pool. *)
Lemma global_extreme_members R l l' m :
  (forall x, In x l <-> In x l') -> global_extreme R l m -> global_extreme R l' m.
Proof.
  intros Hm. destruct m as [v|]; simpl.
  - intros [(x & Hx & E) Hb]. split.
    + exists x. split; [apply Hm, Hx | exact E].
    + intros y Hy. apply Hb, Hm, Hy.
  - intros ->. destruct l' as [|y l']; [reflexivity|].
    destruct (proj2 (Hm y) (or_introl eq_refl)).
Qed.

Lemma Qle_extreme_order : extreme_order Qle.
Proof.
  split.
  - intros x x' v v' Hx Hv H. rewrite <- Hx, <- Hv. exact H.
  - intros x. apply Qle_refl.
  - intros x y z. apply Qle_trans.
  - intros x y. apply Qle_antisym.
Qed.

Lemma Qge_extreme_order : extreme_order (fun y v => v <= y).
Proof.
  split.
  - intros x x' v v' Hx Hv H. rewrite <- Hx, <- Hv. exact H.
  - intros x. apply Qle_refl.
  - intros x y z H1 H2. eapply Qle_trans; eassumption.
  - intros x y H1 H2. apply Qle_antisym; assumption.
Qed.

Lemma global_extreme_unique R l m m' :
  extreme_order R -> global_extreme R l m -> global_extreme R l m' -> oQeq m m'.
Proof.
  intros HR. destruct m as [v|], m' as [v'|]; simpl; trivial.
  - intros [(x & Hx & Ex) Hb] [(x' & Hx' & Ex') Hb'].
    apply (eo_antisym R HR).
    + apply (eo_compat R HR x v v' v' Ex (Qeq_refl _)). apply Hb', Hx.
    + apply (eo_compat R HR x' v' v v Ex' (Qeq_refl _)). apply Hb, Hx'.
  - intros [(x & Hx & _) _] ->. destruct Hx.
  - intros -> [(x & Hx & _) _]. destruct Hx.
Qed.

Lemma Reducer_max_extreme l : global_max l (ee.Reducer_max l).
Proof.
  unfold global_max. induction l as [|a l IH]; simpl; [reflexivity|].
  destruct (ee.Reducer_max l) as [q|]; simpl in *.
  - destruct IH as [(x & Hx & Ex) Hb]. split.
    + destruct (Q.max_spec a q) as [[_ E] | [_ E]].
      * exists x. split; [right; exact Hx | rewrite E; exact Ex].
      * exists a. split; [left; reflexivity | symmetry; exact E].
    + intros y [<- | Hy]; [apply Q.le_max_l|].
      eapply Qle_trans; [apply Hb, Hy | apply Q.le_max_r].
  - subst l. split.
    + exists a. split; [left; reflexivity | reflexivity].
    + intros y [<- | []]. apply Qle_refl.
Qed.

Lemma Reducer_min_extreme l : global_min l (ee.Reducer_min l).
Proof.
  unfold global_min. induction l as [|a l IH]; simpl; [reflexivity|].
  destruct (ee.Reducer_min l) as [q|]; simpl in *.
  - destruct IH as [(x & Hx & Ex) Hb]. split.
    + destruct (Q.min_spec a q) as [[_ E] | [_ E]].
      * exists a. split; [left; reflexivity | symmetry; exact E].
      * exists x. split; [right; exact Hx | rewrite E; exact Ex].
    + intros y [<- | Hy]; [apply Q.le_min_l|].
      eapply Qle_trans; [apply Q.le_min_r | apply Hb, Hy].
  - subst l. split.
    + exists a. split; [left; reflexivity | reflexivity].
    + intros y [<- | []]. apply Qle_refl.
Qed.

Lemma Number_get0_error l e : ee.Number_get0 l = Err e -> e = EEException.
Proof. destruct l as [|[v|] l]; simpl; congruence. Qed.

Lemma corner_error reducer AOI masked e :
  corner reducer AOI masked = Err e -> e = EEException.
Proof. apply Number_get0_error. Qed.

Section TwoStage.
Variable R : Q -> Q -> Prop.
Variable reducer : list Q -> option Q.
Hypothesis R_order : extreme_order R.
Hypothesis reducer_extreme : forall l, global_extreme R l (reducer l).

Lemma corner_stages AOI masked :
  to_option (corner reducer AOI masked) =
  match masked with
  | [] => None
  | _ => reducer (ee.valid_pixels (stage1 reducer masked) AOI)
  end.
Proof.
  unfold corner. destruct masked as [|i masked]; [reflexivity|].
  cbn [ee.ImageCollection_reduce ee.reduceRegion ee.values List.map snd fst].
  change (fun px => reducer (ee.valid_values (fun im => data im px) (i :: masked)))
    with (stage1 reducer (i :: masked)).
  destruct (reducer (ee.valid_pixels (stage1 reducer (i :: masked)) AOI)); reflexivity.
Qed.

Lemma stage1_bounds masked px y im :
  In im masked -> data im px = Some y ->
  exists v, stage1 reducer masked px = Some v /\ R y v.
Proof.
  intros Him E. unfold stage1.
  assert (Hy : In y (ee.valid_values (fun im => data im px) masked))
    by (apply in_valid_values; eauto).
  pose proof (reducer_extreme (ee.valid_values (fun im => data im px) masked)) as H.
  destruct (reducer _) as [v|]; simpl in H.
  - exists v. split; [reflexivity | apply H, Hy].
  - rewrite H in Hy. destruct Hy.
Qed.

Lemma stage1_member masked px v :
  stage1 reducer masked px = Some v ->
  exists im x, In im masked /\ data im px = Some x /\ x == v.
Proof.
  unfold stage1. intros E.
  pose proof (reducer_extreme (ee.valid_values (fun im => data im px) masked)) as H.
  rewrite E in H. destruct H as [(x & Hx & Ex) _].
  apply in_valid_values in Hx as (im & Him & Hd). eauto.
Qed.

(** The two-stage reduction yields the extreme of the pool. *)
Lemma two_stage_extreme AOI masked :
  global_extreme R (pooled_values masked AOI)
    (reducer (ee.valid_pixels (stage1 reducer masked) AOI)).
Proof.
  pose proof (reducer_extreme (ee.valid_pixels (stage1 reducer masked) AOI)) as H.
  destruct (reducer (ee.valid_pixels (stage1 reducer masked) AOI)) as [m|]; simpl in *.
  - destruct H as [(v & Hv & Ev) Hb]. split.
    + apply in_valid_values in Hv as (px & Hpx & E1).
      apply stage1_member in E1 as (im & x & Him & Hd & Ex).
      exists x. split.
      * apply in_pooled_values. eauto.
      * rewrite Ex. exact Ev.
    + intros y Hy. apply in_pooled_values in Hy as (im & px & Him & Hpx & Hd).
      destruct (stage1_bounds masked px y im Him Hd) as (v' & E1 & Hyv).
      apply (eo_trans R R_order y v' m Hyv). apply Hb.
      apply in_valid_values. eauto.
  - destruct (pooled_values masked AOI) as [|y pool] eqn:Ep; [reflexivity|].
    assert (Hy : In y (pooled_values masked AOI)) by (rewrite Ep; left; reflexivity).
    apply in_pooled_values in Hy as (im & px & Him & Hpx & Hd).
    destruct (stage1_bounds masked px y im Him Hd) as (v' & E1 & _).
    pose proof (proj1 (valid_values_nil (stage1 reducer masked) AOI) H px Hpx). congruence.
Qed.

Lemma corner_extreme AOI masked :
  global_extreme R (pooled_values masked AOI) (to_option (corner reducer AOI masked)).
Proof.
  rewrite corner_stages. destruct masked as [|i masked]; [reflexivity|].
  apply two_stage_extreme.
Qed.

Lemma corner_Permutation AOI masked masked' :
  Permutation masked masked' ->
  rQeq (corner reducer AOI masked) (corner reducer AOI masked').
Proof.
  intros HP.
  assert (H : oQeq (to_option (corner reducer AOI masked))
                (to_option (corner reducer AOI masked'))).
  { apply (global_extreme_unique R (pooled_values masked AOI)); [exact R_order | |].
    - apply corner_extreme.
    - apply (global_extreme_members R (pooled_values masked' AOI)); [|apply corner_extreme].
      intros x. rewrite !in_pooled_values.
      split; intros (im & px & Him & Hr); exists im, px; (split; [|exact Hr]).
      + eapply Permutation_in; [symmetry; exact HP | exact Him].
      + eapply Permutation_in; [exact HP | exact Him]. }
  destruct (corner reducer AOI masked) as [v|e] eqn:E, (corner reducer AOI masked') as [v'|e'] eqn:E';
    simpl in *; try tauto.
  apply corner_error in E, E'. congruence.
Qed.

(** No value in the pool: the corner expression fails. *)
Lemma corner_empty_pool AOI masked :
  pooled_values masked AOI = [] -> corner reducer AOI masked = Err EEException.
Proof.
  intros Hp. pose proof (corner_extreme AOI masked) as H.
  destruct (corner reducer AOI masked) as [v|e] eqn:E; simpl in H.
  - destruct H as [(x & Hx & _) _]. rewrite Hp in Hx. destruct Hx.
  - apply corner_error in E. congruence.
Qed.
End TwoStage.

(** ** Lemmas on mapping over a collection *)

Lemma mapM_Ok_map {A B : Type} (g : A -> B) (l : list A) :
  mapM (fun a => Ok (g a)) l = Ok (List.map g l).
Proof. induction l as [|a l IH]; simpl; [reflexivity|]. rewrite IH. reflexivity. Qed.

(** A function that closes over four evaluated numbers: either all four
    evaluate and every image is mapped, or the first failure is the failure
    of the whole collection; nothing is evaluated for an empty collection. *)
Lemma mapM_calibrated {S : Type} (A B C D : result Q) (g : Q -> Q -> Q -> Q -> S -> Image)
    (l : list S) :
  mapM (fun image => a ← A; b ← B; c ← C; d ← D; Ok (g a b c d image)) l =
  match l with
  | [] => Ok []
  | _ => a ← A; b ← B; c ← C; d ← D; Ok (List.map (g a b c d) l)
  end.
Proof.
  destruct l as [|s l]; [reflexivity|].
  destruct A as [a|e]; [|reflexivity].
  destruct B as [b|e]; [|reflexivity].
  destruct C as [c|e]; [|reflexivity].
  destruct D as [d|e]; [|reflexivity].
  apply (mapM_Ok_map (g a b c d) (s :: l)).
Qed.

Lemma select_all (nm : string) (l : list Image) :
  Forall (fun i => bandName i = nm) l -> ee.ImageCollection_select nm l = Ok l.
Proof.
  unfold ee.ImageCollection_select.
  induction 1 as [|i l Hi _ IH]; [reflexivity|].
  cbn [mapM]. rewrite IH. unfold ee.select. rewrite Hi, String.eqb_refl. reflexivity.
Qed.

(** ** Lemmas on metadata *)

Section CopyFold.
Variables (src dst : gmap string value) (k : string).

Let copy (names : list string) : gmap string value :=
  fold_right
    (fun k m => match src !! k with Some v => <[k := v]> m | None => m end)
    dst names.

Lemma copy_fold_None names : src !! k = None -> copy names !! k = dst !! k.
Proof.
  intros E. induction names as [|n names IH]; [reflexivity|]. cbn.
  destruct (src !! n) as [w|] eqn:En; [|exact IH].
  rewrite lookup_insert_ne by congruence. exact IH.
Qed.

Lemma copy_fold_Some names v :
  src !! k = Some v -> k ∈ names -> copy names !! k = Some v.
Proof.
  intros E. induction names as [|n names IH]; intros Hk.
  - inversion Hk.
  - cbn. destruct (decide (n = k)) as [-> | Hne].
    + rewrite E. apply lookup_insert_eq.
    + apply elem_of_cons in Hk as [-> | Hk]; [congruence|].
      destruct (src !! n) as [w|]; [|exact (IH Hk)].
      rewrite lookup_insert_ne by exact Hne. exact (IH Hk).
Qed.
End CopyFold.

Lemma propertyNames_elem (props : gmap string value) (k : string) (v : value) :
  props !! k = Some v -> k ∈ ee.propertyNames props.
Proof.
  intros E. unfold ee.propertyNames.
  apply list_elem_of_In, in_map_iff. exists (k, v). split; [reflexivity|].
  apply list_elem_of_In, elem_of_map_to_list, E.
Qed.

(** Copying over the full list of property names writes every property of
    the source; the destination keeps the others. *)
Lemma copyProperties_all (dst : Image) (src : gmap string value) (k : string) :
  properties (ee.copyProperties dst src (ee.propertyNames src)) !! k =
  match src !! k with
  | Some v => Some v
  | None => properties dst !! k
  end.
Proof.
  unfold ee.copyProperties; simpl.
  destruct (src !! k) as [v|] eqn:E.
  - apply copy_fold_Some; [exact E | eapply propertyNames_elem, E].
  - apply copy_fold_None, E.
Qed.

Lemma set2_lookup (i : Image) (k1 k2 : string) (v1 v2 : value) (k : string) :
  properties (ee.set [(k1, v1); (k2, v2)] i) !! k =
  if decide (k2 = k) then Some v2
  else if decide (k1 = k) then Some v1
  else properties i !! k.
Proof.
  unfold ee.set; simpl. rewrite lookup_insert. destruct (decide (k2 = k)); [reflexivity|].
  rewrite lookup_insert. destruct (decide (k1 = k)); reflexivity.
Qed.

(** ** Lemmas on the mask predicates *)

Lemma bool_to_Q_nonzero (b : bool) : ~ ee.bool_to_Q b == 0 <-> b = true.
Proof.
  destruct b; simpl; split; intros H; try reflexivity; try discriminate.
  - destruct H. reflexivity.
Qed.

Lemma holds_lift1 (p : Q -> bool) (a : band) (px : pixel) :
  holds (ee.lift1 (fun x => ee.bool_to_Q (p x)) a) px <->
  exists n, a px = Some n /\ p n = true.
Proof.
  unfold holds, ee.lift1. destruct (a px) as [n|]; split.
  - intros (m & [= <-] & Hm). exists n. split; [reflexivity | apply bool_to_Q_nonzero, Hm].
  - intros (n' & [= <-] & Hp). eexists. split; [reflexivity | apply bool_to_Q_nonzero, Hp].
  - intros (m & [=] & _).
  - intros (n & [=] & _).
Qed.

Lemma negb_Qle_bool (x y : Q) : negb (Qle_bool x y) = true <-> y < x.
Proof.
  rewrite negb_true_iff. split.
  - intros H. apply Qnot_le_lt. intros Hle. apply Qle_bool_iff in Hle. congruence.
  - intros H. destruct (Qle_bool x y) eqn:E; [|reflexivity].
    apply Qle_bool_iff in E. exfalso. exact (Qlt_not_le _ _ H E).
Qed.

Lemma holds_gte a c px : holds (ee.gte a c) px <-> exists n, a px = Some n /\ c <= n.
Proof.
  unfold ee.gte. rewrite holds_lift1.
  split; intros (n & E & H); exists n; (split; [exact E | apply Qle_bool_iff, H]).
Qed.

Lemma holds_lte a c px : holds (ee.lte a c) px <-> exists n, a px = Some n /\ n <= c.
Proof.
  unfold ee.lte. rewrite holds_lift1.
  split; intros (n & E & H); exists n; (split; [exact E | apply Qle_bool_iff, H]).
Qed.

Lemma holds_gt a c px : holds (ee.gt a c) px <-> exists n, a px = Some n /\ c < n.
Proof.
  unfold ee.gt. rewrite holds_lift1.
  split; intros (n & E & H); exists n; (split; [exact E | apply negb_Qle_bool, H]).
Qed.

Lemma holds_lt a c px : holds (ee.lt a c) px <-> exists n, a px = Some n /\ n < c.
Proof.
  unfold ee.lt. rewrite holds_lift1.
  split; intros (n & E & H); exists n; (split; [exact E | apply negb_Qle_bool, H]).
Qed.

Lemma holds_and a b px : holds (ee.and_ a b) px <-> holds a px /\ holds b px.
Proof.
  unfold holds, ee.and_, ee.lift2. destruct (a px) as [x|], (b px) as [y|]; split.
  - intros (m & [= <-] & Hm). apply bool_to_Q_nonzero, andb_true_iff in Hm as [Hx Hy].
    apply negb_true_iff in Hx, Hy. split; eexists; (split; [reflexivity|]); intros H;
      apply Qeq_bool_iff in H; congruence.
  - intros [(m & [= <-] & Hx) (m' & [= <-] & Hy)]. eexists. split; [reflexivity|].
    apply bool_to_Q_nonzero, andb_true_iff. split; apply negb_true_iff.
    + destruct (Qeq_bool x 0) eqn:E; [apply Qeq_bool_iff in E; tauto | reflexivity].
    + destruct (Qeq_bool y 0) eqn:E; [apply Qeq_bool_iff in E; tauto | reflexivity].
  - intros (m & [=] & _).
  - intros [_ (m & [=] & _)].
  - intros (m & [=] & _).
  - intros [(m & [=] & _) _].
  - intros (m & [=] & _).
  - intros [(m & [=] & _) _].
Qed.

(** [updateMask] keeps exactly the valid pixels at which the mask holds. *)
Lemma updateMask_valid a mask px v :
  ee.updateMask a mask px = Some v <-> a px = Some v /\ holds mask px.
Proof.
  unfold ee.updateMask, holds. destruct (a px) as [x|], (mask px) as [m|]; split.
  - destruct (Qeq_bool m 0) eqn:E; [discriminate|]. intros [= <-]. split; [reflexivity|].
    exists m. split; [reflexivity|]. intros H. apply Qeq_bool_iff in H. congruence.
  - intros [[= <-] (m' & [= <-] & Hm)]. destruct (Qeq_bool m 0) eqn:E; [|reflexivity].
    apply Qeq_bool_iff in E. tauto.
  - discriminate.
  - intros [_ (m & [=] & _)].
  - discriminate.
  - intros [[=] _].
  - discriminate.
  - intros [[=] _].
Qed.

(** ** Index Engine *)

Lemma STR_expr_unfold (x : Q) : STR_expr x == ((1 - x) * (1 - x)) / (2 * x).
Proof. reflexivity. Qed.

(** C6.  The STR band holds, at every valid pixel, the transmittance ratio
    [((1 - swir)^2) / (2 * swir)] of the scaled SWIR reflectance.  On the open
    interval (0,1) that ratio is strictly decreasing in swir, and at
    swir = 0.5 it is exactly 0.25 (one quarter, also as a reduced
    fraction). *)
Theorem STR_expr_strictly_decreasing :
  (forall a b : Q, 0 < a -> a < b -> b < 1 -> STR_expr b < STR_expr a) /\
  STR_expr (1 # 2) == 1 # 4 /\
  Qred (STR_expr (1 # 2)) = 1 # 4 /\
  (forall (B12 : band) (px : pixel),
      S2_proc_STR B12 px =
      match B12 px with
      | Some v =>
          let swir := v * (1 # 10000) in Some (((1 - swir) ^ 2) / (2 * swir))
      | None => None
      end).
Proof.
  split; [|split; [reflexivity | split; [reflexivity|]]];
    [|intros B12 px; unfold S2_proc_STR, ee.lift1; destruct (B12 px); reflexivity].
  intros a b Ha Hab Hb. rewrite !STR_expr_unfold.
  apply Qlt_shift_div_r; [lra|].
  assert (E : (1 - a) * (1 - a) / (2 * a) * (2 * b)
              == ((1 - a) * (1 - a) * (2 * b)) / (2 * a)) by (field; lra).
  rewrite E. apply Qlt_shift_div_l; [lra|].
  assert (H1 : 0 < (1 - a) * b) by (apply Qmult_lt_0_compat; lra).
  assert (H2 : 0 < (b - a) * ((1 - b) + (1 - a) * b)) by (apply Qmult_lt_0_compat; lra).
  nra.
Qed.

Lemma STR_expr_strictly_decreasing_witness :
  STR_expr (3 # 4) < STR_expr (1 # 4).
Proof.
  apply (proj1 STR_expr_strictly_decreasing (1 # 4) (3 # 4)); reflexivity.
Defined.

(** ** The normalized difference *)

Lemma normalized_difference_range (x y : Q) :
  0 <= x -> 0 <= y -> -1 <= (x - y) / (x + y) /\ (x - y) / (x + y) <= 1.
Proof.
  intros Hx Hy. destruct (Qlt_le_dec 0 (x + y)) as [Hs | Hs].
  - split.
    + apply Qle_shift_div_l; [exact Hs | lra].
    + apply Qle_shift_div_r; [exact Hs | lra].
  - assert (E : x - y == 0) by lra.
    unfold Qdiv. rewrite E, Qmult_0_l. split; discriminate.
Qed.

Lemma normalizedDifference_Some (a b : band) (px : pixel) (n : Q) :
  eeIngest.normalizedDifference a b px = Some n ->
  exists x y, a px = Some x /\ b px = Some y /\ 0 <= x /\ 0 <= y /\
              n = (x - y) / (x + y).
Proof.
  unfold eeIngest.normalizedDifference.
  destruct (a px) as [x|]; [|discriminate]. destruct (b px) as [y|]; [|discriminate].
  destruct (Qle_bool 0 x) eqn:Ex; [|discriminate].
  destruct (Qle_bool 0 y) eqn:Ey; [|discriminate].
  simpl. intros [= <-]. apply Qle_bool_iff in Ex, Ey. exists x, y. auto.
Qed.

Lemma normalizedDifference_nonneg (a b : band) (px : pixel) (x y : Q) :
  a px = Some x -> b px = Some y -> 0 <= x -> 0 <= y ->
  eeIngest.normalizedDifference a b px = Some ((x - y) / (x + y)).
Proof.
  intros Ea Eb Hx Hy. unfold eeIngest.normalizedDifference. rewrite Ea, Eb.
  apply Qle_bool_iff in Hx, Hy. rewrite Hx, Hy. reflexivity.
Qed.

(** ** Vegetation-class masks *)

Lemma ndvi_full_holds (img : TOTRAM.Scene) (px : pixel) :
  holds (TOTRAM.ndvi_full img) px <->
  exists n, TOTRAM.NDVI img px = Some n /\ 3 # 10 < n.
Proof. apply holds_gt. Qed.

Lemma ndvi_bare_holds (img : TOTRAM.Scene) (px : pixel) :
  holds (TOTRAM.ndvi_bare img) px <->
  exists n, TOTRAM.NDVI img px = Some n /\ 0 <= n /\ n < 2 # 10.
Proof.
  unfold TOTRAM.ndvi_bare. rewrite holds_and, holds_gte, holds_lt. split.
  - intros [(n & E & H1) (n' & E' & H2)]. exists n.
    rewrite E in E'. injection E' as <-. auto.
  - intros (n & E & H1 & H2). split; exists n; auto.
Qed.

(** The NDVI of two Landsat digital numbers never sits on a threshold of the
    TOTRAM masks.  With the reflectance [0.0000275 * DN - 0.2], NDVI = 0.3
    would need [11 * (7 * DN5 - 13 * DN4) = -480000] and NDVI = 0.2 would
    need [11 * (2 * DN5 - 3 * DN4) = -80000]; 11 divides neither number. *)
Lemma scaled_ndvi_off_thresholds (z5 z4 : Z) (v5 v4 : Q) :
  v5 == inject_Z z5 -> v4 == inject_Z z4 ->
  0 <= v5 * (275 # 10000000) + - (2 # 10) ->
  0 <= v4 * (275 # 10000000) + - (2 # 10) ->
  let n := (v5 * (275 # 10000000) + - (2 # 10) - (v4 * (275 # 10000000) + - (2 # 10)))
           / (v5 * (275 # 10000000) + - (2 # 10) + (v4 * (275 # 10000000) + - (2 # 10))) in
  ~ n == 3 # 10 /\ ~ n == 2 # 10.
Proof.
  intros H5 H4 Hx Hy n. subst n.
  set (x := v5 * (275 # 10000000) + - (2 # 10)) in *.
  set (y := v4 * (275 # 10000000) + - (2 # 10)) in *.
  destruct (Qlt_le_dec 0 (x + y)) as [Hs | Hs].
  - assert (E : (x - y) / (x + y) * (x + y) == x - y) by (field; lra).
    split; intros H; rewrite H in E; unfold x, y in E; rewrite H5, H4 in E.
    + assert (Ez : inject_Z (11 * (7 * z5 + - (13 * z4))) == inject_Z (- 480000)).
      { rewrite inject_Z_mult, inject_Z_plus, inject_Z_opp, !inject_Z_mult.
        change (inject_Z 11) with 11. change (inject_Z 7) with 7.
        change (inject_Z 13) with 13. change (inject_Z (- 480000)) with (- 480000).
        clear - E. lra. }
      apply (proj1 (inject_Z_injective _ _)) in Ez. lia.
    + assert (Ez : inject_Z (11 * (2 * z5 + - (3 * z4))) == inject_Z (- 80000)).
      { rewrite inject_Z_mult, inject_Z_plus, inject_Z_opp, !inject_Z_mult.
        change (inject_Z 11) with 11. change (inject_Z 2) with 2.
        change (inject_Z 3) with 3. change (inject_Z (- 80000)) with (- 80000).
        clear - E. lra. }
      apply (proj1 (inject_Z_injective _ _)) in Ez. lia.
  - assert (E : x - y == 0) by lra.
    unfold Qdiv. rewrite E, Qmult_0_l. split; discriminate.
Qed.

(** Every image the TOTRAM script builds from digital numbers has its NDVI
    off both thresholds. *)
Lemma parameters_NDVI_off_thresholds meets Landsat8 AOI :
  (forall raw, In raw Landsat8 ->
     digital_numbers (L8.SR_B4 raw) /\ digital_numbers (L8.SR_B5 raw)) ->
  forall img px n,
    In img (L8.parameters (L8.landsat meets Landsat8 AOI)) ->
    TOTRAM.NDVI img px = Some n ->
    ~ n == 3 # 10 /\ ~ n == 2 # 10.
Proof.
  intros Hdn img px n Himg En.
  unfold L8.parameters in Himg. apply in_map_iff in Himg as (clipped & <- & Hc).
  unfold L8.landsat in Hc. apply in_map_iff in Hc as (raw & <- & Hraw).
  do 3 apply filter_In, proj1 in Hraw. destruct (Hdn raw Hraw) as [Hd4 Hd5].
  cbn [TOTRAM.NDVI L8.SR_B4 L8.SR_B5] in En.
  apply normalizedDifference_Some in En as (x & y & Ex & Ey & Hx & Hy & ->).
  unfold eeIngest.add, eeIngest.multiply, ee.lift1, eeIngest.clip in Ex, Ey.
  destruct (eeIngest.covers AOI px); [|discriminate].
  destruct (L8.SR_B5 raw px) as [v5|] eqn:E5; [|discriminate].
  destruct (L8.SR_B4 raw px) as [v4|] eqn:E4; [|discriminate].
  injection Ex as <-. injection Ey as <-.
  destruct (Hd5 px v5 E5) as (z5 & H5). destruct (Hd4 px v4 E4) as (z4 & H4).
  exact (scaled_ndvi_off_thresholds z5 z4 v5 v4 H5 H4 Hx Hy).
Qed.

(** C8.  The masks are per-pixel predicates on the NDVI band, and the band
    handed to the corner estimator keeps exactly the valid pixels at which
    the mask holds; a masked pixel of NDVI satisfies neither mask.

    OPTRAM, for every image: full cover holds iff NDVI >= 0.6, bare soil iff
    0.1 <= NDVI <= 0.2, and no pixel satisfies both.

    TOTRAM compares with [gt(0.3)] and with [gte(0).and(lt(0.2))]: for any
    pair of bands, full cover holds iff NDVI > 0.3 and bare soil iff
    0 <= NDVI < 0.2, and no pixel satisfies both.  The images the script
    evaluates are those of [parameters], whose NDVI comes from the digital
    numbers of SR_B5 and SR_B4; that NDVI is never 0.3 and never 0.2, so on
    every such image full cover holds iff NDVI >= 0.3 and bare soil iff
    0 <= NDVI <= 0.2: a threshold at or above which the mask holds, and a
    low band. *)
Theorem vegetation_masks :
  (forall (image : OPTRAM.Scene) (px : pixel),
      (holds (OPTRAM.full image) px <->
         exists n, OPTRAM.NDVI image px = Some n /\ 6 # 10 <= n) /\
      (holds (OPTRAM.bare image) px <->
         exists n, OPTRAM.NDVI image px = Some n /\ 1 # 10 <= n /\ n <= 2 # 10) /\
      ~ (holds (OPTRAM.full image) px /\ holds (OPTRAM.bare image) px) /\
      (forall v, ee.updateMask (OPTRAM.STR image) (OPTRAM.full image) px = Some v <->
                 OPTRAM.STR image px = Some v /\ holds (OPTRAM.full image) px) /\
      (forall v, ee.updateMask (OPTRAM.STR image) (OPTRAM.bare image) px = Some v <->
                 OPTRAM.STR image px = Some v /\ holds (OPTRAM.bare image) px)) /\
  (forall (img : TOTRAM.Scene) (px : pixel),
      (holds (TOTRAM.ndvi_full img) px <->
         exists n, TOTRAM.NDVI img px = Some n /\ 3 # 10 < n) /\
      (holds (TOTRAM.ndvi_bare img) px <->
         exists n, TOTRAM.NDVI img px = Some n /\ 0 <= n /\ n < 2 # 10) /\
      ~ (holds (TOTRAM.ndvi_full img) px /\ holds (TOTRAM.ndvi_bare img) px) /\
      (forall v, ee.updateMask (TOTRAM.LST img) (TOTRAM.ndvi_full img) px = Some v <->
                 TOTRAM.LST img px = Some v /\ holds (TOTRAM.ndvi_full img) px) /\
      (forall v, ee.updateMask (TOTRAM.LST img) (TOTRAM.ndvi_bare img) px = Some v <->
                 TOTRAM.LST img px = Some v /\ holds (TOTRAM.ndvi_bare img) px)) /\
  (forall meets Landsat8 AOI,
      (forall raw, In raw Landsat8 ->
         digital_numbers (L8.SR_B4 raw) /\ digital_numbers (L8.SR_B5 raw)) ->
      forall img, In img (L8.parameters (L8.landsat meets Landsat8 AOI)) ->
      forall px,
        (forall n, TOTRAM.NDVI img px = Some n -> ~ n == 3 # 10 /\ ~ n == 2 # 10) /\
        (holds (TOTRAM.ndvi_full img) px <->
           exists n, TOTRAM.NDVI img px = Some n /\ 3 # 10 <= n) /\
        (holds (TOTRAM.ndvi_bare img) px <->
           exists n, TOTRAM.NDVI img px = Some n /\ 0 <= n /\ n <= 2 # 10)).
Proof.
  split; [|split].
  - intros image px.
    assert (Hf : holds (OPTRAM.full image) px <->
                 exists n, OPTRAM.NDVI image px = Some n /\ 6 # 10 <= n)
      by apply holds_gte.
    assert (Hb : holds (OPTRAM.bare image) px <->
                 exists n, OPTRAM.NDVI image px = Some n /\ 1 # 10 <= n /\ n <= 2 # 10).
    { unfold OPTRAM.bare. rewrite holds_and, holds_gte, holds_lte. split.
      - intros [(n & E & H1) (n' & E' & H2)]. exists n.
        rewrite E in E'. injection E' as <-. auto.
      - intros (n & E & H1 & H2). split; exists n; auto. }
    split; [exact Hf | split; [exact Hb|]].
    split; [|split; intros v; apply updateMask_valid].
    rewrite Hf, Hb. intros [(n & E & H1) (n' & E' & _ & H2)].
    rewrite E in E'. injection E' as <-. lra.
  - intros img px.
    pose proof (ndvi_full_holds img px) as Hf.
    pose proof (ndvi_bare_holds img px) as Hb.
    split; [exact Hf | split; [exact Hb|]].
    split; [|split; intros v; apply updateMask_valid].
    rewrite Hf, Hb. intros [(n & E & H1) (n' & E' & _ & H2)].
    rewrite E in E'. injection E' as <-. lra.
  - intros meets Landsat8 AOI Hdn img Himg px.
    pose proof (fun n => parameters_NDVI_off_thresholds meets Landsat8 AOI Hdn img px n Himg)
      as Hoff.
    split; [exact Hoff|]. rewrite ndvi_full_holds, ndvi_bare_holds. split; split.
    + intros (n & E & H). exists n. split; [exact E | lra].
    + intros (n & E & H). exists n. split; [exact E|].
      destruct (Qle_lt_or_eq _ _ H) as [Hlt | Heq]; [exact Hlt|].
      destruct (Hoff n E) as [H3 _]. exfalso. apply H3. symmetry. exact Heq.
    + intros (n & E & H0 & H). exists n. split; [exact E|]. split; [exact H0 | lra].
    + intros (n & E & H0 & H). exists n. split; [exact E|]. split; [exact H0|].
      destruct (Qle_lt_or_eq _ _ H) as [Hlt | Heq]; [exact Hlt|].
      destruct (Hoff n E) as [_ H2]. exfalso. exact (H2 Heq).
Qed.

Lemma vegetation_masks_witness :
  exists img,
    nth_error Probe.parameters 0 = Some img /\
    (holds (TOTRAM.ndvi_full img) Probe.inside <->
       exists n, TOTRAM.NDVI img Probe.inside = Some n /\ 3 # 10 <= n) /\
    (holds (TOTRAM.ndvi_bare img) Probe.inside <->
       exists n, TOTRAM.NDVI img Probe.inside = Some n /\ 0 <= n /\ n <= 2 # 10).
Proof.
  assert (Hdn : forall raw, In raw Probe.Landsat8 ->
            digital_numbers (L8.SR_B4 raw) /\ digital_numbers (L8.SR_B5 raw)).
  { intros raw [<- | [<- | [<- | [<- | [<- | []]]]]]; split; intros px v [= <-];
      first [exists 10000%Z; reflexivity | exists 11000%Z; reflexivity
            | exists 19000%Z; reflexivity | exists 20000%Z; reflexivity]. }
  destruct (nth_error Probe.parameters 0) as [img|] eqn:E; [|discriminate E].
  exists img. split; [reflexivity|].
  exact (proj2 (proj2 (proj2 vegetation_masks) (fun g img => Probe.meets g img)
                  Probe.Landsat8 Probe.AOI Hdn img (nth_error_In _ _ E) Probe.inside)).
Defined.

(** ** Trapezoid parameter derivation *)

(** C1, as the code has it.  With the four corners evaluated, TOTRAM derives
    its deltas as bare-soil corner minus vegetation corner
    ([sd = id - vd], [sw = iw - vw]: dry bare minus dry vegetation, wet bare
    minus wet vegetation), while OPTRAM derives them in the opposite order,
    vegetation corner minus bare-soil corner ([sd_opt = vd_opt - id_opt],
    [sw_opt = vw_opt - iw_opt]). *)
Theorem trapezoid_deltas :
  (forall AOI coll vw vd iw id,
      OPTRAM.vw_opt AOI coll = Ok vw -> OPTRAM.vd_opt AOI coll = Ok vd ->
      OPTRAM.iw_opt AOI coll = Ok iw -> OPTRAM.id_opt AOI coll = Ok id ->
      OPTRAM.sd_opt AOI coll = Ok (vd - id) /\ OPTRAM.sw_opt AOI coll = Ok (vw - iw)) /\
  (forall AOI parameters vw vd iw id,
      TOTRAM.vw AOI parameters = Ok vw -> TOTRAM.vd AOI parameters = Ok vd ->
      TOTRAM.iw AOI parameters = Ok iw -> TOTRAM.id AOI parameters = Ok id ->
      TOTRAM.sd AOI parameters = Ok (id - vd) /\ TOTRAM.sw AOI parameters = Ok (iw - vw)).
Proof.
  split; intros AOI c vw vd iw id Hvw Hvd Hiw Hid.
  - unfold OPTRAM.sd_opt, OPTRAM.sw_opt. rewrite Hvw, Hvd, Hiw, Hid. split; reflexivity.
  - unfold TOTRAM.sd, TOTRAM.sw. rewrite Hvw, Hvd, Hiw, Hid. split; reflexivity.
Qed.

Lemma trapezoid_deltas_witness :
  (OPTRAM.sd_opt Scenario.AOI Scenario.coll = Ok ((11 # 10) - (20 # 10)) /\
   OPTRAM.sw_opt Scenario.AOI Scenario.coll = Ok ((12 # 10) - (20 # 10))) /\
  (TOTRAM.sd Scenario.AOI Scenario.parameters = Ok (320 - 305) /\
   TOTRAM.sw Scenario.AOI Scenario.parameters = Ok (320 - 300)).
Proof.
  split.
  - apply (proj1 trapezoid_deltas Scenario.AOI Scenario.coll); reflexivity.
  - apply (proj2 trapezoid_deltas Scenario.AOI Scenario.parameters); reflexivity.
Defined.

(** C1 fails as stated for OPTRAM: on the three images of the scenario the
    dry corners are 1.1 (vegetation) and 2.0 (bare soil), and the script's
    [sd_opt] is 1.1 - 2.0 = -0.9, not dryBare - dryVeg = 0.9; likewise
    [sw_opt] is 1.2 - 2.0 = -0.8, not wetBare - wetVeg = 0.8. *)
Lemma trapezoid_deltas_counterexample :
  OPTRAM.vd_opt Scenario.AOI Scenario.coll = Ok (11 # 10) /\
  OPTRAM.id_opt Scenario.AOI Scenario.coll = Ok (20 # 10) /\
  OPTRAM.vw_opt Scenario.AOI Scenario.coll = Ok (12 # 10) /\
  OPTRAM.iw_opt Scenario.AOI Scenario.coll = Ok (20 # 10) /\
  rQeq (OPTRAM.sd_opt Scenario.AOI Scenario.coll) (Ok (- (9 # 10))) /\
  ~ rQeq (OPTRAM.sd_opt Scenario.AOI Scenario.coll) (Ok ((20 # 10) - (11 # 10))) /\
  rQeq (OPTRAM.sw_opt Scenario.AOI Scenario.coll) (Ok (- (8 # 10))) /\
  ~ rQeq (OPTRAM.sw_opt Scenario.AOI Scenario.coll) (Ok ((20 # 10) - (12 # 10))).
Proof.
  repeat split; try reflexivity; vm_compute; discriminate.
Qed.

(** ** Extreme corner estimator *)

(** [r] is the extreme of the pool: it is an extreme of it, and it agrees with
    whatever is one. *)
Lemma corner_equals_extreme R reducer AOI masked :
  extreme_order R -> (forall l, global_extreme R l (reducer l)) ->
  global_extreme R (pooled_values masked AOI) (to_option (corner reducer AOI masked)) /\
  (forall m, global_extreme R (pooled_values masked AOI) m ->
             oQeq (to_option (corner reducer AOI masked)) m).
Proof.
  intros HR Hred. split.
  - apply corner_extreme; assumption.
  - intros m Hm. eapply global_extreme_unique; [exact HR | | exact Hm].
    apply corner_extreme; assumption.
Qed.

(** C3.  For every non-empty collection, both masks and both bands, each of
    the eight corner expressions (per-pixel extreme across the images, then
    the extreme over the AOI) equals the single global extreme of the pool of
    all valid masked pixel values, over all images and all pixels of the AOI:
    it is a member of the pool that bounds every member, it agrees (up to
    [==]) with any such extreme, and it has no value exactly when the pool is
    empty. *)
Theorem corner_two_stage_is_global_extreme :
  (forall AOI coll, coll <> [] ->
     let fc := pooled_values (OPTRAM.STR_full_cover coll) AOI in
     let bs := pooled_values (OPTRAM.STR_bare_soil coll) AOI in
     (global_max fc (to_option (OPTRAM.vw_opt AOI coll)) /\
      forall m, global_max fc m -> oQeq (to_option (OPTRAM.vw_opt AOI coll)) m) /\
     (global_min fc (to_option (OPTRAM.vd_opt AOI coll)) /\
      forall m, global_min fc m -> oQeq (to_option (OPTRAM.vd_opt AOI coll)) m) /\
     (global_max bs (to_option (OPTRAM.iw_opt AOI coll)) /\
      forall m, global_max bs m -> oQeq (to_option (OPTRAM.iw_opt AOI coll)) m) /\
     (global_min bs (to_option (OPTRAM.id_opt AOI coll)) /\
      forall m, global_min bs m -> oQeq (to_option (OPTRAM.id_opt AOI coll)) m)) /\
  (forall AOI parameters, parameters <> [] ->
     let fc := pooled_values (TOTRAM.lst_full_cover parameters) AOI in
     let bs := pooled_values (TOTRAM.lst_bareland parameters) AOI in
     (global_min fc (to_option (TOTRAM.vw AOI parameters)) /\
      forall m, global_min fc m -> oQeq (to_option (TOTRAM.vw AOI parameters)) m) /\
     (global_max fc (to_option (TOTRAM.vd AOI parameters)) /\
      forall m, global_max fc m -> oQeq (to_option (TOTRAM.vd AOI parameters)) m) /\
     (global_min bs (to_option (TOTRAM.iw AOI parameters)) /\
      forall m, global_min bs m -> oQeq (to_option (TOTRAM.iw AOI parameters)) m) /\
     (global_max bs (to_option (TOTRAM.id AOI parameters)) /\
      forall m, global_max bs m -> oQeq (to_option (TOTRAM.id AOI parameters)) m)).
Proof.
  pose proof (fun AOI masked =>
    corner_equals_extreme Qle ee.Reducer_max AOI masked
      Qle_extreme_order Reducer_max_extreme) as Hmax.
  pose proof (fun AOI masked =>
    corner_equals_extreme (fun y v => v <= y) ee.Reducer_min AOI masked
      Qge_extreme_order Reducer_min_extreme) as Hmin.
  split; intros AOI c _; cbv zeta; repeat split;
    first [ apply Hmax | apply Hmin | apply (proj2 (Hmax _ _)) | apply (proj2 (Hmin _ _)) ].
Qed.

Lemma corner_two_stage_witness :
  global_max (pooled_values (OPTRAM.STR_full_cover Scenario.coll) Scenario.AOI)
    (to_option (OPTRAM.vw_opt Scenario.AOI Scenario.coll)) /\
  global_max (pooled_values (TOTRAM.lst_bareland Scenario.parameters) Scenario.AOI)
    (to_option (TOTRAM.id Scenario.AOI Scenario.parameters)).
Proof.
  assert (Ho : Scenario.coll <> []) by discriminate.
  assert (Ht : Scenario.parameters <> []) by discriminate.
  pose proof (proj1 corner_two_stage_is_global_extreme
                Scenario.AOI Scenario.coll Ho) as H1.
  pose proof (proj2 corner_two_stage_is_global_extreme
                Scenario.AOI Scenario.parameters Ht) as H2.
  exact (conj (proj1 (proj1 H1)) (proj1 (proj2 (proj2 (proj2 H2))))).
Defined.

(** ** Lemmas on the series and the charts *)

Lemma optram_series_eq AOI coll :
  OPTRAM.optram_series AOI coll =
  match coll with
  | [] => Ok []
  | _ =>
      id ← OPTRAM.id_opt AOI coll; sd ← OPTRAM.sd_opt AOI coll;
      iw ← OPTRAM.iw_opt AOI coll; sw ← OPTRAM.sw_opt AOI coll;
      Ok (List.map (OPTRAM.series_image id sd iw sw) coll)
  end.
Proof.
  exact (mapM_calibrated (OPTRAM.id_opt AOI coll) (OPTRAM.sd_opt AOI coll)
           (OPTRAM.iw_opt AOI coll) (OPTRAM.sw_opt AOI coll) OPTRAM.series_image coll).
Qed.

Lemma sm_series_eq AOI parameters :
  TOTRAM.sm_series AOI parameters =
  match parameters with
  | [] => Ok []
  | _ =>
      id ← TOTRAM.id AOI parameters; sd ← TOTRAM.sd AOI parameters;
      iw ← TOTRAM.iw AOI parameters; sw ← TOTRAM.sw AOI parameters;
      Ok (List.map (TOTRAM.series_image id sd iw sw) parameters)
  end.
Proof.
  exact (mapM_calibrated (TOTRAM.id AOI parameters) (TOTRAM.sd AOI parameters)
           (TOTRAM.iw AOI parameters) (TOTRAM.sw AOI parameters)
           TOTRAM.series_image parameters).
Qed.

Lemma optram_series_calibrated AOI coll id sd iw sw :
  OPTRAM.id_opt AOI coll = Ok id -> OPTRAM.sd_opt AOI coll = Ok sd ->
  OPTRAM.iw_opt AOI coll = Ok iw -> OPTRAM.sw_opt AOI coll = Ok sw ->
  OPTRAM.optram_series AOI coll = Ok (List.map (OPTRAM.series_image id sd iw sw) coll).
Proof.
  intros H1 H2 H3 H4. rewrite optram_series_eq, H1, H2, H3, H4.
  destruct coll; reflexivity.
Qed.

Lemma sm_series_calibrated AOI parameters id sd iw sw :
  TOTRAM.id AOI parameters = Ok id -> TOTRAM.sd AOI parameters = Ok sd ->
  TOTRAM.iw AOI parameters = Ok iw -> TOTRAM.sw AOI parameters = Ok sw ->
  TOTRAM.sm_series AOI parameters =
  Ok (List.map (TOTRAM.series_image id sd iw sw) parameters).
Proof.
  intros H1 H2 H3 H4. rewrite sm_series_eq, H1, H2, H3, H4.
  destruct parameters; reflexivity.
Qed.

(** A series that evaluates is the image-wise map of the collection. *)
Lemma optram_series_inv AOI coll outs :
  OPTRAM.optram_series AOI coll = Ok outs ->
  exists id sd iw sw, outs = List.map (OPTRAM.series_image id sd iw sw) coll.
Proof.
  rewrite optram_series_eq. destruct coll as [|s coll].
  - intros [= <-]. exists 0, 0, 0, 0. reflexivity.
  - destruct (OPTRAM.id_opt _ _) as [id|]; [|discriminate].
    destruct (OPTRAM.sd_opt _ _) as [sd|]; [|discriminate].
    destruct (OPTRAM.iw_opt _ _) as [iw|]; [|discriminate].
    destruct (OPTRAM.sw_opt _ _) as [sw|]; [|discriminate].
    intros [= <-]. exists id, sd, iw, sw. reflexivity.
Qed.

Lemma sm_series_inv AOI parameters outs :
  TOTRAM.sm_series AOI parameters = Ok outs ->
  exists id sd iw sw, outs = List.map (TOTRAM.series_image id sd iw sw) parameters.
Proof.
  rewrite sm_series_eq. destruct parameters as [|s parameters].
  - intros [= <-]. exists 0, 0, 0, 0. reflexivity.
  - destruct (TOTRAM.id _ _) as [id|]; [|discriminate].
    destruct (TOTRAM.sd _ _) as [sd|]; [|discriminate].
    destruct (TOTRAM.iw _ _) as [iw|]; [|discriminate].
    destruct (TOTRAM.sw _ _) as [sw|]; [|discriminate].
    intros [= <-]. exists id, sd, iw, sw. reflexivity.
Qed.

Lemma Forall2_map_r {A B : Type} (P : A -> B -> Prop) (f : A -> B) (l : list A) :
  (forall a, In a l -> P a (f a)) -> Forall2 P l (List.map f l).
Proof.
  induction l as [|a l IH]; intros H; simpl; constructor.
  - apply H. left. reflexivity.
  - apply IH. intros b Hb. apply H. right. exact Hb.
Qed.

Lemma valid_values_Qeq {A : Type} (f g : A -> option Q) (l : list A) :
  (forall a, oQeq (f a) (g a)) ->
  Forall2 Qeq (ee.valid_values f l) (ee.valid_values g l).
Proof.
  intros H. induction l as [|a l IH]; simpl; [constructor|].
  specialize (H a). destruct (f a), (g a); simpl in H; try tauto.
  constructor; assumption.
Qed.

Lemma Qsum_Qeq (l l' : list Q) : Forall2 Qeq l l' -> ee.Qsum l == ee.Qsum l'.
Proof.
  induction 1 as [|x y l l' Hxy _ IH]; simpl; [reflexivity|].
  rewrite Hxy, IH. reflexivity.
Qed.

Lemma Reducer_mean_Qeq (l l' : list Q) :
  Forall2 Qeq l l' -> oQeq (ee.Reducer_mean l) (ee.Reducer_mean l').
Proof.
  intros H. pose proof (Qsum_Qeq l l' H) as Hs.
  pose proof (Forall2_length _ _ _ H) as Hl.
  destruct H as [|x y l l' Hxy H]; simpl; [exact I|].
  simpl in Hs, Hl. rewrite Hs, Hl. reflexivity.
Qed.

Lemma oQeq_refl (a : option Q) : oQeq a a.
Proof. destruct a; simpl; [reflexivity | exact I]. Qed.

Lemma oQeq_sym (a b : option Q) : oQeq a b -> oQeq b a.
Proof. destruct a, b; simpl; try tauto. intros H. symmetry. exact H. Qed.

Lemma oQeq_trans (a b c : option Q) : oQeq a b -> oQeq b c -> oQeq a c.
Proof.
  destruct a, b, c; simpl; try tauto. intros H1 H2. rewrite H1. exact H2.
Qed.

Lemma point_eq_equivalence : Equivalence point_eq.
Proof.
  split.
  - intros p. split; [reflexivity | apply oQeq_refl].
  - intros p q [H1 H2]. split; [symmetry; exact H1 | apply oQeq_sym, H2].
  - intros p q r [H1 H2] [H3 H4]. split; [congruence | eapply oQeq_trans; eassumption].
Qed.

(** Charts of two image-wise maps that agree on the plotted property and, up
    to [==], on the pixels, over two orders of the same collection. *)
Lemma chart_Permutation {S : Type} (f f' : S -> Image) (l l' : list S)
    (region : geometry) (xProperty : string) :
  Permutation l l' ->
  (forall s, properties (f s) !! xProperty = properties (f' s) !! xProperty) ->
  (forall s px, oQeq (data (f s) px) (data (f' s) px)) ->
  PermutationA point_eq
    (ee.Chart_image_series (List.map f l) region ee.Reducer_mean xProperty)
    (ee.Chart_image_series (List.map f' l') region ee.Reducer_mean xProperty).
Proof.
  intros HP Hx Hd.
  apply (permA_trans (l₂ :=
    ee.Chart_image_series (List.map f' l) region ee.Reducer_mean xProperty)).
  - clear HP l'. unfold ee.Chart_image_series.
    induction l as [|s l IH]; simpl; [constructor|].
    apply permA_skip; [|exact IH]. split; simpl; [apply Hx|].
    apply Reducer_mean_Qeq, valid_values_Qeq, Hd.
  - apply (Permutation_PermutationA point_eq_equivalence).
    unfold ee.Chart_image_series. do 2 apply Permutation_map. exact HP.
Qed.

Lemma calibrated_chart_eq (A B C D A' B' C' D' : result Q)
    (g g' : Q -> Q -> Q -> Q -> list (option value * option Q)) :
  rQeq A A' -> rQeq B B' -> rQeq C C' -> rQeq D D' ->
  (forall a b c d a' b' c' d',
      a == a' -> b == b' -> c == c' -> d == d' ->
      PermutationA point_eq (g a b c d) (g' a' b' c' d')) ->
  chart_eq (a ← A; b ← B; c ← C; d ← D; Ok (g a b c d))
           (a ← A'; b ← B'; c ← C'; d ← D'; Ok (g' a b c d)).
Proof.
  intros HA HB HC HD Hg.
  destruct A as [a|ea], A' as [a'|ea']; simpl in HA; try tauto; try exact HA.
  destruct B as [b|eb], B' as [b'|eb']; simpl in HB; try tauto; try exact HB.
  destruct C as [c|ec], C' as [c'|ec']; simpl in HC; try tauto; try exact HC.
  destruct D as [d|ed], D' as [d'|ed']; simpl in HD; try tauto; try exact HD.
  apply Hg; assumption.
Qed.

Lemma rQeq_minus (A B A' B' : result Q) :
  rQeq A A' -> rQeq B B' ->
  rQeq (a ← A; b ← B; Ok (a - b)) (a ← A'; b ← B'; Ok (a - b)).
Proof.
  intros HA HB.
  destruct A as [a|ea], A' as [a'|ea']; simpl in HA; try tauto; try exact HA.
  destruct B as [b|eb], B' as [b'|eb']; simpl in HB; try tauto; try exact HB.
  simpl. rewrite HA, HB. reflexivity.
Qed.

Lemma OPTRAM_region_chart_eq AOI coll region :
  OPTRAM.region_chart AOI coll region =
  match coll with
  | [] => Ok []
  | _ =>
      id ← OPTRAM.id_opt AOI coll; sd ← OPTRAM.sd_opt AOI coll;
      iw ← OPTRAM.iw_opt AOI coll; sw ← OPTRAM.sw_opt AOI coll;
      Ok (ee.Chart_image_series (List.map (OPTRAM.series_image id sd iw sw) coll)
            region ee.Reducer_mean "system:time_start")
  end.
Proof.
  unfold OPTRAM.region_chart. rewrite optram_series_eq.
  destruct coll as [|s coll]; [reflexivity|].
  destruct (OPTRAM.id_opt _ _) as [id|]; [|reflexivity].
  destruct (OPTRAM.sd_opt _ _) as [sd|]; [|reflexivity].
  destruct (OPTRAM.iw_opt _ _) as [iw|]; [|reflexivity].
  destruct (OPTRAM.sw_opt _ _) as [sw|]; [|reflexivity].
  cbn [mbind result_bind]. rewrite select_all; [reflexivity|].
  apply List.Forall_forall. intros i Hi. apply in_map_iff in Hi as (x & <- & _). reflexivity.
Qed.

Lemma TOTRAM_region_chart_eq AOI parameters region :
  TOTRAM.region_chart AOI parameters region =
  match parameters with
  | [] => Ok []
  | _ =>
      id ← TOTRAM.id AOI parameters; sd ← TOTRAM.sd AOI parameters;
      iw ← TOTRAM.iw AOI parameters; sw ← TOTRAM.sw AOI parameters;
      Ok (ee.Chart_image_series (List.map (TOTRAM.series_image id sd iw sw) parameters)
            region ee.Reducer_mean "system:time_start")
  end.
Proof.
  unfold TOTRAM.region_chart. rewrite sm_series_eq.
  destruct parameters as [|s parameters]; [reflexivity|].
  destruct (TOTRAM.id _ _) as [id|]; [|reflexivity].
  destruct (TOTRAM.sd _ _) as [sd|]; [|reflexivity].
  destruct (TOTRAM.iw _ _) as [iw|]; [|reflexivity].
  destruct (TOTRAM.sw _ _) as [sw|]; [|reflexivity].
  cbn [mbind result_bind]. rewrite select_all; [reflexivity|].
  apply List.Forall_forall. intros i Hi. apply in_map_iff in Hi as (x & <- & _). reflexivity.
Qed.

Lemma OPTRAM_series_image_Qeq id sd iw sw id' sd' iw' sw' image px :
  id == id' -> sd == sd' -> iw == iw' -> sw == sw' ->
  oQeq (data (OPTRAM.series_image id sd iw sw image) px)
       (data (OPTRAM.series_image id' sd' iw' sw' image) px).
Proof.
  intros H1 H2 H3 H4. cbn. unfold ee.lift2.
  destruct (OPTRAM.NDVI image px) as [n|]; [|exact I].
  destruct (OPTRAM.STR image px) as [s|]; [|exact I].
  simpl. unfold OPTRAM.expr. rewrite H1, H2, H3, H4. reflexivity.
Qed.

Lemma TOTRAM_series_image_Qeq id sd iw sw id' sd' iw' sw' img px :
  id == id' -> sd == sd' -> iw == iw' -> sw == sw' ->
  oQeq (data (TOTRAM.series_image id sd iw sw img) px)
       (data (TOTRAM.series_image id' sd' iw' sw' img) px).
Proof.
  intros H1 H2 H3 H4. cbn. unfold ee.lift2.
  destruct (TOTRAM.NDVI img px) as [n|]; [|exact I].
  destruct (TOTRAM.LST img px) as [s|]; [|exact I].
  simpl. unfold TOTRAM.expr. rewrite H1, H2, H3, H4. reflexivity.
Qed.

(** ** Order independence *)

(** C7.  Reordering the images of a collection changes neither the four
    corners (equal numbers, or the same failure) nor the chart of a region:
    the chart of the reordered collection has the same (time, mean) points,
    up to their order. *)
Theorem scene_order_independence :
  (forall AOI region coll coll', Permutation coll coll' ->
     rQeq (OPTRAM.vw_opt AOI coll) (OPTRAM.vw_opt AOI coll') /\
     rQeq (OPTRAM.vd_opt AOI coll) (OPTRAM.vd_opt AOI coll') /\
     rQeq (OPTRAM.iw_opt AOI coll) (OPTRAM.iw_opt AOI coll') /\
     rQeq (OPTRAM.id_opt AOI coll) (OPTRAM.id_opt AOI coll') /\
     chart_eq (OPTRAM.region_chart AOI coll region)
              (OPTRAM.region_chart AOI coll' region)) /\
  (forall AOI region parameters parameters', Permutation parameters parameters' ->
     rQeq (TOTRAM.vw AOI parameters) (TOTRAM.vw AOI parameters') /\
     rQeq (TOTRAM.vd AOI parameters) (TOTRAM.vd AOI parameters') /\
     rQeq (TOTRAM.iw AOI parameters) (TOTRAM.iw AOI parameters') /\
     rQeq (TOTRAM.id AOI parameters) (TOTRAM.id AOI parameters') /\
     chart_eq (TOTRAM.region_chart AOI parameters region)
              (TOTRAM.region_chart AOI parameters' region)).
Proof.
  pose proof (corner_Permutation Qle ee.Reducer_max Qle_extreme_order Reducer_max_extreme)
    as Hmax.
  pose proof (corner_Permutation (fun y v => v <= y) ee.Reducer_min
                Qge_extreme_order Reducer_min_extreme) as Hmin.
  split.
  - intros AOI region coll coll' HP.
    assert (Hvw : rQeq (OPTRAM.vw_opt AOI coll) (OPTRAM.vw_opt AOI coll'))
      by (apply Hmax, Permutation_map, HP).
    assert (Hvd : rQeq (OPTRAM.vd_opt AOI coll) (OPTRAM.vd_opt AOI coll'))
      by (apply Hmin, Permutation_map, HP).
    assert (Hiw : rQeq (OPTRAM.iw_opt AOI coll) (OPTRAM.iw_opt AOI coll'))
      by (apply Hmax, Permutation_map, HP).
    assert (Hid : rQeq (OPTRAM.id_opt AOI coll) (OPTRAM.id_opt AOI coll'))
      by (apply Hmin, Permutation_map, HP).
    repeat (split; [assumption|]).
    rewrite !OPTRAM_region_chart_eq.
    destruct coll as [|s coll], coll' as [|s' coll'].
    + constructor.
    + apply Permutation_nil in HP. discriminate.
    + symmetry in HP. apply Permutation_nil in HP. discriminate.
    + apply calibrated_chart_eq; try assumption.
      * apply rQeq_minus; assumption.
      * apply rQeq_minus; assumption.
      * intros a b c d a' b' c' d' Ha Hb Hc Hd.
        apply chart_Permutation; [exact HP | reflexivity |].
        intros image px. apply OPTRAM_series_image_Qeq; assumption.
  - intros AOI region coll coll' HP.
    assert (Hvw : rQeq (TOTRAM.vw AOI coll) (TOTRAM.vw AOI coll'))
      by (apply Hmin, Permutation_map, HP).
    assert (Hvd : rQeq (TOTRAM.vd AOI coll) (TOTRAM.vd AOI coll'))
      by (apply Hmax, Permutation_map, HP).
    assert (Hiw : rQeq (TOTRAM.iw AOI coll) (TOTRAM.iw AOI coll'))
      by (apply Hmin, Permutation_map, HP).
    assert (Hid : rQeq (TOTRAM.id AOI coll) (TOTRAM.id AOI coll'))
      by (apply Hmax, Permutation_map, HP).
    repeat (split; [assumption|]).
    rewrite !TOTRAM_region_chart_eq.
    destruct coll as [|s coll], coll' as [|s' coll'].
    + constructor.
    + apply Permutation_nil in HP. discriminate.
    + symmetry in HP. apply Permutation_nil in HP. discriminate.
    + apply calibrated_chart_eq; try assumption.
      * apply rQeq_minus; assumption.
      * apply rQeq_minus; assumption.
      * intros a b c d a' b' c' d' Ha Hb Hc Hd.
        apply chart_Permutation; [exact HP | reflexivity |].
        intros image px. apply TOTRAM_series_image_Qeq; assumption.
Qed.

Lemma scene_order_independence_witness :
  rQeq (OPTRAM.vw_opt Scenario.AOI Scenario.coll)
       (OPTRAM.vw_opt Scenario.AOI [Scenario.s2; Scenario.s1; Scenario.s3]) /\
  chart_eq (OPTRAM.region_chart Scenario.AOI Scenario.coll Scenario.AOI)
           (OPTRAM.region_chart Scenario.AOI [Scenario.s2; Scenario.s1; Scenario.s3]
              Scenario.AOI).
Proof.
  pose proof (proj1 scene_order_independence Scenario.AOI Scenario.AOI
                Scenario.coll [Scenario.s2; Scenario.s1; Scenario.s3]
                (perm_swap Scenario.s2 Scenario.s1 [Scenario.s3])) as H.
  exact (conj (proj1 H) (proj2 (proj2 (proj2 (proj2 H))))).
Defined.

(** ** Calibration failure *)

Ltac corner_result r :=
  let v := fresh "v" in
  let e := fresh "e" in
  let E := fresh "E" in
  destruct r as [v|e] eqn:E;
  [| apply Number_get0_error in E; subst e ].

Lemma OPTRAM_empty_pools AOI coll :
  (pooled_values (OPTRAM.STR_full_cover coll) AOI = [] ->
   OPTRAM.vw_opt AOI coll = Err EEException /\ OPTRAM.vd_opt AOI coll = Err EEException) /\
  (pooled_values (OPTRAM.STR_bare_soil coll) AOI = [] ->
   OPTRAM.iw_opt AOI coll = Err EEException /\ OPTRAM.id_opt AOI coll = Err EEException).
Proof.
  split; intros H; split.
  - exact (corner_empty_pool _ _ Qle_extreme_order Reducer_max_extreme AOI _ H).
  - exact (corner_empty_pool _ _ Qge_extreme_order Reducer_min_extreme AOI _ H).
  - exact (corner_empty_pool _ _ Qle_extreme_order Reducer_max_extreme AOI _ H).
  - exact (corner_empty_pool _ _ Qge_extreme_order Reducer_min_extreme AOI _ H).
Qed.

Lemma TOTRAM_empty_pools AOI parameters :
  (pooled_values (TOTRAM.lst_full_cover parameters) AOI = [] ->
   TOTRAM.vw AOI parameters = Err EEException /\
   TOTRAM.vd AOI parameters = Err EEException) /\
  (pooled_values (TOTRAM.lst_bareland parameters) AOI = [] ->
   TOTRAM.iw AOI parameters = Err EEException /\
   TOTRAM.id AOI parameters = Err EEException).
Proof.
  split; intros H; split.
  - exact (corner_empty_pool _ _ Qge_extreme_order Reducer_min_extreme AOI _ H).
  - exact (corner_empty_pool _ _ Qle_extreme_order Reducer_max_extreme AOI _ H).
  - exact (corner_empty_pool _ _ Qge_extreme_order Reducer_min_extreme AOI _ H).
  - exact (corner_empty_pool _ _ Qle_extreme_order Reducer_max_extreme AOI _ H).
Qed.

Lemma OPTRAM_calibration_failure AOI coll :
  pooled_values (OPTRAM.STR_full_cover coll) AOI = [] \/
  pooled_values (OPTRAM.STR_bare_soil coll) AOI = [] ->
  (OPTRAM.sd_opt AOI coll = Err EEException /\
   OPTRAM.sw_opt AOI coll = Err EEException) /\
  (forall imgMedian, OPTRAM.OPTRAM_median AOI coll imgMedian = Err EEException) /\
  (coll <> [] -> OPTRAM.optram_series AOI coll = Err EEException) /\
  (forall outs, OPTRAM.optram_series AOI coll = Ok outs -> outs = []) /\
  (forall region points, OPTRAM.region_chart AOI coll region = Ok points -> points = []).
Proof.
  intros H.
  assert (Hd : OPTRAM.sd_opt AOI coll = Err EEException /\
               OPTRAM.sw_opt AOI coll = Err EEException).
  { unfold OPTRAM.sd_opt, OPTRAM.sw_opt.
    destruct H as [H | H].
    - apply (proj1 (OPTRAM_empty_pools AOI coll)) in H as [-> ->]. split; reflexivity.
    - apply (proj2 (OPTRAM_empty_pools AOI coll)) in H as [-> ->]. split.
      + corner_result (OPTRAM.vd_opt AOI coll); reflexivity.
      + corner_result (OPTRAM.vw_opt AOI coll); reflexivity. }
  destruct Hd as [Hsd Hsw].
  assert (Hs : coll <> [] -> OPTRAM.optram_series AOI coll = Err EEException).
  { intros Hne. rewrite optram_series_eq. destruct coll as [|s coll]; [congruence|].
    rewrite Hsd. corner_result (OPTRAM.id_opt AOI (s :: coll)); reflexivity. }
  split; [split; assumption|]. split; [|split; [exact Hs|split]].
  - intros imgMedian. unfold OPTRAM.OPTRAM_median. rewrite Hsd.
    corner_result (OPTRAM.id_opt AOI coll); reflexivity.
  - intros outs Ho. destruct coll as [|s coll].
    + rewrite optram_series_eq in Ho. congruence.
    + rewrite Hs in Ho; [discriminate | discriminate].
  - intros region points Hp. destruct coll as [|s coll].
    + rewrite OPTRAM_region_chart_eq in Hp. congruence.
    + unfold OPTRAM.region_chart in Hp. rewrite Hs in Hp; [discriminate | discriminate].
Qed.

Lemma TOTRAM_calibration_failure AOI parameters :
  pooled_values (TOTRAM.lst_full_cover parameters) AOI = [] \/
  pooled_values (TOTRAM.lst_bareland parameters) AOI = [] ->
  (TOTRAM.sd AOI parameters = Err EEException /\
   TOTRAM.sw AOI parameters = Err EEException) /\
  TOTRAM.sm_mean AOI parameters = Err EEException /\
  (parameters <> [] -> TOTRAM.sm_series AOI parameters = Err EEException) /\
  (forall outs, TOTRAM.sm_series AOI parameters = Ok outs -> outs = []) /\
  (forall region points,
      TOTRAM.region_chart AOI parameters region = Ok points -> points = []).
Proof.
  intros H.
  assert (Hd : TOTRAM.sd AOI parameters = Err EEException /\
               TOTRAM.sw AOI parameters = Err EEException).
  { unfold TOTRAM.sd, TOTRAM.sw.
    destruct H as [H | H].
    - apply (proj1 (TOTRAM_empty_pools AOI parameters)) in H as [-> ->]. split.
      + corner_result (TOTRAM.id AOI parameters); reflexivity.
      + corner_result (TOTRAM.iw AOI parameters); reflexivity.
    - apply (proj2 (TOTRAM_empty_pools AOI parameters)) in H as [-> ->].
      split; reflexivity. }
  destruct Hd as [Hsd Hsw].
  assert (Hs : parameters <> [] -> TOTRAM.sm_series AOI parameters = Err EEException).
  { intros Hne. rewrite sm_series_eq. destruct parameters as [|s parameters]; [congruence|].
    rewrite Hsd. corner_result (TOTRAM.id AOI (s :: parameters)); reflexivity. }
  split; [split; assumption|]. split; [|split; [exact Hs|split]].
  - unfold TOTRAM.sm_mean. destruct parameters as [|s parameters]; [reflexivity|].
    rewrite Hs; [reflexivity | discriminate].
  - intros outs Ho. destruct parameters as [|s parameters].
    + rewrite sm_series_eq in Ho. congruence.
    + rewrite Hs in Ho; [discriminate | discriminate].
  - intros region points Hp. destruct parameters as [|s parameters].
    + rewrite TOTRAM_region_chart_eq in Hp. congruence.
    + unfold TOTRAM.region_chart in Hp. rewrite Hs in Hp; [discriminate | discriminate].
Qed.

(** C4, as the code has it.  When the pool of a corner is empty (the
    collection has no image, or a mask leaves no valid pixel in the AOI), the
    corner expressions over that mask have no value: their evaluation fails
    with the library's own error, since the scripts define no
    [InsufficientDataError] and make no check of their own.  Both deltas, the
    reference composite ([OPTRAM_median], [sm_mean]) and, for a non-empty
    collection, the whole series then fail with the same error; in every case
    the series holds no image and the charts no point. *)
Theorem calibration_failure :
  (forall AOI coll,
     (pooled_values (OPTRAM.STR_full_cover coll) AOI = [] ->
      OPTRAM.vw_opt AOI coll = Err EEException /\
      OPTRAM.vd_opt AOI coll = Err EEException) /\
     (pooled_values (OPTRAM.STR_bare_soil coll) AOI = [] ->
      OPTRAM.iw_opt AOI coll = Err EEException /\
      OPTRAM.id_opt AOI coll = Err EEException) /\
     (pooled_values (OPTRAM.STR_full_cover coll) AOI = [] \/
      pooled_values (OPTRAM.STR_bare_soil coll) AOI = [] ->
      (OPTRAM.sd_opt AOI coll = Err EEException /\
       OPTRAM.sw_opt AOI coll = Err EEException) /\
      (forall imgMedian, OPTRAM.OPTRAM_median AOI coll imgMedian = Err EEException) /\
      (coll <> [] -> OPTRAM.optram_series AOI coll = Err EEException) /\
      (forall outs, OPTRAM.optram_series AOI coll = Ok outs -> outs = []) /\
      (forall region points,
          OPTRAM.region_chart AOI coll region = Ok points -> points = []))) /\
  (forall AOI parameters,
     (pooled_values (TOTRAM.lst_full_cover parameters) AOI = [] ->
      TOTRAM.vw AOI parameters = Err EEException /\
      TOTRAM.vd AOI parameters = Err EEException) /\
     (pooled_values (TOTRAM.lst_bareland parameters) AOI = [] ->
      TOTRAM.iw AOI parameters = Err EEException /\
      TOTRAM.id AOI parameters = Err EEException) /\
     (pooled_values (TOTRAM.lst_full_cover parameters) AOI = [] \/
      pooled_values (TOTRAM.lst_bareland parameters) AOI = [] ->
      (TOTRAM.sd AOI parameters = Err EEException /\
       TOTRAM.sw AOI parameters = Err EEException) /\
      TOTRAM.sm_mean AOI parameters = Err EEException /\
      (parameters <> [] -> TOTRAM.sm_series AOI parameters = Err EEException) /\
      (forall outs, TOTRAM.sm_series AOI parameters = Ok outs -> outs = []) /\
      (forall region points,
          TOTRAM.region_chart AOI parameters region = Ok points -> points = []))).
Proof.
  split; intros AOI c.
  - split; [apply OPTRAM_empty_pools|]. split; [apply OPTRAM_empty_pools|].
    apply OPTRAM_calibration_failure.
  - split; [apply TOTRAM_empty_pools|]. split; [apply TOTRAM_empty_pools|].
    apply TOTRAM_calibration_failure.
Qed.

Lemma calibration_failure_witness :
  (OPTRAM.vw_opt Scenario.AOI [] = Err EEException /\
   OPTRAM.vd_opt Scenario.AOI [] = Err EEException) /\
  (OPTRAM.iw_opt Scenario.AOI Scenario.coll_no_bare = Err EEException /\
   OPTRAM.id_opt Scenario.AOI Scenario.coll_no_bare = Err EEException) /\
  OPTRAM.optram_series Scenario.AOI Scenario.coll_no_bare = Err EEException /\
  TOTRAM.sm_series Scenario.AOI Scenario.parameters_no_bare = Err EEException.
Proof.
  split; [|split; [|split]].
  - apply (proj1 (proj1 calibration_failure Scenario.AOI [])). reflexivity.
  - apply (proj1 (proj2 (proj1 calibration_failure Scenario.AOI Scenario.coll_no_bare))).
    reflexivity.
  - apply (proj2 (proj2 (proj1 calibration_failure Scenario.AOI Scenario.coll_no_bare))).
    + right. reflexivity.
    + discriminate.
  - apply (proj2 (proj2 (proj2 calibration_failure Scenario.AOI
                            Scenario.parameters_no_bare))).
    + right. reflexivity.
    + discriminate.
Defined.

(** C4 fails as stated: for an empty collection, and for a collection whose
    bare-soil mask leaves no valid pixel, the corner expressions fail with
    the library's error and not with [InsufficientDataError]. *)
Lemma calibration_failure_counterexample :
  OPTRAM.vw_opt Scenario.AOI [] = Err EEException /\
  OPTRAM.vw_opt Scenario.AOI [] <> Err InsufficientDataError /\
  Scenario.coll_no_bare <> [] /\
  pooled_values (OPTRAM.STR_bare_soil Scenario.coll_no_bare) Scenario.AOI = [] /\
  OPTRAM.id_opt Scenario.AOI Scenario.coll_no_bare = Err EEException /\
  OPTRAM.id_opt Scenario.AOI Scenario.coll_no_bare <> Err InsufficientDataError /\
  TOTRAM.id Scenario.AOI [] = Err EEException /\
  TOTRAM.id Scenario.AOI [] <> Err InsufficientDataError.
Proof.
  repeat split; try reflexivity; discriminate.
Qed.

(** ** Model evaluator *)

Lemma OPTRAM_evaluates id sd iw sw (image : OPTRAM.Scene) (out : Image) :
  properties out !! "units" = Some (VString "%") ->
  data out = data (OPTRAM.eq_image id sd iw sw image) ->
  evaluates_model "%" id iw sd sw (OPTRAM.NDVI image) (OPTRAM.STR image) out.
Proof.
  intros Hu Hd. split; [exact Hu|]. exists 100. split; [reflexivity|].
  intros px. rewrite Hd. cbn. unfold ee.lift2.
  destruct (OPTRAM.NDVI image px) as [n|]; [|exact I].
  destruct (OPTRAM.STR image px) as [s|]; [|exact I].
  simpl. reflexivity.
Qed.

Lemma TOTRAM_evaluates id sd iw sw (img : TOTRAM.Scene) (out : Image) :
  properties out !! "units" = Some (VString "relative") ->
  data out = data (TOTRAM.eq_image id sd iw sw img) ->
  evaluates_model "relative" id iw sd sw (TOTRAM.NDVI img) (TOTRAM.LST img) out.
Proof.
  intros Hu Hd. split; [exact Hu|]. exists 1. split; [reflexivity|].
  intros px. rewrite Hd. cbn. unfold ee.lift2.
  destruct (TOTRAM.NDVI img px) as [n|]; [|exact I].
  destruct (TOTRAM.LST img px) as [s|]; [|exact I].
  simpl. unfold TOTRAM.expr, spec_value. rewrite Qmult_1_r. reflexivity.
Qed.

Lemma OPTRAM_series_image_meta id sd iw sw image :
  bandName (OPTRAM.series_image id sd iw sw image) = "soil_moisture" /\
  properties (OPTRAM.series_image id sd iw sw image) !! "model"
    = Some (VString "OPTRAM") /\
  properties (OPTRAM.series_image id sd iw sw image) !! "units" = Some (VString "%") /\
  forall k, k <> "model" -> k <> "units" ->
    properties (OPTRAM.series_image id sd iw sw image) !! k
    = OPTRAM.scene_properties image !! k.
Proof.
  unfold OPTRAM.series_image. split; [reflexivity|].
  split; [|split].
  - rewrite set2_lookup. reflexivity.
  - rewrite set2_lookup. reflexivity.
  - intros k Hm Hu. rewrite set2_lookup.
    destruct (decide ("units" = k)); [congruence|].
    destruct (decide ("model" = k)); [congruence|].
    rewrite copyProperties_all.
    destruct (OPTRAM.scene_properties image !! k); reflexivity.
Qed.

Lemma TOTRAM_series_image_meta id sd iw sw img :
  bandName (TOTRAM.series_image id sd iw sw img) = "soil_moisture" /\
  properties (TOTRAM.series_image id sd iw sw img) !! "model"
    = Some (VString "TOTRAM") /\
  properties (TOTRAM.series_image id sd iw sw img) !! "units"
    = Some (VString "relative") /\
  forall k, k <> "model" -> k <> "units" ->
    properties (TOTRAM.series_image id sd iw sw img) !! k
    = TOTRAM.scene_properties img !! k.
Proof.
  unfold TOTRAM.series_image. split; [reflexivity|].
  split; [|split].
  - rewrite set2_lookup. reflexivity.
  - rewrite set2_lookup. reflexivity.
  - intros k Hm Hu. rewrite set2_lookup.
    destruct (decide ("units" = k)); [congruence|].
    destruct (decide ("model" = k)); [congruence|].
    rewrite copyProperties_all.
    destruct (TOTRAM.scene_properties img !! k); reflexivity.
Qed.

Lemma OPTRAM_median_calibrated AOI coll id sd iw sw imgMedian :
  OPTRAM.id_opt AOI coll = Ok id -> OPTRAM.sd_opt AOI coll = Ok sd ->
  OPTRAM.iw_opt AOI coll = Ok iw -> OPTRAM.sw_opt AOI coll = Ok sw ->
  exists out,
    OPTRAM.OPTRAM_median AOI coll imgMedian = Ok out /\
    bandName out = "soil_moisture" /\
    data out = data (OPTRAM.eq_image id sd iw sw imgMedian) /\
    properties out !! "model" = Some (VString "OPTRAM") /\
    properties out !! "model_ref" = Some (VString "Sadeghi et al. (adapted).") /\
    properties out !! "units" = Some (VString "%") /\
    properties out !! "notes" = Some (VString
      "Relative surface soil moisture estimated by OPTRAM from Sentinel-2 STR & NDVI").
Proof.
  intros H1 H2 H3 H4. unfold OPTRAM.OPTRAM_median. rewrite H1, H2, H3, H4.
  eexists. split; [reflexivity|]. repeat split; reflexivity.
Qed.

(** C2.  With the trapezoid parameters evaluated once for the collection,
    the reference composite and every image of the series carry, at every
    pixel where both input bands are valid, the value
    [(dryBare + sd*index - source) / ((dryBare - wetBare) + (sd - sw)*index)]
    with the bare-soil corners [id], [iw] as baseline, multiplied by the
    scale that the output's units field declares: 100 under units "%" for
    OPTRAM, 1 under units "relative" for TOTRAM; elsewhere the pixel is
    masked. *)
Theorem model_evaluation :
  (forall AOI coll id sd iw sw,
     OPTRAM.id_opt AOI coll = Ok id -> OPTRAM.sd_opt AOI coll = Ok sd ->
     OPTRAM.iw_opt AOI coll = Ok iw -> OPTRAM.sw_opt AOI coll = Ok sw ->
     (forall imgMedian, exists out,
         OPTRAM.OPTRAM_median AOI coll imgMedian = Ok out /\
         evaluates_model "%" id iw sd sw
           (OPTRAM.NDVI imgMedian) (OPTRAM.STR imgMedian) out) /\
     (exists outs,
         OPTRAM.optram_series AOI coll = Ok outs /\
         Forall2
           (fun image out =>
              evaluates_model "%" id iw sd sw (OPTRAM.NDVI image) (OPTRAM.STR image) out)
           coll outs)) /\
  (forall AOI parameters id sd iw sw,
     TOTRAM.id AOI parameters = Ok id -> TOTRAM.sd AOI parameters = Ok sd ->
     TOTRAM.iw AOI parameters = Ok iw -> TOTRAM.sw AOI parameters = Ok sw ->
     exists outs,
       TOTRAM.sm_series AOI parameters = Ok outs /\
       Forall2
         (fun img out =>
            evaluates_model "relative" id iw sd sw (TOTRAM.NDVI img) (TOTRAM.LST img) out)
         parameters outs).
Proof.
  split.
  - intros AOI coll id sd iw sw H1 H2 H3 H4. split.
    + intros imgMedian.
      destruct (OPTRAM_median_calibrated AOI coll id sd iw sw imgMedian H1 H2 H3 H4)
        as (out & Ho & _ & Hd & _ & _ & Hu & _).
      exists out. split; [exact Ho|]. apply OPTRAM_evaluates; assumption.
    + eexists. split; [apply optram_series_calibrated; eassumption|].
      apply Forall2_map_r. intros image _. apply OPTRAM_evaluates; [|reflexivity].
      apply OPTRAM_series_image_meta.
  - intros AOI parameters id sd iw sw H1 H2 H3 H4.
    eexists. split; [apply sm_series_calibrated; eassumption|].
    apply Forall2_map_r. intros img _. apply TOTRAM_evaluates; [|reflexivity].
    apply TOTRAM_series_image_meta.
Qed.

Lemma model_evaluation_witness :
  (exists outs,
      OPTRAM.optram_series Scenario.AOI Scenario.coll = Ok outs /\
      Forall2
        (fun image out =>
           evaluates_model "%" (20 # 10) (20 # 10)
             ((11 # 10) - (20 # 10)) ((12 # 10) - (20 # 10))
             (OPTRAM.NDVI image) (OPTRAM.STR image) out)
        Scenario.coll outs) /\
  (exists outs,
      TOTRAM.sm_series Scenario.AOI Scenario.parameters = Ok outs /\
      Forall2
        (fun img out =>
           evaluates_model "relative" 320 320 (320 - 305) (320 - 300)
             (TOTRAM.NDVI img) (TOTRAM.LST img) out)
        Scenario.parameters outs).
Proof.
  split.
  - apply (proj1 model_evaluation Scenario.AOI Scenario.coll); reflexivity.
  - apply (proj2 model_evaluation Scenario.AOI Scenario.parameters); reflexivity.
Defined.

(** C5, as the code has it.  The evaluator makes no test on the denominator:
    in both scripts an output pixel (of the expression image, hence of the
    reference composite and of every image of the series) is valid exactly
    when the NDVI band and the source band are both valid at that pixel,
    whatever the value of the denominator there. *)
Theorem evaluator_validity :
  (forall id sd iw sw (image : OPTRAM.Scene) (px : pixel),
     (is_Some (data (OPTRAM.eq_image id sd iw sw image) px) <->
      is_Some (OPTRAM.NDVI image px) /\ is_Some (OPTRAM.STR image px)) /\
     data (OPTRAM.series_image id sd iw sw image) px
       = data (OPTRAM.eq_image id sd iw sw image) px) /\
  (forall id sd iw sw (img : TOTRAM.Scene) (px : pixel),
     (is_Some (data (TOTRAM.eq_image id sd iw sw img) px) <->
      is_Some (TOTRAM.NDVI img px) /\ is_Some (TOTRAM.LST img px)) /\
     data (TOTRAM.series_image id sd iw sw img) px
       = data (TOTRAM.eq_image id sd iw sw img) px).
Proof.
  split; intros id sd iw sw image px; (split; [|reflexivity]); cbn; unfold ee.lift2.
  - destruct (OPTRAM.NDVI image px), (OPTRAM.STR image px); split;
      try (intros [[? [=]] ?]); try (intros [? [? [=]]]); try (intros [? [=]]); eauto.
  - destruct (TOTRAM.NDVI image px), (TOTRAM.LST image px); split;
      try (intros [[? [=]] ?]); try (intros [? [? [=]]]); try (intros [? [=]]); eauto.
Qed.

(** C5 fails as stated.  In the scenario extended with two probe images, the
    bare-soil corners are both 2.0 and the deltas -0.9 and -0.8.  On the
    image with NDVI 0 the denominator is exactly zero and the output pixel is
    valid; on the image with NDVI 0.00001 the denominator is -0.000001 and
    the output pixel is valid with the value -99999100. *)
Lemma evaluator_validity_counterexample :
  exists id sd iw sw outs out_zero out_near v,
    OPTRAM.id_opt Scenario.AOI Scenario.coll_probe = Ok id /\
    OPTRAM.sd_opt Scenario.AOI Scenario.coll_probe = Ok sd /\
    OPTRAM.iw_opt Scenario.AOI Scenario.coll_probe = Ok iw /\
    OPTRAM.sw_opt Scenario.AOI Scenario.coll_probe = Ok sw /\
    OPTRAM.optram_series Scenario.AOI Scenario.coll_probe = Ok outs /\
    nth_error Scenario.coll_probe 3 = Some Scenario.s_zero /\
    nth_error outs 3 = Some out_zero /\
    OPTRAM.NDVI Scenario.s_zero Scenario.px0 = Some 0 /\
    spec_denominator id iw sd sw 0 == 0 /\
    is_Some (data out_zero Scenario.px0) /\
    nth_error Scenario.coll_probe 4 = Some Scenario.s_near /\
    nth_error outs 4 = Some out_near /\
    OPTRAM.NDVI Scenario.s_near Scenario.px0 = Some (1 # 100000) /\
    spec_denominator id iw sd sw (1 # 100000) == - (1 # 1000000) /\
    data out_near Scenario.px0 = Some v /\
    v == - 99999100.
Proof.
  do 4 eexists.
  exists (List.map (OPTRAM.series_image (20 # 10) ((11 # 10) - (20 # 10)) (20 # 10)
                      ((12 # 10) - (20 # 10))) Scenario.coll_probe).
  do 3 eexists.
  split; [reflexivity|]. split; [reflexivity|].
  split; [reflexivity|]. split; [reflexivity|].
  split; [apply optram_series_calibrated; reflexivity|].
  split; [reflexivity|]. split; [reflexivity|]. split; [reflexivity|].
  split; [reflexivity|]. split; [eexists; reflexivity|].
  split; [reflexivity|]. split; [reflexivity|]. split; [reflexivity|].
  split; [reflexivity|]. split; reflexivity.
Qed.

(** ** Provenance metadata and frame *)

Lemma sm_mean_calibrated AOI parameters id sd iw sw :
  TOTRAM.id AOI parameters = Ok id -> TOTRAM.sd AOI parameters = Ok sd ->
  TOTRAM.iw AOI parameters = Ok iw -> TOTRAM.sw AOI parameters = Ok sw ->
  exists out,
    TOTRAM.sm_mean AOI parameters = Ok out /\
    bandName out = "sm_mean" /\
    properties out !! "model" = Some (VString "TOTRAM") /\
    properties out !! "model_ref" = None /\
    properties out !! "units" = Some (VString "relative") /\
    properties out !! "notes"
      = Some (VString "Thermal-optical relative soil moisture (TOTRAM)").
Proof.
  intros H1 H2 H3 H4. unfold TOTRAM.sm_mean.
  rewrite (sm_series_calibrated AOI parameters id sd iw sw H1 H2 H3 H4).
  destruct parameters as [|s parameters]; [discriminate H1|].
  eexists. split; [reflexivity|]. repeat split; reflexivity.
Qed.

(** C9, as the code has it.  With the trapezoid parameters evaluated, the
    OPTRAM reference composite carries the four fields [model],
    [model_ref], [units] and [notes].  Every image of a series carries
    [model] and [units] of its script; the script sets neither [model_ref]
    nor [notes] on it, so these are on the output exactly as they are on the
    source image.  The TOTRAM composite [sm_mean] carries [model], [units]
    and [notes], and no [model_ref]. *)
Theorem provenance_metadata :
  (forall AOI coll id sd iw sw,
     OPTRAM.id_opt AOI coll = Ok id -> OPTRAM.sd_opt AOI coll = Ok sd ->
     OPTRAM.iw_opt AOI coll = Ok iw -> OPTRAM.sw_opt AOI coll = Ok sw ->
     (forall imgMedian, exists out,
         OPTRAM.OPTRAM_median AOI coll imgMedian = Ok out /\
         properties out !! "model" = Some (VString "OPTRAM") /\
         properties out !! "model_ref" = Some (VString "Sadeghi et al. (adapted).") /\
         properties out !! "units" = Some (VString "%") /\
         properties out !! "notes" = Some (VString
           "Relative surface soil moisture estimated by OPTRAM from Sentinel-2 STR & NDVI")) /\
     (exists outs,
         OPTRAM.optram_series AOI coll = Ok outs /\
         Forall2
           (fun image out =>
              properties out !! "model" = Some (VString "OPTRAM") /\
              properties out !! "units" = Some (VString "%") /\
              properties out !! "model_ref" = OPTRAM.scene_properties image !! "model_ref" /\
              properties out !! "notes" = OPTRAM.scene_properties image !! "notes")
           coll outs)) /\
  (forall AOI parameters id sd iw sw,
     TOTRAM.id AOI parameters = Ok id -> TOTRAM.sd AOI parameters = Ok sd ->
     TOTRAM.iw AOI parameters = Ok iw -> TOTRAM.sw AOI parameters = Ok sw ->
     (exists out,
         TOTRAM.sm_mean AOI parameters = Ok out /\
         properties out !! "model" = Some (VString "TOTRAM") /\
         properties out !! "model_ref" = None /\
         properties out !! "units" = Some (VString "relative") /\
         properties out !! "notes"
           = Some (VString "Thermal-optical relative soil moisture (TOTRAM)")) /\
     (exists outs,
         TOTRAM.sm_series AOI parameters = Ok outs /\
         Forall2
           (fun img out =>
              properties out !! "model" = Some (VString "TOTRAM") /\
              properties out !! "units" = Some (VString "relative") /\
              properties out !! "model_ref" = TOTRAM.scene_properties img !! "model_ref" /\
              properties out !! "notes" = TOTRAM.scene_properties img !! "notes")
           parameters outs)).
Proof.
  split.
  - intros AOI coll id sd iw sw H1 H2 H3 H4. split.
    + intros imgMedian.
      destruct (OPTRAM_median_calibrated AOI coll id sd iw sw imgMedian H1 H2 H3 H4)
        as (out & Ho & _ & _ & Hm & Hr & Hu & Hn).
      exists out. auto.
    + eexists. split; [apply optram_series_calibrated; eassumption|].
      apply Forall2_map_r. intros image _.
      destruct (OPTRAM_series_image_meta id sd iw sw image) as (_ & Hm & Hu & Hk).
      split; [exact Hm|]. split; [exact Hu|]. split; apply Hk; discriminate.
  - intros AOI parameters id sd iw sw H1 H2 H3 H4. split.
    + destruct (sm_mean_calibrated AOI parameters id sd iw sw H1 H2 H3 H4)
        as (out & Ho & _ & Hm & Hr & Hu & Hn).
      exists out. auto.
    + eexists. split; [apply sm_series_calibrated; eassumption|].
      apply Forall2_map_r. intros img _.
      destruct (TOTRAM_series_image_meta id sd iw sw img) as (_ & Hm & Hu & Hk).
      split; [exact Hm|]. split; [exact Hu|]. split; apply Hk; discriminate.
Qed.

Lemma provenance_metadata_witness :
  (exists outs,
      OPTRAM.optram_series Scenario.AOI Scenario.coll = Ok outs /\
      Forall2
        (fun image out =>
           properties out !! "model" = Some (VString "OPTRAM") /\
           properties out !! "units" = Some (VString "%") /\
           properties out !! "model_ref" = OPTRAM.scene_properties image !! "model_ref" /\
           properties out !! "notes" = OPTRAM.scene_properties image !! "notes")
        Scenario.coll outs) /\
  (exists out,
      TOTRAM.sm_mean Scenario.AOI Scenario.parameters = Ok out /\
      properties out !! "model" = Some (VString "TOTRAM") /\
      properties out !! "model_ref" = None /\
      properties out !! "units" = Some (VString "relative") /\
      properties out !! "notes"
        = Some (VString "Thermal-optical relative soil moisture (TOTRAM)")).
Proof.
  split.
  - apply (proj1 provenance_metadata Scenario.AOI Scenario.coll
             (20 # 10) ((11 # 10) - (20 # 10)) (20 # 10) ((12 # 10) - (20 # 10)));
      reflexivity.
  - apply (proj2 provenance_metadata Scenario.AOI Scenario.parameters
             320 (320 - 305) 320 (320 - 300));
      reflexivity.
Defined.

(** C9 fails as stated: the first image of the scenario's OPTRAM series
    carries [model] and [units] but neither a reference ([model_ref]) nor a
    note ([notes]); the same holds for the TOTRAM series. *)
Lemma provenance_metadata_counterexample :
  (exists outs out,
      OPTRAM.optram_series Scenario.AOI Scenario.coll = Ok outs /\
      nth_error outs 0 = Some out /\
      properties out !! "model" = Some (VString "OPTRAM") /\
      properties out !! "units" = Some (VString "%") /\
      properties out !! "model_ref" = None /\
      properties out !! "notes" = None) /\
  (exists outs out,
      TOTRAM.sm_series Scenario.AOI Scenario.parameters = Ok outs /\
      nth_error outs 0 = Some out /\
      properties out !! "model_ref" = None /\
      properties out !! "notes" = None).
Proof.
  split.
  - exists (List.map (OPTRAM.series_image (20 # 10) ((11 # 10) - (20 # 10)) (20 # 10)
                        ((12 # 10) - (20 # 10))) Scenario.coll).
    eexists. split; [apply optram_series_calibrated; reflexivity|].
    split; [reflexivity|]. repeat split; reflexivity.
  - exists (List.map (TOTRAM.series_image 320 (320 - 305) 320 (320 - 300))
              Scenario.parameters).
    eexists. split; [apply sm_series_calibrated; reflexivity|].
    split; [reflexivity|]. repeat split; reflexivity.
Qed.

(** C10.  With the trapezoid parameters evaluated, the series has one image
    per image of the collection, in the same order.  Every image of a series
    is a single-band image named [soil_moisture].  The copy step writes every property of the source
    image on it; the two properties set afterwards, [model] and [units],
    are the only ones that can differ from the source, so the acquisition
    time [system:time_start] of the output is that of its source image.  The
    series is a new list of images; the collection itself is the argument of
    a function and is not modified. *)
Theorem series_image_frame :
  (forall AOI coll id sd iw sw,
     OPTRAM.id_opt AOI coll = Ok id -> OPTRAM.sd_opt AOI coll = Ok sd ->
     OPTRAM.iw_opt AOI coll = Ok iw -> OPTRAM.sw_opt AOI coll = Ok sw ->
     exists outs, OPTRAM.optram_series AOI coll = Ok outs /\ length outs = length coll) /\
  (forall AOI coll outs,
     OPTRAM.optram_series AOI coll = Ok outs ->
     Forall2
       (fun image out =>
          bandName out = "soil_moisture" /\
          (forall k, k <> "model" -> k <> "units" ->
                     properties out !! k = OPTRAM.scene_properties image !! k) /\
          properties out !! "system:time_start"
            = OPTRAM.scene_properties image !! "system:time_start")
       coll outs) /\
  (forall id sd iw sw (image : OPTRAM.Scene) k,
     properties
       (ee.copyProperties (OPTRAM.eq_image id sd iw sw image)
          (OPTRAM.scene_properties image)
          (ee.propertyNames (OPTRAM.scene_properties image))) !! k
     = OPTRAM.scene_properties image !! k) /\
  (forall AOI parameters id sd iw sw,
     TOTRAM.id AOI parameters = Ok id -> TOTRAM.sd AOI parameters = Ok sd ->
     TOTRAM.iw AOI parameters = Ok iw -> TOTRAM.sw AOI parameters = Ok sw ->
     exists outs,
       TOTRAM.sm_series AOI parameters = Ok outs /\ length outs = length parameters) /\
  (forall AOI parameters outs,
     TOTRAM.sm_series AOI parameters = Ok outs ->
     Forall2
       (fun img out =>
          bandName out = "soil_moisture" /\
          (forall k, k <> "model" -> k <> "units" ->
                     properties out !! k = TOTRAM.scene_properties img !! k) /\
          properties out !! "system:time_start"
            = TOTRAM.scene_properties img !! "system:time_start")
       parameters outs) /\
  (forall id sd iw sw (img : TOTRAM.Scene) k,
     properties
       (ee.copyProperties (TOTRAM.eq_image id sd iw sw img)
          (TOTRAM.scene_properties img)
          (ee.propertyNames (TOTRAM.scene_properties img))) !! k
     = TOTRAM.scene_properties img !! k).
Proof.
  split; [|split; [|split; [|split; [|split]]]].
  - intros AOI coll id sd iw sw H1 H2 H3 H4. eexists.
    split; [apply optram_series_calibrated; eassumption | apply length_map].
  - intros AOI coll outs Ho.
    apply optram_series_inv in Ho as (id & sd & iw & sw & ->).
    apply Forall2_map_r. intros image _.
    destruct (OPTRAM_series_image_meta id sd iw sw image) as (Hn & _ & _ & Hk).
    split; [exact Hn|]. split; [exact Hk|]. apply Hk; discriminate.
  - intros id sd iw sw image k. rewrite copyProperties_all.
    destruct (OPTRAM.scene_properties image !! k); reflexivity.
  - intros AOI parameters id sd iw sw H1 H2 H3 H4. eexists.
    split; [apply sm_series_calibrated; eassumption | apply length_map].
  - intros AOI parameters outs Ho.
    apply sm_series_inv in Ho as (id & sd & iw & sw & ->).
    apply Forall2_map_r. intros img _.
    destruct (TOTRAM_series_image_meta id sd iw sw img) as (Hn & _ & _ & Hk).
    split; [exact Hn|]. split; [exact Hk|]. apply Hk; discriminate.
  - intros id sd iw sw img k. rewrite copyProperties_all.
    destruct (TOTRAM.scene_properties img !! k); reflexivity.
Qed.

Lemma series_image_frame_witness :
  Forall2
    (fun image out =>
       bandName out = "soil_moisture" /\
       (forall k, k <> "model" -> k <> "units" ->
                  properties out !! k = OPTRAM.scene_properties image !! k) /\
       properties out !! "system:time_start"
         = OPTRAM.scene_properties image !! "system:time_start")
    Scenario.coll
    (List.map (OPTRAM.series_image (20 # 10) ((11 # 10) - (20 # 10)) (20 # 10)
                 ((12 # 10) - (20 # 10))) Scenario.coll).
Proof.
  apply (proj1 (proj2 series_image_frame) Scenario.AOI Scenario.coll). reflexivity.
Defined.


(** * Further properties of the scripts *)

(** ** Corner pairs *)

Section CornerPair.
Variables (AOI : geometry) (masked : list Image).

Let hi := corner ee.Reducer_max AOI masked.
Let lo := corner ee.Reducer_min AOI masked.

Lemma corner_max_of_min v :
  lo = Ok v -> exists w, hi = Ok w /\ v <= w.
Proof.
  intros E.
  pose proof (corner_extreme _ _ Qge_extreme_order Reducer_min_extreme AOI masked) as Hlo.
  pose proof (corner_extreme _ _ Qle_extreme_order Reducer_max_extreme AOI masked) as Hhi.
  fold lo in Hlo. fold hi in Hhi. rewrite E in Hlo. simpl in Hlo.
  destruct Hlo as [(x & Hx & Ex) _].
  destruct hi as [w|e]; simpl in Hhi.
  - exists w. split; [reflexivity|]. rewrite <- Ex. apply Hhi, Hx.
  - rewrite Hhi in Hx. destruct Hx.
Qed.

Lemma corner_min_of_max w :
  hi = Ok w -> exists v, lo = Ok v /\ v <= w.
Proof.
  intros E.
  pose proof (corner_extreme _ _ Qge_extreme_order Reducer_min_extreme AOI masked) as Hlo.
  pose proof (corner_extreme _ _ Qle_extreme_order Reducer_max_extreme AOI masked) as Hhi.
  fold lo in Hlo. fold hi in Hhi. rewrite E in Hhi. simpl in Hhi.
  destruct Hhi as [(x & Hx & Ex) _].
  destruct lo as [v|e]; simpl in Hlo.
  - exists v. split; [reflexivity|]. rewrite <- Ex. apply Hlo, Hx.
  - rewrite Hlo in Hx. destruct Hx.
Qed.
End CornerPair.

(** X1.  The two corners taken under one mask stand or fall together, and
    when they have a value the minimum is at most the maximum: in OPTRAM the
    dry corner is at most the wet one ([vd_opt <= vw_opt],
    [id_opt <= iw_opt]), in TOTRAM the wet corner is at most the dry one
    ([vw <= vd], [iw <= id]). *)
Theorem corner_pairs_ordered :
  (forall AOI coll,
     (forall vw, OPTRAM.vw_opt AOI coll = Ok vw ->
                 exists vd, OPTRAM.vd_opt AOI coll = Ok vd /\ vd <= vw) /\
     (forall vd, OPTRAM.vd_opt AOI coll = Ok vd ->
                 exists vw, OPTRAM.vw_opt AOI coll = Ok vw /\ vd <= vw) /\
     (forall iw, OPTRAM.iw_opt AOI coll = Ok iw ->
                 exists id, OPTRAM.id_opt AOI coll = Ok id /\ id <= iw) /\
     (forall id, OPTRAM.id_opt AOI coll = Ok id ->
                 exists iw, OPTRAM.iw_opt AOI coll = Ok iw /\ id <= iw)) /\
  (forall AOI parameters,
     (forall vw, TOTRAM.vw AOI parameters = Ok vw ->
                 exists vd, TOTRAM.vd AOI parameters = Ok vd /\ vw <= vd) /\
     (forall vd, TOTRAM.vd AOI parameters = Ok vd ->
                 exists vw, TOTRAM.vw AOI parameters = Ok vw /\ vw <= vd) /\
     (forall iw, TOTRAM.iw AOI parameters = Ok iw ->
                 exists id, TOTRAM.id AOI parameters = Ok id /\ iw <= id) /\
     (forall id, TOTRAM.id AOI parameters = Ok id ->
                 exists iw, TOTRAM.iw AOI parameters = Ok iw /\ iw <= id)).
Proof.
  split; intros AOI c.
  - split; [|split; [|split]].
    + exact (corner_min_of_max AOI (OPTRAM.STR_full_cover c)).
    + exact (corner_max_of_min AOI (OPTRAM.STR_full_cover c)).
    + exact (corner_min_of_max AOI (OPTRAM.STR_bare_soil c)).
    + exact (corner_max_of_min AOI (OPTRAM.STR_bare_soil c)).
  - split; [|split; [|split]].
    + exact (corner_max_of_min AOI (TOTRAM.lst_full_cover c)).
    + exact (corner_min_of_max AOI (TOTRAM.lst_full_cover c)).
    + exact (corner_max_of_min AOI (TOTRAM.lst_bareland c)).
    + exact (corner_min_of_max AOI (TOTRAM.lst_bareland c)).
Qed.

Lemma corner_pairs_ordered_witness :
  (exists vd, OPTRAM.vd_opt Scenario.AOI Scenario.coll = Ok vd /\ vd <= 12 # 10) /\
  (exists id, TOTRAM.id Scenario.AOI Scenario.parameters = Ok id /\ 320 <= id).
Proof.
  split.
  - apply (proj1 (proj1 corner_pairs_ordered Scenario.AOI Scenario.coll)). reflexivity.
  - apply (proj1 (proj2 (proj2 (proj2 corner_pairs_ordered
                                         Scenario.AOI Scenario.parameters)))).
    reflexivity.
Defined.

(** ** Growing the collection or the AOI *)

Lemma pooled_values_incl masked masked' AOI AOI' :
  incl masked masked' -> incl AOI AOI' ->
  incl (pooled_values masked AOI) (pooled_values masked' AOI').
Proof.
  intros Hm Ha x Hx. apply in_pooled_values in Hx as (im & px & Him & Hpx & E).
  apply in_pooled_values. exists im, px. auto.
Qed.

Section CornerGrowth.
Variable R : Q -> Q -> Prop.
Variable reducer : list Q -> option Q.
Hypothesis R_order : extreme_order R.
Hypothesis reducer_extreme : forall l, global_extreme R l (reducer l).

Lemma corner_incl AOI AOI' masked masked' a :
  incl masked masked' -> incl AOI AOI' ->
  corner reducer AOI masked = Ok a ->
  exists b, corner reducer AOI' masked' = Ok b /\ R a b.
Proof.
  intros Hm Ha E.
  pose proof (corner_extreme R reducer R_order reducer_extreme AOI masked) as H.
  pose proof (corner_extreme R reducer R_order reducer_extreme AOI' masked') as H'.
  rewrite E in H. simpl in H. destruct H as [(x & Hx & Ex) _].
  apply (pooled_values_incl masked masked' AOI AOI' Hm Ha) in Hx.
  destruct (corner reducer AOI' masked') as [b|e]; simpl in H'.
  - exists b. split; [reflexivity|].
    apply (eo_compat R R_order x a b b Ex (Qeq_refl b)). apply H', Hx.
  - rewrite H' in Hx. destruct Hx.
Qed.
End CornerGrowth.

(** X2.  Adding images to the collection, or pixels to the AOI, keeps every
    corner that had a value and can only push it outwards: a maximum corner
    does not decrease and a minimum corner does not increase. *)
Theorem corners_grow_outwards :
  (forall AOI AOI' coll coll',
     incl coll coll' -> incl AOI AOI' ->
     (forall a, OPTRAM.vw_opt AOI coll = Ok a ->
                exists b, OPTRAM.vw_opt AOI' coll' = Ok b /\ a <= b) /\
     (forall a, OPTRAM.vd_opt AOI coll = Ok a ->
                exists b, OPTRAM.vd_opt AOI' coll' = Ok b /\ b <= a) /\
     (forall a, OPTRAM.iw_opt AOI coll = Ok a ->
                exists b, OPTRAM.iw_opt AOI' coll' = Ok b /\ a <= b) /\
     (forall a, OPTRAM.id_opt AOI coll = Ok a ->
                exists b, OPTRAM.id_opt AOI' coll' = Ok b /\ b <= a)) /\
  (forall AOI AOI' parameters parameters',
     incl parameters parameters' -> incl AOI AOI' ->
     (forall a, TOTRAM.vw AOI parameters = Ok a ->
                exists b, TOTRAM.vw AOI' parameters' = Ok b /\ b <= a) /\
     (forall a, TOTRAM.vd AOI parameters = Ok a ->
                exists b, TOTRAM.vd AOI' parameters' = Ok b /\ a <= b) /\
     (forall a, TOTRAM.iw AOI parameters = Ok a ->
                exists b, TOTRAM.iw AOI' parameters' = Ok b /\ b <= a) /\
     (forall a, TOTRAM.id AOI parameters = Ok a ->
                exists b, TOTRAM.id AOI' parameters' = Ok b /\ a <= b)).
Proof.
  pose proof (corner_incl Qle ee.Reducer_max Qle_extreme_order Reducer_max_extreme) as Hmax.
  pose proof (corner_incl (fun y v => v <= y) ee.Reducer_min
                Qge_extreme_order Reducer_min_extreme) as Hmin.
  split; intros AOI AOI' c c' Hc Ha; (split; [|split; [|split]]); intros a E.
  - exact (Hmax AOI AOI' _ _ a (incl_map _ Hc) Ha E).
  - exact (Hmin AOI AOI' _ _ a (incl_map _ Hc) Ha E).
  - exact (Hmax AOI AOI' _ _ a (incl_map _ Hc) Ha E).
  - exact (Hmin AOI AOI' _ _ a (incl_map _ Hc) Ha E).
  - exact (Hmin AOI AOI' _ _ a (incl_map _ Hc) Ha E).
  - exact (Hmax AOI AOI' _ _ a (incl_map _ Hc) Ha E).
  - exact (Hmin AOI AOI' _ _ a (incl_map _ Hc) Ha E).
  - exact (Hmax AOI AOI' _ _ a (incl_map _ Hc) Ha E).
Qed.

Lemma corners_grow_outwards_witness :
  exists b, OPTRAM.vw_opt Scenario.AOI Scenario.coll_probe = Ok b /\ 12 # 10 <= b.
Proof.
  assert (Hc : incl Scenario.coll Scenario.coll_probe).
  { intros x [<- | [<- | [<- | []]]]; simpl; auto. }
  apply (proj1 (proj1 corners_grow_outwards Scenario.AOI Scenario.AOI
                  Scenario.coll Scenario.coll_probe Hc (incl_refl _))).
  reflexivity.
Defined.

(** ** Range of the model between the edges of the trapezoid *)

Lemma edge_ratio_range (lo hi s : Q) :
  lo < hi -> lo <= s -> s <= hi ->
  0 <= (s - lo) / (hi - lo) /\ (s - lo) / (hi - lo) <= 1.
Proof.
  intros Hlt H1 H2. split.
  - apply Qle_shift_div_l; lra.
  - apply Qle_shift_div_r; lra.
Qed.

Lemma edge_ratio_mono (lo hi s s' : Q) :
  lo < hi -> s <= s' -> (s - lo) / (hi - lo) <= (s' - lo) / (hi - lo).
Proof.
  intros Hlt Hs. unfold Qdiv. apply Qmult_le_compat_r; [lra|].
  apply Qlt_le_weak, Qinv_lt_0_compat. lra.
Qed.

Lemma OPTRAM_expr_edges id sd iw sw n s :
  id + sd * n < iw + sw * n ->
  OPTRAM.expr id sd iw sw n s
  == (s - (id + sd * n)) / ((iw + sw * n) - (id + sd * n)) * 100.
Proof. intros H. unfold OPTRAM.expr. field. lra. Qed.

Lemma TOTRAM_expr_edges id sd iw sw n s :
  iw + sw * n < id + sd * n ->
  TOTRAM.expr id sd iw sw n s
  == 1 - (s - (iw + sw * n)) / ((id + sd * n) - (iw + sw * n)).
Proof. intros H. unfold TOTRAM.expr. field. lra. Qed.

Lemma OPTRAM_calibration_inv AOI coll id sd iw sw :
  OPTRAM.id_opt AOI coll = Ok id -> OPTRAM.sd_opt AOI coll = Ok sd ->
  OPTRAM.iw_opt AOI coll = Ok iw -> OPTRAM.sw_opt AOI coll = Ok sw ->
  exists vd vw,
    OPTRAM.vd_opt AOI coll = Ok vd /\ OPTRAM.vw_opt AOI coll = Ok vw /\
    sd = vd - id /\ sw = vw - iw /\ vd <= vw /\ id <= iw.
Proof.
  intros Hid Hsd Hiw Hsw. unfold OPTRAM.sd_opt, OPTRAM.sw_opt in *.
  destruct (OPTRAM.vd_opt AOI coll) as [vd|] eqn:Evd; [|discriminate].
  destruct (OPTRAM.vw_opt AOI coll) as [vw|] eqn:Evw; [|discriminate].
  rewrite Hid in Hsd. rewrite Hiw in Hsw. injection Hsd as <-. injection Hsw as <-.
  exists vd, vw. repeat split; try reflexivity.
  - destruct (corner_max_of_min AOI (OPTRAM.STR_full_cover coll) vd Evd) as (w & Ew & H).
    change (OPTRAM.vw_opt AOI coll = Ok w) in Ew. congruence.
  - destruct (corner_max_of_min AOI (OPTRAM.STR_bare_soil coll) id Hid) as (w & Ew & H).
    change (OPTRAM.iw_opt AOI coll = Ok w) in Ew. congruence.
Qed.

Lemma TOTRAM_calibration_inv AOI parameters id sd iw sw :
  TOTRAM.id AOI parameters = Ok id -> TOTRAM.sd AOI parameters = Ok sd ->
  TOTRAM.iw AOI parameters = Ok iw -> TOTRAM.sw AOI parameters = Ok sw ->
  exists vd vw,
    TOTRAM.vd AOI parameters = Ok vd /\ TOTRAM.vw AOI parameters = Ok vw /\
    sd = id - vd /\ sw = iw - vw /\ vw <= vd /\ iw <= id.
Proof.
  intros Hid Hsd Hiw Hsw. unfold TOTRAM.sd, TOTRAM.sw in *.
  rewrite Hid in Hsd. rewrite Hiw in Hsw.
  destruct (TOTRAM.vd AOI parameters) as [vd|] eqn:Evd; [|discriminate].
  destruct (TOTRAM.vw AOI parameters) as [vw|] eqn:Evw; [|discriminate].
  injection Hsd as <-. injection Hsw as <-.
  exists vd, vw. repeat split; try reflexivity.
  - destruct (corner_max_of_min AOI (TOTRAM.lst_full_cover parameters) vw Evw)
      as (w & Ew & H).
    change (TOTRAM.vd AOI parameters = Ok w) in Ew. congruence.
  - destruct (corner_max_of_min AOI (TOTRAM.lst_bareland parameters) iw Hiw)
      as (w & Ew & H).
    change (TOTRAM.id AOI parameters = Ok w) in Ew. congruence.
Qed.

(** X3.  OPTRAM.  At a pixel with NDVI [n], call [id + sd*n] the dry edge and
    [iw + sw*n] the wet edge.  Whenever the dry edge is below the wet edge,
    the output is 0 on the dry edge, 100 on the wet edge, between 0 and 100
    for a STR between the edges, and it does not decrease when STR increases.
    With the parameters the script derives from a collection, the dry
    bare-soil corner is at most the wet one, so at NDVI 0 the edges are the
    two bare-soil corners and the condition is [id < iw].  Nothing is stated
    where the two edges coincide: there the denominator of the model is zero
    in exact arithmetic and its sign in the script's floating point is not
    determined. *)
Theorem optram_range_between_edges :
  (forall id sd iw sw n,
     id + sd * n < iw + sw * n ->
     OPTRAM.expr id sd iw sw n (id + sd * n) == 0 /\
     OPTRAM.expr id sd iw sw n (iw + sw * n) == 100 /\
     (forall s s', s <= s' ->
        OPTRAM.expr id sd iw sw n s <= OPTRAM.expr id sd iw sw n s') /\
     (forall (image : OPTRAM.Scene) px s,
        OPTRAM.NDVI image px = Some n -> OPTRAM.STR image px = Some s ->
        id + sd * n <= s -> s <= iw + sw * n ->
        exists v, data (OPTRAM.series_image id sd iw sw image) px = Some v /\
                  0 <= v /\ v <= 100)) /\
  (forall AOI coll id sd iw sw,
     OPTRAM.id_opt AOI coll = Ok id -> OPTRAM.sd_opt AOI coll = Ok sd ->
     OPTRAM.iw_opt AOI coll = Ok iw -> OPTRAM.sw_opt AOI coll = Ok sw ->
     id <= iw /\
     (id < iw ->
      forall (image : OPTRAM.Scene) px n s,
        OPTRAM.NDVI image px = Some n -> n == 0 -> OPTRAM.STR image px = Some s ->
        id <= s -> s <= iw ->
        exists v, data (OPTRAM.series_image id sd iw sw image) px = Some v /\
                  0 <= v /\ v <= 100)).
Proof.
  assert (Hgen : forall id sd iw sw n (image : OPTRAM.Scene) px s,
     id + sd * n < iw + sw * n ->
     OPTRAM.NDVI image px = Some n -> OPTRAM.STR image px = Some s ->
     id + sd * n <= s -> s <= iw + sw * n ->
     exists v, data (OPTRAM.series_image id sd iw sw image) px = Some v /\
               0 <= v /\ v <= 100).
  { intros id sd iw sw n image px s Hlt En Es H1 H2. eexists. split.
    - cbn. unfold ee.lift2. rewrite En, Es. reflexivity.
    - rewrite OPTRAM_expr_edges by exact Hlt.
      destruct (edge_ratio_range _ _ s Hlt H1 H2) as [Ha Hb]. split; lra. }
  split.
  - intros id sd iw sw n Hlt. split; [|split; [|split]].
    + rewrite OPTRAM_expr_edges by exact Hlt. field. lra.
    + rewrite OPTRAM_expr_edges by exact Hlt. field. lra.
    + intros s s' Hs. rewrite !OPTRAM_expr_edges by exact Hlt.
      apply Qmult_le_compat_r; [|lra]. apply edge_ratio_mono; assumption.
    + intros image px s. apply Hgen. exact Hlt.
  - intros AOI coll id sd iw sw Hid Hsd Hiw Hsw.
    destruct (OPTRAM_calibration_inv AOI coll id sd iw sw Hid Hsd Hiw Hsw)
      as (vd & vw & _ & _ & -> & -> & _ & Hi).
    split; [exact Hi|]. intros Hlt image px n s En Hn Es H1 H2.
    assert (Ed : id + (vd - id) * n == id) by (rewrite Hn; ring).
    assert (Ew : iw + (vw - iw) * n == iw) by (rewrite Hn; ring).
    apply (Hgen id (vd - id) iw (vw - iw) n image px s); try assumption.
    + rewrite Ed, Ew. exact Hlt.
    + rewrite Ed. exact H1.
    + rewrite Ew. exact H2.
Qed.

Lemma optram_range_between_edges_witness :
  exists id sd iw sw v,
    OPTRAM.id_opt Scenario.AOI
      [Scenario.s1; Scenario.s2; Scenario.s3;
       OPTRAM.mkScene (Scenario.const (15 # 100)) (Scenario.const (25 # 10))
         (Scenario.at_time 4)] = Ok id /\
    OPTRAM.iw_opt Scenario.AOI
      [Scenario.s1; Scenario.s2; Scenario.s3;
       OPTRAM.mkScene (Scenario.const (15 # 100)) (Scenario.const (25 # 10))
         (Scenario.at_time 4)] = Ok iw /\
    id < iw /\
    data (OPTRAM.series_image id sd iw sw
            (OPTRAM.mkScene (Scenario.const 0) (Scenario.const (22 # 10)) ∅))
      Scenario.px0 = Some v /\
    0 <= v /\ v <= 100.
Proof.
  set (coll := [Scenario.s1; Scenario.s2; Scenario.s3;
                OPTRAM.mkScene (Scenario.const (15 # 100)) (Scenario.const (25 # 10))
                  (Scenario.at_time 4)]).
  set (image := OPTRAM.mkScene (Scenario.const 0) (Scenario.const (22 # 10)) ∅).
  assert (Hc : exists id sd iw sw,
             OPTRAM.id_opt Scenario.AOI coll = Ok id /\
             OPTRAM.sd_opt Scenario.AOI coll = Ok sd /\
             OPTRAM.iw_opt Scenario.AOI coll = Ok iw /\
             OPTRAM.sw_opt Scenario.AOI coll = Ok sw /\
             id < iw /\ id <= 22 # 10 /\ 22 # 10 <= iw).
  { do 4 eexists. split; [vm_compute; reflexivity|]. split; [vm_compute; reflexivity|].
    split; [vm_compute; reflexivity|]. split; [vm_compute; reflexivity|].
    split; [reflexivity|]. split; discriminate. }
  destruct Hc as (id & sd & iw & sw & Hid & Hsd & Hiw & Hsw & Hlt & H1 & H2).
  assert (Hn : 0 == 0) by reflexivity.
  destruct (proj2 (proj2 optram_range_between_edges Scenario.AOI coll
                     id sd iw sw Hid Hsd Hiw Hsw) Hlt image Scenario.px0 0 (22 # 10)
              eq_refl Hn eq_refl H1 H2) as (v & Ev & Hv).
  exists id, sd, iw, sw, v. tauto.
Defined.

(** X4.  TOTRAM.  At a pixel with NDVI [n], call [iw + sw*n] the wet edge and
    [id + sd*n] the dry edge.  Whenever the wet edge is below the dry edge,
    the output is 1 on the wet edge, 0 on the dry edge, between 0 and 1 for a
    LST between the edges, and it does not increase when LST increases.  With
    the parameters the script derives from a collection, the wet bare-soil
    corner is at most the dry one, so at NDVI 0 the edges are the two
    bare-soil corners and the condition is [iw < id]. *)
Theorem totram_range_between_edges :
  (forall id sd iw sw n,
     iw + sw * n < id + sd * n ->
     TOTRAM.expr id sd iw sw n (iw + sw * n) == 1 /\
     TOTRAM.expr id sd iw sw n (id + sd * n) == 0 /\
     (forall s s', s <= s' ->
        TOTRAM.expr id sd iw sw n s' <= TOTRAM.expr id sd iw sw n s) /\
     (forall (img : TOTRAM.Scene) px s,
        TOTRAM.NDVI img px = Some n -> TOTRAM.LST img px = Some s ->
        iw + sw * n <= s -> s <= id + sd * n ->
        exists v, data (TOTRAM.series_image id sd iw sw img) px = Some v /\
                  0 <= v /\ v <= 1)) /\
  (forall AOI parameters id sd iw sw,
     TOTRAM.id AOI parameters = Ok id -> TOTRAM.sd AOI parameters = Ok sd ->
     TOTRAM.iw AOI parameters = Ok iw -> TOTRAM.sw AOI parameters = Ok sw ->
     iw <= id /\
     (iw < id ->
      forall (img : TOTRAM.Scene) px n s,
        TOTRAM.NDVI img px = Some n -> n == 0 -> TOTRAM.LST img px = Some s ->
        iw <= s -> s <= id ->
        exists v, data (TOTRAM.series_image id sd iw sw img) px = Some v /\
                  0 <= v /\ v <= 1)).
Proof.
  assert (Hgen : forall id sd iw sw n (img : TOTRAM.Scene) px s,
     iw + sw * n < id + sd * n ->
     TOTRAM.NDVI img px = Some n -> TOTRAM.LST img px = Some s ->
     iw + sw * n <= s -> s <= id + sd * n ->
     exists v, data (TOTRAM.series_image id sd iw sw img) px = Some v /\
               0 <= v /\ v <= 1).
  { intros id sd iw sw n img px s Hlt En Es H1 H2. eexists. split.
    - cbn. unfold ee.lift2. rewrite En, Es. reflexivity.
    - rewrite TOTRAM_expr_edges by exact Hlt.
      destruct (edge_ratio_range _ _ s Hlt H1 H2) as [Ha Hb]. split; lra. }
  split.
  - intros id sd iw sw n Hlt. split; [|split; [|split]].
    + rewrite TOTRAM_expr_edges by exact Hlt. field. lra.
    + rewrite TOTRAM_expr_edges by exact Hlt. field. lra.
    + intros s s' Hs. rewrite !TOTRAM_expr_edges by exact Hlt.
      pose proof (edge_ratio_mono _ _ s s' Hlt Hs). lra.
    + intros img px s. apply Hgen. exact Hlt.
  - intros AOI parameters id sd iw sw Hid Hsd Hiw Hsw.
    destruct (TOTRAM_calibration_inv AOI parameters id sd iw sw Hid Hsd Hiw Hsw)
      as (vd & vw & _ & _ & -> & -> & _ & Hi).
    split; [exact Hi|]. intros Hlt img px n s En Hn Es H1 H2.
    assert (Ew : iw + (iw - vw) * n == iw) by (rewrite Hn; ring).
    assert (Ed : id + (id - vd) * n == id) by (rewrite Hn; ring).
    apply (Hgen id (id - vd) iw (iw - vw) n img px s); try assumption.
    + rewrite Ew, Ed. exact Hlt.
    + rewrite Ew. exact H1.
    + rewrite Ed. exact H2.
Qed.

Lemma totram_range_between_edges_witness :
  exists id sd iw sw img v,
    TOTRAM.id Probe.AOI Probe.parameters = Ok id /\
    TOTRAM.sd Probe.AOI Probe.parameters = Ok sd /\
    TOTRAM.iw Probe.AOI Probe.parameters = Ok iw /\
    TOTRAM.sw Probe.AOI Probe.parameters = Ok sw /\
    iw < id /\
    nth_error Probe.parameters 3 = Some img /\
    data (TOTRAM.series_image id sd iw sw img) Probe.inside = Some v /\
    0 <= v /\ v <= 1.
Proof.
  assert (Hc : exists id sd iw sw,
             TOTRAM.id Probe.AOI Probe.parameters = Ok id /\
             TOTRAM.sd Probe.AOI Probe.parameters = Ok sd /\
             TOTRAM.iw Probe.AOI Probe.parameters = Ok iw /\
             TOTRAM.sw Probe.AOI Probe.parameters = Ok sw /\
             iw < id /\
             exists img n s,
               nth_error Probe.parameters 3 = Some img /\
               TOTRAM.NDVI img Probe.inside = Some n /\ n == 0 /\
               TOTRAM.LST img Probe.inside = Some s /\ iw <= s /\ s <= id).
  { do 4 eexists. split; [vm_compute; reflexivity|]. split; [vm_compute; reflexivity|].
    split; [vm_compute; reflexivity|]. split; [vm_compute; reflexivity|].
    split; [reflexivity|]. do 3 eexists. split; [reflexivity|].
    split; [vm_compute; reflexivity|]. split; [reflexivity|].
    split; [vm_compute; reflexivity|]. split; discriminate. }
  destruct Hc as (id & sd & iw & sw & Hid & Hsd & Hiw & Hsw & Hlt
                  & img & n & s & Himg & En & Hn & Es & H1 & H2).
  destruct (proj2 (proj2 totram_range_between_edges Probe.AOI Probe.parameters
                     id sd iw sw Hid Hsd Hiw Hsw) Hlt img Probe.inside n s
              En Hn Es H1 H2) as (v & Ev & Hv).
  exists id, sd, iw, sw, img, v. tauto.
Defined.

(** ** Means *)

Lemma inject_length_cons {A : Type} (a : A) (l : list A) :
  inject_Z (Z.of_nat (length (a :: l))) == inject_Z (Z.of_nat (length l)) + 1.
Proof.
  cbn [length]. rewrite Nat2Z.inj_succ, <- Z.add_1_r, inject_Z_plus. reflexivity.
Qed.

Lemma Qsum_lower (lo : Q) (l : list Q) :
  (forall y, In y l -> lo <= y) ->
  inject_Z (Z.of_nat (length l)) * lo <= ee.Qsum l.
Proof.
  induction l as [|a l IH]; intros H.
  - change (0 * lo <= 0). lra.
  - rewrite inject_length_cons. cbn [ee.Qsum fold_right].
    assert (Ha : lo <= a) by (apply H; left; reflexivity).
    assert (Hl : inject_Z (Z.of_nat (length l)) * lo <= ee.Qsum l)
      by (apply IH; intros y Hy; apply H; right; exact Hy).
    unfold ee.Qsum in Hl. lra.
Qed.

Lemma Qsum_upper (hi : Q) (l : list Q) :
  (forall y, In y l -> y <= hi) ->
  ee.Qsum l <= inject_Z (Z.of_nat (length l)) * hi.
Proof.
  induction l as [|a l IH]; intros H.
  - change (0 <= 0 * hi). lra.
  - rewrite inject_length_cons. cbn [ee.Qsum fold_right].
    assert (Ha : a <= hi) by (apply H; left; reflexivity).
    assert (Hl : ee.Qsum l <= inject_Z (Z.of_nat (length l)) * hi)
      by (apply IH; intros y Hy; apply H; right; exact Hy).
    unfold ee.Qsum in Hl. lra.
Qed.

Lemma Reducer_mean_None (l : list Q) : ee.Reducer_mean l = None <-> l = [].
Proof. destruct l; simpl; split; congruence. Qed.

(** A mean lies between two of its inputs. *)
Lemma Reducer_mean_between (l : list Q) (m : Q) :
  ee.Reducer_mean l = Some m ->
  exists x y, In x l /\ In y l /\ x <= m /\ m <= y.
Proof.
  intros E.
  assert (Hne : l <> []) by (intros ->; discriminate).
  pose proof (Reducer_min_extreme l) as Hmin.
  pose proof (Reducer_max_extreme l) as Hmax.
  unfold global_min, global_max in *.
  destruct (ee.Reducer_min l) as [lo|]; simpl in Hmin; [|congruence].
  destruct (ee.Reducer_max l) as [hi|]; simpl in Hmax; [|congruence].
  destruct Hmin as [(x & Hx & Ex) Hlo], Hmax as [(y & Hy & Ey) Hhi].
  exists x, y. split; [exact Hx|]. split; [exact Hy|].
  assert (Hn : 0 < inject_Z (Z.of_nat (length l))).
  { destruct l as [|a l]; [congruence|]. rewrite inject_length_cons.
    assert (0 <= inject_Z (Z.of_nat (length l))).
    { change 0 with (inject_Z 0). rewrite <- Zle_Qle. apply Nat2Z.is_nonneg. }
    lra. }
  assert (Em : m = ee.Qsum l / inject_Z (Z.of_nat (length l))).
  { destruct l; [congruence|]. simpl in E. injection E as <-. reflexivity. }
  subst m. rewrite Ex, Ey. split.
  - apply Qle_shift_div_l; [exact Hn|]. rewrite Qmult_comm. apply Qsum_lower, Hlo.
  - apply Qle_shift_div_r; [exact Hn|]. rewrite Qmult_comm. apply Qsum_upper, Hhi.
Qed.

(** ** Regional charts *)

Lemma chart_points_of_map {S : Type} (f : S -> Image) (time : S -> option value)
    (l : list S) (region : geometry) (key : string) :
  (forall s, properties (f s) !! key = time s) ->
  Forall2
    (fun s pt =>
       chart_point (time s) (data (f s)) region pt /\
       (forall m, snd pt = Some m -> between_pixels (data (f s)) region m))
    l (ee.Chart_image_series (List.map f l) region ee.Reducer_mean key).
Proof.
  intros Hk. unfold ee.Chart_image_series. rewrite List.map_map.
  apply Forall2_map_r. intros s _. unfold chart_point. cbn [fst snd]. split; [split|].
  - apply Hk.
  - rewrite Reducer_mean_None. unfold ee.valid_pixels. rewrite valid_values_nil.
    reflexivity.
  - intros m Hm. apply Reducer_mean_between in Hm as (x & y & Hx & Hy & H1 & H2).
    apply in_valid_values in Hx as (px1 & Hp1 & E1).
    apply in_valid_values in Hy as (px2 & Hp2 & E2).
    exists px1, px2, x, y. auto 10.
Qed.

Lemma OPTRAM_region_chart_calibrated AOI coll region id sd iw sw :
  OPTRAM.id_opt AOI coll = Ok id -> OPTRAM.sd_opt AOI coll = Ok sd ->
  OPTRAM.iw_opt AOI coll = Ok iw -> OPTRAM.sw_opt AOI coll = Ok sw ->
  OPTRAM.region_chart AOI coll region =
  Ok (ee.Chart_image_series (List.map (OPTRAM.series_image id sd iw sw) coll)
        region ee.Reducer_mean "system:time_start").
Proof.
  intros H1 H2 H3 H4. rewrite OPTRAM_region_chart_eq, H1, H2, H3, H4.
  destruct coll; reflexivity.
Qed.

Lemma TOTRAM_region_chart_calibrated AOI parameters region id sd iw sw :
  TOTRAM.id AOI parameters = Ok id -> TOTRAM.sd AOI parameters = Ok sd ->
  TOTRAM.iw AOI parameters = Ok iw -> TOTRAM.sw AOI parameters = Ok sw ->
  TOTRAM.region_chart AOI parameters region =
  Ok (ee.Chart_image_series (List.map (TOTRAM.series_image id sd iw sw) parameters)
        region ee.Reducer_mean "system:time_start").
Proof.
  intros H1 H2 H3 H4. rewrite TOTRAM_region_chart_eq, H1, H2, H3, H4.
  destruct parameters; reflexivity.
Qed.

Lemma OPTRAM_series_image_time id sd iw sw image :
  properties (OPTRAM.series_image id sd iw sw image) !! "system:time_start"
  = OPTRAM.scene_properties image !! "system:time_start".
Proof. apply OPTRAM_series_image_meta; discriminate. Qed.

Lemma TOTRAM_series_image_time id sd iw sw img :
  properties (TOTRAM.series_image id sd iw sw img) !! "system:time_start"
  = TOTRAM.scene_properties img !! "system:time_start".
Proof. apply TOTRAM_series_image_meta; discriminate. Qed.

Lemma Forall2_impl_l {A B : Type} (P Q : A -> B -> Prop) (l : list A) (l' : list B) :
  (forall a b, P a b -> Q a b) -> Forall2 P l l' -> Forall2 Q l l'.
Proof. intros H. induction 1; constructor; auto. Qed.

(** X5.  With the trapezoid parameters evaluated, the chart of a region has
    one point per image of the collection, in the order of the collection.
    The point of an image is keyed by the [system:time_start] of that image,
    and it has no value exactly when no pixel of the region is valid in both
    bands the model reads; such an image is not given the value 0. *)
Theorem chart_points_follow_collection :
  (forall AOI coll region id sd iw sw,
     OPTRAM.id_opt AOI coll = Ok id -> OPTRAM.sd_opt AOI coll = Ok sd ->
     OPTRAM.iw_opt AOI coll = Ok iw -> OPTRAM.sw_opt AOI coll = Ok sw ->
     exists points,
       OPTRAM.region_chart AOI coll region = Ok points /\
       Forall2
         (fun image pt =>
            fst pt = OPTRAM.scene_properties image !! "system:time_start" /\
            (snd pt = None <->
             forall px, In px region ->
               OPTRAM.NDVI image px = None \/ OPTRAM.STR image px = None))
         coll points) /\
  (forall AOI parameters region id sd iw sw,
     TOTRAM.id AOI parameters = Ok id -> TOTRAM.sd AOI parameters = Ok sd ->
     TOTRAM.iw AOI parameters = Ok iw -> TOTRAM.sw AOI parameters = Ok sw ->
     exists points,
       TOTRAM.region_chart AOI parameters region = Ok points /\
       Forall2
         (fun img pt =>
            fst pt = TOTRAM.scene_properties img !! "system:time_start" /\
            (snd pt = None <->
             forall px, In px region ->
               TOTRAM.NDVI img px = None \/ TOTRAM.LST img px = None))
         parameters points).
Proof.
  split.
  - intros AOI coll region id sd iw sw H1 H2 H3 H4. eexists.
    split; [apply OPTRAM_region_chart_calibrated; eassumption|].
    eapply Forall2_impl_l;
      [|apply (chart_points_of_map (OPTRAM.series_image id sd iw sw)
                 (fun image => OPTRAM.scene_properties image !! "system:time_start"));
        intros image; apply OPTRAM_series_image_time].
    intros image pt [[Ht Hn] _]. split; [exact Ht|]. rewrite Hn.
    split; intros H px Hpx; specialize (H px Hpx); revert H; cbn; unfold ee.lift2;
      destruct (OPTRAM.NDVI image px), (OPTRAM.STR image px); try tauto; try discriminate;
      intros [H | H]; discriminate.
  - intros AOI parameters region id sd iw sw H1 H2 H3 H4. eexists.
    split; [apply TOTRAM_region_chart_calibrated; eassumption|].
    eapply Forall2_impl_l;
      [|apply (chart_points_of_map (TOTRAM.series_image id sd iw sw)
                 (fun img => TOTRAM.scene_properties img !! "system:time_start"));
        intros img; apply TOTRAM_series_image_time].
    intros img pt [[Ht Hn] _]. split; [exact Ht|]. rewrite Hn.
    split; intros H px Hpx; specialize (H px Hpx); revert H; cbn; unfold ee.lift2;
      destruct (TOTRAM.NDVI img px), (TOTRAM.LST img px); try tauto; try discriminate;
      intros [H | H]; discriminate.
Qed.

(** X6.  Every value of a regional chart is the mean of the output pixels of
    the region and lies between the values of two of them: the regional mean
    never leaves the range of the pixels it averages. *)
Theorem chart_values_between_pixels :
  (forall AOI coll region id sd iw sw,
     OPTRAM.id_opt AOI coll = Ok id -> OPTRAM.sd_opt AOI coll = Ok sd ->
     OPTRAM.iw_opt AOI coll = Ok iw -> OPTRAM.sw_opt AOI coll = Ok sw ->
     exists points,
       OPTRAM.region_chart AOI coll region = Ok points /\
       Forall2
         (fun image pt =>
            forall m, snd pt = Some m ->
              between_pixels (data (OPTRAM.series_image id sd iw sw image)) region m)
         coll points) /\
  (forall AOI parameters region id sd iw sw,
     TOTRAM.id AOI parameters = Ok id -> TOTRAM.sd AOI parameters = Ok sd ->
     TOTRAM.iw AOI parameters = Ok iw -> TOTRAM.sw AOI parameters = Ok sw ->
     exists points,
       TOTRAM.region_chart AOI parameters region = Ok points /\
       Forall2
         (fun img pt =>
            forall m, snd pt = Some m ->
              between_pixels (data (TOTRAM.series_image id sd iw sw img)) region m)
         parameters points).
Proof.
  split.
  - intros AOI coll region id sd iw sw H1 H2 H3 H4. eexists.
    split; [apply OPTRAM_region_chart_calibrated; eassumption|].
    eapply Forall2_impl_l;
      [|apply (chart_points_of_map (OPTRAM.series_image id sd iw sw)
                 (fun image => OPTRAM.scene_properties image !! "system:time_start"));
        intros image; apply OPTRAM_series_image_time].
    intros image pt [_ H]. exact H.
  - intros AOI parameters region id sd iw sw H1 H2 H3 H4. eexists.
    split; [apply TOTRAM_region_chart_calibrated; eassumption|].
    eapply Forall2_impl_l;
      [|apply (chart_points_of_map (TOTRAM.series_image id sd iw sw)
                 (fun img => TOTRAM.scene_properties img !! "system:time_start"));
        intros img; apply TOTRAM_series_image_time].
    intros img pt [_ H]. exact H.
Qed.

Lemma chart_points_follow_collection_witness :
  exists points,
    OPTRAM.region_chart Scenario.AOI Scenario.coll Scenario.AOI = Ok points /\
    Forall2
      (fun image pt =>
         fst pt = OPTRAM.scene_properties image !! "system:time_start" /\
         (snd pt = None <->
          forall px, In px Scenario.AOI ->
            OPTRAM.NDVI image px = None \/ OPTRAM.STR image px = None))
      Scenario.coll points.
Proof.
  apply (proj1 chart_points_follow_collection Scenario.AOI Scenario.coll Scenario.AOI
           (20 # 10) ((11 # 10) - (20 # 10)) (20 # 10) ((12 # 10) - (20 # 10)));
    reflexivity.
Defined.

Lemma chart_values_between_pixels_witness :
  exists points,
    TOTRAM.region_chart Scenario.AOI Scenario.parameters Scenario.AOI = Ok points /\
    Forall2
      (fun img pt =>
         forall m, snd pt = Some m ->
           between_pixels (data (TOTRAM.series_image 320 (320 - 305) 320 (320 - 300) img))
             Scenario.AOI m)
      Scenario.parameters points.
Proof.
  apply (proj2 chart_values_between_pixels Scenario.AOI Scenario.parameters Scenario.AOI
           320 (320 - 305) 320 (320 - 300));
    reflexivity.
Defined.

(** ** The mean composite of TOTRAM *)

Lemma sm_mean_eq AOI parameters :
  TOTRAM.sm_mean AOI parameters =
  match parameters with
  | [] => Err EEException
  | _ =>
      id ← TOTRAM.id AOI parameters; sd ← TOTRAM.sd AOI parameters;
      iw ← TOTRAM.iw AOI parameters; sw ← TOTRAM.sw AOI parameters;
      Ok (mean_image (List.map (TOTRAM.series_image id sd iw sw) parameters))
  end.
Proof.
  unfold TOTRAM.sm_mean. rewrite sm_series_eq.
  destruct parameters as [|s parameters]; [reflexivity|].
  destruct (TOTRAM.id _ _) as [id|]; [|reflexivity].
  destruct (TOTRAM.sd _ _) as [sd|]; [|reflexivity].
  destruct (TOTRAM.iw _ _) as [iw|]; [|reflexivity].
  destruct (TOTRAM.sw _ _) as [sw|]; [|reflexivity].
  reflexivity.
Qed.

Lemma valid_values_map {A B : Type} (g : A -> B) (f : B -> option Q) (l : list A) :
  ee.valid_values f (List.map g l) = ee.valid_values (fun a => f (g a)) l.
Proof.
  induction l as [|a l IH]; simpl; [reflexivity|]. rewrite IH. reflexivity.
Qed.

(** X7.  With the trapezoid parameters evaluated, [sm_mean] is an image named
    [sm_mean] whose pixel is masked exactly when no image of the collection is
    valid there in both bands the model reads, and otherwise lies between the
    values that two images of the series have at that pixel. *)
Theorem sm_mean_pixels :
  forall AOI parameters id sd iw sw,
    TOTRAM.id AOI parameters = Ok id -> TOTRAM.sd AOI parameters = Ok sd ->
    TOTRAM.iw AOI parameters = Ok iw -> TOTRAM.sw AOI parameters = Ok sw ->
    exists out,
      TOTRAM.sm_mean AOI parameters = Ok out /\
      bandName out = "sm_mean" /\
      forall px,
        (data out px = None <->
         forall img, In img parameters ->
           TOTRAM.NDVI img px = None \/ TOTRAM.LST img px = None) /\
        (forall m, data out px = Some m ->
           between_images (List.map (TOTRAM.series_image id sd iw sw) parameters) px m).
Proof.
  intros AOI parameters id sd iw sw H1 H2 H3 H4.
  exists (mean_image (List.map (TOTRAM.series_image id sd iw sw) parameters)).
  split; [|split; [reflexivity|]].
  - rewrite sm_mean_eq, H1, H2, H3, H4.
    destruct parameters; [discriminate H1 | reflexivity].
  - intros px. cbn [mean_image data ee.set ee.rename]. split.
    + rewrite Reducer_mean_None, valid_values_nil. split.
      * intros H img Himg. specialize (H (TOTRAM.series_image id sd iw sw img)
                                         (in_map _ _ _ Himg)).
        revert H. cbn. unfold ee.lift2.
        destruct (TOTRAM.NDVI img px), (TOTRAM.LST img px); auto; discriminate.
      * intros H im Him. apply in_map_iff in Him as (img & <- & Himg).
        specialize (H img Himg). cbn. unfold ee.lift2.
        destruct (TOTRAM.NDVI img px), (TOTRAM.LST img px); try reflexivity;
          destruct H; discriminate.
    + intros m Hm. apply Reducer_mean_between in Hm as (x & y & Hx & Hy & Hl & Hu).
      apply in_valid_values in Hx as (i1 & Hi1 & E1).
      apply in_valid_values in Hy as (i2 & Hi2 & E2).
      exists i1, i2, x, y. auto 10.
Qed.

Lemma sm_mean_pixels_witness :
  exists out,
    TOTRAM.sm_mean Scenario.AOI Scenario.parameters = Ok out /\
    bandName out = "sm_mean" /\
    forall px,
      (data out px = None <->
       forall img, In img Scenario.parameters ->
         TOTRAM.NDVI img px = None \/ TOTRAM.LST img px = None) /\
      (forall m, data out px = Some m ->
         between_images
           (List.map (TOTRAM.series_image 320 (320 - 305) 320 (320 - 300))
              Scenario.parameters) px m).
Proof.
  apply (sm_mean_pixels Scenario.AOI Scenario.parameters
           320 (320 - 305) 320 (320 - 300)); reflexivity.
Defined.

Lemma valid_values_Permutation {A : Type} (f : A -> option Q) (l l' : list A) :
  Permutation l l' -> Permutation (ee.valid_values f l) (ee.valid_values f l').
Proof.
  induction 1 as [|a l l' _ IH | a b l | l l' l'' _ IH1 _ IH2]; simpl.
  - constructor.
  - destruct (f a); [constructor|]; exact IH.
  - destruct (f a), (f b); try reflexivity. apply perm_swap.
  - etransitivity; eassumption.
Qed.

Lemma Qsum_Permutation (l l' : list Q) : Permutation l l' -> ee.Qsum l == ee.Qsum l'.
Proof.
  induction 1 as [|a l l' _ IH | a b l | l l' l'' _ IH1 _ IH2]; simpl.
  - reflexivity.
  - unfold ee.Qsum in IH. rewrite IH. reflexivity.
  - ring.
  - etransitivity; eassumption.
Qed.

Lemma Reducer_mean_Permutation (l l' : list Q) :
  Permutation l l' -> oQeq (ee.Reducer_mean l) (ee.Reducer_mean l').
Proof.
  intros HP. pose proof (Qsum_Permutation l l' HP) as Hs.
  pose proof (Permutation_length HP) as Hl.
  destruct l as [|a l], l' as [|b l']; try discriminate; simpl; [exact I|].
  simpl in Hl. unfold ee.Qsum in Hs. simpl in Hs. rewrite Hs, Hl. reflexivity.
Qed.

Lemma mean_image_Permutation (f f' : TOTRAM.Scene -> Image) (l l' : list TOTRAM.Scene) :
  Permutation l l' ->
  (forall s px, oQeq (data (f s) px) (data (f' s) px)) ->
  image_eq (Ok (mean_image (List.map f l))) (Ok (mean_image (List.map f' l'))).
Proof.
  intros HP Hd. split; [reflexivity|]. split; [reflexivity|].
  intros px. cbn [mean_image data ee.set ee.rename]. rewrite !valid_values_map.
  eapply oQeq_trans.
  - apply Reducer_mean_Qeq. apply valid_values_Qeq. intros s. apply Hd.
  - apply Reducer_mean_Permutation, valid_values_Permutation, HP.
Qed.

(** X8.  Reordering the images of the collection does not change [sm_mean]:
    it fails in the same way, or it is the same image, pixel by pixel. *)
Theorem sm_mean_order_independent :
  forall AOI parameters parameters',
    Permutation parameters parameters' ->
    image_eq (TOTRAM.sm_mean AOI parameters) (TOTRAM.sm_mean AOI parameters').
Proof.
  intros AOI parameters parameters' HP.
  pose proof (corner_Permutation Qle ee.Reducer_max Qle_extreme_order Reducer_max_extreme)
    as Hmax.
  pose proof (corner_Permutation (fun y v => v <= y) ee.Reducer_min
                Qge_extreme_order Reducer_min_extreme) as Hmin.
  assert (Hvw : rQeq (TOTRAM.vw AOI parameters) (TOTRAM.vw AOI parameters'))
    by (apply Hmin, Permutation_map, HP).
  assert (Hvd : rQeq (TOTRAM.vd AOI parameters) (TOTRAM.vd AOI parameters'))
    by (apply Hmax, Permutation_map, HP).
  assert (Hiw : rQeq (TOTRAM.iw AOI parameters) (TOTRAM.iw AOI parameters'))
    by (apply Hmin, Permutation_map, HP).
  assert (Hid : rQeq (TOTRAM.id AOI parameters) (TOTRAM.id AOI parameters'))
    by (apply Hmax, Permutation_map, HP).
  assert (Hsd : rQeq (TOTRAM.sd AOI parameters) (TOTRAM.sd AOI parameters'))
    by (apply rQeq_minus; assumption).
  assert (Hsw : rQeq (TOTRAM.sw AOI parameters) (TOTRAM.sw AOI parameters'))
    by (apply rQeq_minus; assumption).
  rewrite !sm_mean_eq.
  destruct parameters as [|s l], parameters' as [|s' l'].
  - reflexivity.
  - apply Permutation_nil in HP. discriminate.
  - symmetry in HP. apply Permutation_nil in HP. discriminate.
  - destruct (TOTRAM.id AOI (s :: l)) as [a|ea], (TOTRAM.id AOI (s' :: l')) as [a'|ea'];
      simpl in Hid; try tauto; try exact Hid.
    destruct (TOTRAM.sd AOI (s :: l)) as [b|eb], (TOTRAM.sd AOI (s' :: l')) as [b'|eb'];
      simpl in Hsd; try tauto; try exact Hsd.
    destruct (TOTRAM.iw AOI (s :: l)) as [c|ec], (TOTRAM.iw AOI (s' :: l')) as [c'|ec'];
      simpl in Hiw; try tauto; try exact Hiw.
    destruct (TOTRAM.sw AOI (s :: l)) as [d|ed], (TOTRAM.sw AOI (s' :: l')) as [d'|ed'];
      simpl in Hsw; try tauto; try exact Hsw.
    apply mean_image_Permutation; [exact HP|].
    intros img px. apply TOTRAM_series_image_Qeq; assumption.
Qed.

Lemma sm_mean_order_independent_witness :
  image_eq (TOTRAM.sm_mean Scenario.AOI Scenario.parameters)
           (TOTRAM.sm_mean Scenario.AOI [Scenario.t2; Scenario.t1; Scenario.t3]).
Proof.
  exact (sm_mean_order_independent Scenario.AOI Scenario.parameters
           [Scenario.t2; Scenario.t1; Scenario.t3]
           (perm_swap Scenario.t2 Scenario.t1 [Scenario.t3])).
Defined.

(** ** The STR band outside and inside its domain *)

(** X9.  The STR band is valid exactly where the B12 band is: no reflectance
    is masked for being out of the domain (0,1).  For a positive reflectance
    the ratio is never negative and is zero only at reflectance 1, and a
    reflectance and its reciprocal give the same ratio, so a reflectance
    above 1 is not told apart from one below 1. *)
Theorem STR_band_domain :
  (forall (B12 : band) (px : pixel), S2_proc_STR B12 px = None <-> B12 px = None) /\
  (forall swir, 0 < swir ->
     0 <= STR_expr swir /\ (STR_expr swir == 0 <-> swir == 1)) /\
  (forall swir, ~ swir == 0 -> STR_expr (/ swir) == STR_expr swir).
Proof.
  split; [|split].
  - intros B12 px. unfold S2_proc_STR, ee.lift1.
    destruct (B12 px); split; congruence.
  - intros x Hx. rewrite STR_expr_unfold.
    assert (Hsq : 0 <= (1 - x) * (1 - x)).
    { destruct (Qlt_le_dec x 1).
      - apply Qmult_le_0_compat; lra.
      - assert (E : (1 - x) * (1 - x) == (x - 1) * (x - 1)) by ring.
        rewrite E. apply Qmult_le_0_compat; lra. }
    split.
    + apply Qle_shift_div_l; lra.
    + split.
      * intros H0.
        assert (E : (1 - x) * (1 - x) == (1 - x) * (1 - x) / (2 * x) * (2 * x))
          by (field; lra).
        rewrite H0 in E. rewrite Qmult_0_l in E.
        apply Qmult_integral in E. lra.
      * intros H1. rewrite H1. reflexivity.
  - intros x Hx. rewrite !STR_expr_unfold. field. exact Hx.
Qed.

Lemma STR_band_domain_witness :
  (0 <= STR_expr 2 /\ (STR_expr 2 == 0 <-> 2 == 1)) /\
  STR_expr (/ 2) == STR_expr 2.
Proof.
  split.
  - apply (proj1 (proj2 STR_band_domain) 2). reflexivity.
  - apply (proj2 (proj2 STR_band_domain) 2). discriminate.
Defined.

(** ** Clipping to the AOI *)

Lemma pixel_eqb_eq (p q : pixel) : eeIngest.pixel_eqb p q = true <-> p = q.
Proof.
  unfold eeIngest.pixel_eqb. destruct p as [a b], q as [c d]; simpl.
  rewrite andb_true_iff, !Z.eqb_eq. split; [intros [-> ->]; reflexivity|].
  intros [= -> ->]. auto.
Qed.

Lemma covers_In (g : geometry) (px : pixel) : eeIngest.covers g px = true <-> In px g.
Proof.
  unfold eeIngest.covers. rewrite existsb_exists. split.
  - intros (q & Hq & E). apply pixel_eqb_eq in E. subst q. exact Hq.
  - intros H. exists px. split; [exact H | apply pixel_eqb_eq; reflexivity].
Qed.

Lemma clip_outside (g : geometry) (a : band) (px : pixel) :
  ~ In px g -> eeIngest.clip g a px = None.
Proof.
  intros H. unfold eeIngest.clip. destruct (eeIngest.covers g px) eqn:E; [|reflexivity].
  apply covers_In in E. tauto.
Qed.

Lemma S2_scene_outside meets Sentinel2MSI AOI AOI' scene px :
  In scene (S2MSI.coll AOI' (S2MSI.S2_proc (S2MSI.S2 meets Sentinel2MSI AOI))) ->
  ~ In px AOI ->
  OPTRAM.NDVI scene px = None /\ OPTRAM.STR scene px = None.
Proof.
  unfold S2MSI.coll, S2MSI.S2_proc, S2MSI.S2. intros Hs Hpx.
  apply in_map_iff in Hs as (s1 & <- & Hs).
  apply in_map_iff in Hs as (r1 & <- & Hs).
  apply in_map_iff in Hs as (r0 & <- & _).
  cbn. unfold eeIngest.normalizedDifference, eeIngest.multiply, S2_proc_STR, ee.lift1.
  rewrite !(clip_outside AOI _ px Hpx). split; reflexivity.
Qed.

Lemma L8_scene_outside meets Landsat8 AOI scene px :
  In scene (L8.parameters (L8.landsat meets Landsat8 AOI)) ->
  ~ In px AOI ->
  TOTRAM.NDVI scene px = None /\ TOTRAM.LST scene px = None.
Proof.
  unfold L8.parameters, L8.landsat. intros Hs Hpx.
  apply in_map_iff in Hs as (r1 & <- & Hs).
  apply in_map_iff in Hs as (r0 & <- & _).
  cbn. unfold eeIngest.normalizedDifference, eeIngest.add, eeIngest.multiply, ee.lift1.
  rewrite !(clip_outside AOI _ px Hpx). split; reflexivity.
Qed.

(** X10.  Run on the collections the scripts ingest, every image of a series
    is masked at every pixel outside the AOI, and so is the TOTRAM mean
    composite: the clip made at ingestion reaches every output. *)
Theorem outputs_masked_outside_AOI :
  (forall meets Sentinel2MSI AOI outs,
     OPTRAM.optram_series AOI
       (S2MSI.coll AOI (S2MSI.S2_proc (S2MSI.S2 meets Sentinel2MSI AOI))) = Ok outs ->
     forall out px, In out outs -> ~ In px AOI -> data out px = None) /\
  (forall meets Landsat8 AOI outs,
     TOTRAM.sm_series AOI (L8.parameters (L8.landsat meets Landsat8 AOI)) = Ok outs ->
     forall out px, In out outs -> ~ In px AOI -> data out px = None) /\
  (forall meets Landsat8 AOI out,
     TOTRAM.sm_mean AOI (L8.parameters (L8.landsat meets Landsat8 AOI)) = Ok out ->
     forall px, ~ In px AOI -> data out px = None).
Proof.
  split; [|split].
  - intros meets X AOI outs Ho out px Hin Hpx.
    apply optram_series_inv in Ho as (id & sd & iw & sw & ->).
    apply in_map_iff in Hin as (scene & <- & Hs).
    destruct (S2_scene_outside meets X AOI AOI scene px Hs Hpx) as [En Es].
    cbn. unfold ee.lift2. rewrite En. reflexivity.
  - intros meets X AOI outs Ho out px Hin Hpx.
    apply sm_series_inv in Ho as (id & sd & iw & sw & ->).
    apply in_map_iff in Hin as (scene & <- & Hs).
    destruct (L8_scene_outside meets X AOI scene px Hs Hpx) as [En Es].
    cbn. unfold ee.lift2. rewrite En. reflexivity.
  - intros meets X AOI out Ho px Hpx. rewrite sm_mean_eq in Ho.
    destruct (L8.parameters (L8.landsat meets X AOI)) as [|s l] eqn:El; [discriminate|].
    destruct (TOTRAM.id _ _) as [id|]; [|discriminate].
    destruct (TOTRAM.sd _ _) as [sd|]; [|discriminate].
    destruct (TOTRAM.iw _ _) as [iw|]; [|discriminate].
    destruct (TOTRAM.sw _ _) as [sw|]; [|discriminate].
    injection Ho as <-. cbn [mean_image data ee.set ee.rename].
    apply Reducer_mean_None, valid_values_nil. intros im Him.
    change (In im (List.map (TOTRAM.series_image id sd iw sw) (s :: l))) in Him.
    apply in_map_iff in Him as (scene & <- & Hs). rewrite <- El in Hs.
    destruct (L8_scene_outside meets X AOI scene px Hs Hpx) as [En Es].
    cbn. unfold ee.lift2. rewrite En. reflexivity.
Qed.

Lemma outputs_masked_outside_AOI_witness :
  exists outs,
    OPTRAM.optram_series Probe.AOI Probe.coll = Ok outs /\
    length outs = 3%nat /\
    forall out, In out outs -> data out Probe.outside = None.
Proof.
  assert (Hc : exists id sd iw sw,
             OPTRAM.id_opt Probe.AOI Probe.coll = Ok id /\
             OPTRAM.sd_opt Probe.AOI Probe.coll = Ok sd /\
             OPTRAM.iw_opt Probe.AOI Probe.coll = Ok iw /\
             OPTRAM.sw_opt Probe.AOI Probe.coll = Ok sw).
  { do 4 eexists. repeat split; vm_compute; reflexivity. }
  destruct Hc as (id & sd & iw & sw & H1 & H2 & H3 & H4).
  pose proof (optram_series_calibrated Probe.AOI Probe.coll id sd iw sw H1 H2 H3 H4) as Ho.
  eexists. split; [exact Ho|]. split; [reflexivity|].
  intros out Hin.
  apply (proj1 outputs_masked_outside_AOI (fun g img => Probe.meets g img)
           Probe.Sentinel2MSI Probe.AOI _ Ho out Probe.outside Hin).
  intros [H | []]. discriminate H.
Defined.

(** ** Collections that agree on the AOI *)

Lemma valid_values_ext {A : Type} (f g : A -> option Q) (l : list A) :
  (forall a, In a l -> f a = g a) -> ee.valid_values f l = ee.valid_values g l.
Proof.
  induction l as [|a l IH]; intros H; simpl; [reflexivity|].
  rewrite (H a (or_introl eq_refl)), IH; [reflexivity|].
  intros b Hb. apply H. right. exact Hb.
Qed.

Lemma valid_values_Forall2 {A B : Type} (f : A -> option Q) (g : B -> option Q)
    (l : list A) (l' : list B) :
  Forall2 (fun a b => f a = g b) l l' -> ee.valid_values f l = ee.valid_values g l'.
Proof.
  induction 1 as [|a b l l' Hab _ IH]; simpl; [reflexivity|].
  rewrite Hab, IH. reflexivity.
Qed.

Lemma Forall2_map_map {A B C : Type} (P : B -> C -> Prop) (f : A -> B) (g : A -> C)
    (l : list A) :
  (forall a, In a l -> P (f a) (g a)) -> Forall2 P (List.map f l) (List.map g l).
Proof.
  induction l as [|a l IH]; intros H; simpl; constructor.
  - apply H. left. reflexivity.
  - apply IH. intros b Hb. apply H. right. exact Hb.
Qed.

Lemma Forall2_maps {A B C D : Type} (P : A -> B -> Prop) (Q : C -> D -> Prop)
    (f : A -> C) (g : B -> D) (l : list A) (l' : list B) :
  (forall a b, P a b -> Q (f a) (g b)) ->
  Forall2 P l l' -> Forall2 Q (List.map f l) (List.map g l').
Proof. intros H. induction 1; simpl; constructor; auto. Qed.

(** The corner expression only reads the pixels of the AOI. *)
Lemma corner_data_ext reducer AOI masked masked' :
  Forall2 (fun i i' => forall px, In px AOI -> data i px = data i' px) masked masked' ->
  corner reducer AOI masked = corner reducer AOI masked'.
Proof.
  intros H.
  assert (Hs : forall px, In px AOI -> stage1 reducer masked px = stage1 reducer masked' px).
  { intros px Hpx. unfold stage1. f_equal. apply valid_values_Forall2.
    eapply Forall2_impl_l; [|exact H]. intros i i' Hi. apply Hi, Hpx. }
  unfold corner. destruct H as [|i i' masked masked' Hi H]; [reflexivity|].
  cbn [ee.ImageCollection_reduce ee.reduceRegion ee.values List.map snd fst].
  change (fun px => reducer (ee.valid_values (fun im => data im px) (i :: masked)))
    with (stage1 reducer (i :: masked)).
  change (fun px => reducer (ee.valid_values (fun im => data im px) (i' :: masked')))
    with (stage1 reducer (i' :: masked')).
  unfold ee.valid_pixels. rewrite (valid_values_ext _ _ AOI Hs). reflexivity.
Qed.

(** Two OPTRAM images agree on a geometry. *)
Lemma updateMask_agree (a a' m m' : band) (px : pixel) :
  a px = a' px -> m px = m' px -> ee.updateMask a m px = ee.updateMask a' m' px.
Proof. intros Ha Hm. unfold ee.updateMask. rewrite Ha, Hm. reflexivity. Qed.

Section OPTRAMAgree.
Variables (AOI : geometry) (c c' : list OPTRAM.Scene).
Hypothesis agree :
  Forall2
    (fun s s' => forall px, In px AOI ->
       OPTRAM.NDVI s px = OPTRAM.NDVI s' px /\ OPTRAM.STR s px = OPTRAM.STR s' px)
    c c'.

Lemma OPTRAM_corners_agree :
  OPTRAM.vw_opt AOI c = OPTRAM.vw_opt AOI c' /\
  OPTRAM.vd_opt AOI c = OPTRAM.vd_opt AOI c' /\
  OPTRAM.iw_opt AOI c = OPTRAM.iw_opt AOI c' /\
  OPTRAM.id_opt AOI c = OPTRAM.id_opt AOI c'.
Proof.
  assert (Hf : Forall2 (fun i i' => forall px, In px AOI -> data i px = data i' px)
                 (OPTRAM.STR_full_cover c) (OPTRAM.STR_full_cover c')).
  { unfold OPTRAM.STR_full_cover. eapply Forall2_maps; [|exact agree].
    intros s s' H px Hpx. destruct (H px Hpx) as [En Es]. cbn.
    apply updateMask_agree; [exact Es|]. unfold OPTRAM.full, ee.gte, ee.lift1.
    rewrite En. reflexivity. }
  assert (Hb : Forall2 (fun i i' => forall px, In px AOI -> data i px = data i' px)
                 (OPTRAM.STR_bare_soil c) (OPTRAM.STR_bare_soil c')).
  { unfold OPTRAM.STR_bare_soil. eapply Forall2_maps; [|exact agree].
    intros s s' H px Hpx. destruct (H px Hpx) as [En Es]. cbn.
    apply updateMask_agree; [exact Es|].
    unfold OPTRAM.bare, ee.and_, ee.lift2, ee.gte, ee.lte, ee.lift1.
    rewrite En. reflexivity. }
  repeat split.
  - exact (corner_data_ext ee.Reducer_max AOI _ _ Hf).
  - exact (corner_data_ext ee.Reducer_min AOI _ _ Hf).
  - exact (corner_data_ext ee.Reducer_max AOI _ _ Hb).
  - exact (corner_data_ext ee.Reducer_min AOI _ _ Hb).
Qed.

Lemma OPTRAM_deltas_agree :
  OPTRAM.sd_opt AOI c = OPTRAM.sd_opt AOI c' /\
  OPTRAM.sw_opt AOI c = OPTRAM.sw_opt AOI c'.
Proof.
  destruct OPTRAM_corners_agree as (H1 & H2 & H3 & H4).
  unfold OPTRAM.sd_opt, OPTRAM.sw_opt. rewrite H1, H2, H3, H4. split; reflexivity.
Qed.
End OPTRAMAgree.

Lemma set_number_lookup_ne key v (props : gmap string value) k :
  key <> k -> eeIngest.set_number key v props !! k = props !! k.
Proof.
  intros H. unfold eeIngest.set_number. destruct v.
  - apply lookup_insert_ne, H.
  - apply lookup_delete_ne, H.
Qed.

Lemma attachNDVIMinMax_other AOI image k :
  k <> "NDVI_min" -> k <> "NDVI_max" ->
  OPTRAM.scene_properties (S2MSI.attachNDVIMinMax AOI image) !! k
  = OPTRAM.scene_properties image !! k.
Proof.
  intros H1 H2. unfold S2MSI.attachNDVIMinMax. cbn [OPTRAM.scene_properties].
  rewrite !set_number_lookup_ne by congruence. reflexivity.
Qed.

(** ** The index engines *)

Lemma copied_properties_eq (src : gmap string value) :
  eeIngest.copied_properties src = src.
Proof.
  apply map_eq. intros k. unfold eeIngest.copied_properties.
  rewrite copyProperties_all. cbn [properties]. rewrite lookup_empty.
  destruct (src !! k); reflexivity.
Qed.

(** X12.  Index engine of OPTRAM.  Each image of [S2_proc] keeps all the
    properties of its raw image.  Its NDVI is valid only where B8 and B4 are
    valid and not negative, and then lies in [-1, 1].  Where B8 and B4 are
    valid, not negative and not both zero, NDVI is valid and is the
    normalized difference of the two scaled reflectances [0.0001 * B8] and
    [0.0001 * B4], in the order the script computes it; it is not negative
    when B8 >= B4 and not positive when B8 <= B4. *)
Theorem S2_proc_NDVI :
  forall S2,
    Forall2
      (fun raw scene =>
         OPTRAM.scene_properties scene = S2MSI.raw_properties raw /\
         forall px,
           (forall n, OPTRAM.NDVI scene px = Some n ->
              exists b8 b4,
                S2MSI.B8 raw px = Some b8 /\ S2MSI.B4 raw px = Some b4 /\
                0 <= b8 /\ 0 <= b4 /\ -1 <= n /\ n <= 1) /\
           (forall b8 b4,
              S2MSI.B8 raw px = Some b8 -> S2MSI.B4 raw px = Some b4 ->
              0 <= b8 -> 0 <= b4 -> 0 < b8 + b4 ->
              exists n,
                OPTRAM.NDVI scene px = Some n /\
                n = (b8 * (1 # 10000) - b4 * (1 # 10000))
                    / (b8 * (1 # 10000) + b4 * (1 # 10000)) /\
                (b4 <= b8 -> 0 <= n) /\ (b8 <= b4 -> n <= 0)))
      S2 (S2MSI.S2_proc S2).
Proof.
  intros S2. unfold S2MSI.S2_proc. apply Forall2_map_r. intros raw _.
  cbn [OPTRAM.scene_properties OPTRAM.NDVI]. split; [apply copied_properties_eq|].
  intros px. split.
  - intros n Hn. apply normalizedDifference_Some in Hn as (x & y & Ex & Ey & Hx & Hy & ->).
    unfold eeIngest.multiply, ee.lift1 in Ex, Ey.
    destruct (S2MSI.B8 raw px) as [b8|]; [|discriminate].
    destruct (S2MSI.B4 raw px) as [b4|]; [|discriminate].
    injection Ex as <-. injection Ey as <-.
    exists b8, b4. split; [reflexivity|]. split; [reflexivity|].
    split; [lra|]. split; [lra|]. apply normalized_difference_range; assumption.
  - intros b8 b4 E8 E4 H8 H4 Hs. eexists. split; [|split; [reflexivity|]].
    + apply normalizedDifference_nonneg.
      * unfold eeIngest.multiply, ee.lift1. rewrite E8. reflexivity.
      * unfold eeIngest.multiply, ee.lift1. rewrite E4. reflexivity.
      * lra.
      * lra.
    + split; intros H.
      * apply Qle_shift_div_l; lra.
      * apply Qle_shift_div_r; lra.
Qed.

(** X13.  The OPTRAM masks in terms of the raw bands, off the thresholds.  At
    a pixel where B8 and B4 are valid, not negative and not both zero: full
    cover holds when B8 > 4 * B4 and does not hold when B8 < 4 * B4; bare soil
    holds when 11 * B4 < 9 * B8 and 2 * B8 < 3 * B4, and does not hold when
    9 * B8 < 11 * B4 or 3 * B4 < 2 * B8.  On the lines B8 = 4 * B4,
    9 * B8 = 11 * B4 and 2 * B8 = 3 * B4 the exact NDVI equals a threshold
    (0.6, 0.1, 0.2) and the mask follows the rounding of the script's
    floating point, so nothing is stated there. *)
Theorem OPTRAM_masks_on_raw_bands :
  forall S2,
    Forall2
      (fun raw scene =>
         forall px b8 b4,
           S2MSI.B8 raw px = Some b8 -> S2MSI.B4 raw px = Some b4 ->
           0 <= b8 -> 0 <= b4 -> 0 < b8 + b4 ->
           (4 * b4 < b8 -> holds (OPTRAM.full scene) px) /\
           (b8 < 4 * b4 -> ~ holds (OPTRAM.full scene) px) /\
           (11 * b4 < 9 * b8 -> 2 * b8 < 3 * b4 -> holds (OPTRAM.bare scene) px) /\
           (9 * b8 < 11 * b4 \/ 3 * b4 < 2 * b8 -> ~ holds (OPTRAM.bare scene) px))
      S2 (S2MSI.S2_proc S2).
Proof.
  intros S2. unfold S2MSI.S2_proc. apply Forall2_map_r. intros raw _.
  intros px b8 b4 E8 E4 H8 H4 Hs.
  set (scene := OPTRAM.mkScene _ _ _).
  assert (En : OPTRAM.NDVI scene px
               = Some ((b8 * (1 # 10000) - b4 * (1 # 10000))
                       / (b8 * (1 # 10000) + b4 * (1 # 10000)))).
  { unfold scene. cbn [OPTRAM.NDVI]. apply normalizedDifference_nonneg.
    - unfold eeIngest.multiply, ee.lift1. rewrite E8. reflexivity.
    - unfold eeIngest.multiply, ee.lift1. rewrite E4. reflexivity.
    - lra.
    - lra. }
  set (x := b8 * (1 # 10000)) in *. set (y := b4 * (1 # 10000)) in *.
  assert (Hxy : 0 < x + y) by (unfold x, y; lra).
  assert (Hge : forall c, c <= (x - y) / (x + y) <-> c * (x + y) <= x - y).
  { intros c. split.
    - intros H. apply (Qmult_le_compat_r _ _ (x + y)) in H; [|lra].
      assert (E : (x - y) / (x + y) * (x + y) == x - y) by (field; lra).
      rewrite E in H. exact H.
    - intros H. apply Qle_shift_div_l; assumption. }
  assert (Hle : forall c, (x - y) / (x + y) <= c <-> x - y <= c * (x + y)).
  { intros c. split.
    - intros H. apply (Qmult_le_compat_r _ _ (x + y)) in H; [|lra].
      assert (E : (x - y) / (x + y) * (x + y) == x - y) by (field; lra).
      rewrite E in H. exact H.
    - intros H. apply Qle_shift_div_r; assumption. }
  unfold OPTRAM.full, OPTRAM.bare.
  rewrite holds_and, !holds_gte, holds_lte. split; [|split; [|split]].
  - intros H. eexists. split; [exact En|]. apply Hge. unfold x, y. lra.
  - intros H (n & E & Hn). rewrite En in E. injection E as <-.
    apply Hge in Hn. unfold x, y in Hn. lra.
  - intros H1 H2. split; eexists; (split; [exact En|]).
    + apply Hge. unfold x, y. lra.
    + apply Hle. unfold x, y. lra.
  - intros H [(n & E & Hn) (n' & E' & Hn')]. rewrite En in E, E'.
    injection E as <-. injection E' as <-.
    apply Hge in Hn. apply Hle in Hn'. unfold x, y in Hn, Hn'. lra.
Qed.

(** X14.  Index engine of TOTRAM.  Each image of [parameters] keeps all the
    properties of its raw image, and its LST is 0.00341802 * ST_B10 + 149
    wherever ST_B10 is valid.  Because the scaled reflectance
    0.0000275 * raw - 0.2 is negative below raw = 80000/11 (about 7272.7),
    NDVI is valid only where SR_B5 and SR_B4 are valid and at least 80000/11,
    and then lies in [-1, 1]; where moreover one of them exceeds 80000/11 it
    is valid and equals (SR_B5 - SR_B4) / (SR_B5 + SR_B4 - 160000/11). *)
Theorem parameters_NDVI_LST :
  forall landsat,
    Forall2
      (fun raw scene =>
         TOTRAM.scene_properties scene = L8.raw_properties raw /\
         forall px,
           TOTRAM.LST scene px
           = match L8.ST_B10 raw px with
             | Some t => Some (t * (341802 # 100000000) + 149)
             | None => None
             end /\
           (forall n, TOTRAM.NDVI scene px = Some n ->
              exists r5 r4,
                L8.SR_B5 raw px = Some r5 /\ L8.SR_B4 raw px = Some r4 /\
                80000 # 11 <= r5 /\ 80000 # 11 <= r4 /\ -1 <= n /\ n <= 1) /\
           (forall r5 r4,
              L8.SR_B5 raw px = Some r5 -> L8.SR_B4 raw px = Some r4 ->
              80000 # 11 <= r5 -> 80000 # 11 <= r4 -> 160000 # 11 < r5 + r4 ->
              exists n, TOTRAM.NDVI scene px = Some n /\
                        n == (r5 - r4) / (r5 + r4 - (160000 # 11))))
      landsat (L8.parameters landsat).
Proof.
  intros landsat. unfold L8.parameters. apply Forall2_map_r. intros raw _.
  cbn [TOTRAM.scene_properties TOTRAM.NDVI TOTRAM.LST].
  split; [apply copied_properties_eq|].
  intros px. split; [|split].
  - unfold eeIngest.add, eeIngest.multiply, ee.lift1.
    destruct (L8.ST_B10 raw px); reflexivity.
  - intros n Hn. apply normalizedDifference_Some in Hn as (x & y & Ex & Ey & Hx & Hy & ->).
    unfold eeIngest.add, eeIngest.multiply, ee.lift1 in Ex, Ey.
    destruct (L8.SR_B5 raw px) as [r5|]; [|discriminate].
    destruct (L8.SR_B4 raw px) as [r4|]; [|discriminate].
    injection Ex as <-. injection Ey as <-.
    exists r5, r4. split; [reflexivity|]. split; [reflexivity|].
    split; [lra|]. split; [lra|]. apply normalized_difference_range; assumption.
  - intros r5 r4 E5 E4 H5 H4 Hs. eexists. split.
    + apply normalizedDifference_nonneg.
      * unfold eeIngest.add, eeIngest.multiply, ee.lift1. rewrite E5. reflexivity.
      * unfold eeIngest.add, eeIngest.multiply, ee.lift1. rewrite E4. reflexivity.
      * lra.
      * lra.
    + field. lra.
Qed.

Lemma S2_proc_NDVI_witness :
  exists scene n,
    S2MSI.S2_proc [Probe.r_full1] = [scene] /\
    OPTRAM.NDVI scene Probe.inside = Some n /\
    n = (6000 * (1 # 10000) - 1000 * (1 # 10000))
        / (6000 * (1 # 10000) + 1000 * (1 # 10000)) /\
    0 <= n.
Proof.
  pose proof (S2_proc_NDVI [Probe.r_full1]) as H.
  unfold S2MSI.S2_proc in H. cbn [List.map] in H.
  apply List.Forall2_cons_iff in H as [[_ H] _].
  assert (H8 : 0 <= 6000) by discriminate.
  assert (H4 : 0 <= 1000) by discriminate.
  assert (Hs : 0 < 6000 + 1000) by reflexivity.
  assert (Hle : 1000 <= 6000) by discriminate.
  destruct (proj2 (H Probe.inside) 6000 1000 eq_refl eq_refl H8 H4 Hs)
    as (n & En & Hn & Hpos & _).
  eexists _, n. split; [reflexivity|]. split; [exact En|].
  split; [exact Hn | exact (Hpos Hle)].
Defined.

Lemma OPTRAM_masks_on_raw_bands_witness :
  exists full_scene bare_scene,
    S2MSI.S2_proc [Probe.r_full1; Probe.r_bare] = [full_scene; bare_scene] /\
    holds (OPTRAM.full full_scene) Probe.inside /\
    ~ holds (OPTRAM.bare full_scene) Probe.inside /\
    holds (OPTRAM.bare bare_scene) Probe.inside /\
    ~ holds (OPTRAM.full bare_scene) Probe.inside.
Proof.
  pose proof (OPTRAM_masks_on_raw_bands [Probe.r_full1; Probe.r_bare]) as H.
  unfold S2MSI.S2_proc in H. cbn [List.map] in H.
  apply List.Forall2_cons_iff in H as [Hf H].
  apply List.Forall2_cons_iff in H as [Hb _].
  assert (F8 : 0 <= 6000) by discriminate.
  assert (F4 : 0 <= 1000) by discriminate.
  assert (Fs : 0 < 6000 + 1000) by reflexivity.
  assert (B8 : 0 <= 1150) by discriminate.
  assert (B4 : 0 <= 850) by discriminate.
  assert (Bs : 0 < 1150 + 850) by reflexivity.
  destruct (Hf Probe.inside 6000 1000 eq_refl eq_refl F8 F4 Fs) as (Hf1 & _ & _ & Hf4).
  destruct (Hb Probe.inside 1150 850 eq_refl eq_refl B8 B4 Bs) as (_ & Hb2 & Hb3 & _).
  eexists _, _. split; [reflexivity|].
  split; [apply Hf1; reflexivity|].
  split; [apply Hf4; right; reflexivity|].
  split; [apply Hb3; reflexivity | apply Hb2; reflexivity].
Defined.

Lemma parameters_NDVI_LST_witness :
  exists scene n,
    L8.parameters [Probe.l_full1] = [scene] /\
    TOTRAM.NDVI scene Probe.inside = Some n /\
    n == (20000 - 10000) / (20000 + 10000 - (160000 # 11)).
Proof.
  pose proof (parameters_NDVI_LST [Probe.l_full1]) as H.
  unfold L8.parameters in H. cbn [List.map] in H.
  apply List.Forall2_cons_iff in H as [[_ H] _].
  assert (H5 : 80000 # 11 <= 20000) by discriminate.
  assert (H4 : 80000 # 11 <= 10000) by discriminate.
  assert (Hs : 160000 # 11 < 20000 + 10000) by reflexivity.
  destruct (proj2 (proj2 (H Probe.inside)) 20000 10000 eq_refl eq_refl H5 H4 Hs)
    as (n & En & Hn).
  eexists _, n. split; [reflexivity|]. split; [exact En | exact Hn].
Defined.

(** ** The NDVI statistics attached to each image *)

Lemma set_number_lookup_eq key v (props : gmap string value) :
  eeIngest.set_number key v props !! key = VNumber <$> v.
Proof.
  unfold eeIngest.set_number. destruct v; simpl.
  - apply lookup_insert_eq.
  - apply lookup_delete_eq.
Qed.

Lemma attachNDVIMinMax_min AOI image :
  OPTRAM.scene_properties (S2MSI.attachNDVIMinMax AOI image) !! "NDVI_min"
  = VNumber <$> ee.Reducer_min (ee.valid_pixels (OPTRAM.NDVI image) AOI).
Proof.
  unfold S2MSI.attachNDVIMinMax. cbn [OPTRAM.scene_properties].
  rewrite set_number_lookup_ne by discriminate. apply set_number_lookup_eq.
Qed.

Lemma attachNDVIMinMax_max AOI image :
  OPTRAM.scene_properties (S2MSI.attachNDVIMinMax AOI image) !! "NDVI_max"
  = VNumber <$> ee.Reducer_max (ee.valid_pixels (OPTRAM.NDVI image) AOI).
Proof.
  unfold S2MSI.attachNDVIMinMax. cbn [OPTRAM.scene_properties].
  apply set_number_lookup_eq.
Qed.

(** X15.  [attachNDVIMinMax] leaves every other property of the image as it
    is.  When the image has a valid NDVI pixel in the AOI, it sets
    [NDVI_min] and [NDVI_max] to numbers that bracket the NDVI of every valid
    pixel of the AOI; when it has none, the image has no value under either
    name. *)
Theorem attachNDVIMinMax_brackets :
  forall AOI image,
    (forall k, k <> "NDVI_min" -> k <> "NDVI_max" ->
       OPTRAM.scene_properties (S2MSI.attachNDVIMinMax AOI image) !! k
       = OPTRAM.scene_properties image !! k) /\
    ((forall px, In px AOI -> OPTRAM.NDVI image px = None) ->
       OPTRAM.scene_properties (S2MSI.attachNDVIMinMax AOI image) !! "NDVI_min" = None /\
       OPTRAM.scene_properties (S2MSI.attachNDVIMinMax AOI image) !! "NDVI_max" = None) /\
    (forall px n, In px AOI -> OPTRAM.NDVI image px = Some n ->
       exists lo hi,
         OPTRAM.scene_properties (S2MSI.attachNDVIMinMax AOI image) !! "NDVI_min"
           = Some (VNumber lo) /\
         OPTRAM.scene_properties (S2MSI.attachNDVIMinMax AOI image) !! "NDVI_max"
           = Some (VNumber hi) /\
         lo <= n /\ n <= hi).
Proof.
  intros AOI image. split; [|split].
  - intros k. apply attachNDVIMinMax_other.
  - intros H. rewrite attachNDVIMinMax_min, attachNDVIMinMax_max.
    assert (E : ee.valid_pixels (OPTRAM.NDVI image) AOI = [])
      by (apply valid_values_nil; exact H).
    rewrite E. split; reflexivity.
  - intros px n Hpx En. rewrite attachNDVIMinMax_min, attachNDVIMinMax_max.
    assert (Hn : In n (ee.valid_pixels (OPTRAM.NDVI image) AOI))
      by (apply in_valid_values; eauto).
    pose proof (Reducer_min_extreme (ee.valid_pixels (OPTRAM.NDVI image) AOI)) as Hmin.
    pose proof (Reducer_max_extreme (ee.valid_pixels (OPTRAM.NDVI image) AOI)) as Hmax.
    unfold global_min, global_max in *.
    destruct (ee.Reducer_min _) as [lo|]; simpl in Hmin;
      [|rewrite Hmin in Hn; destruct Hn].
    destruct (ee.Reducer_max _) as [hi|]; simpl in Hmax;
      [|rewrite Hmax in Hn; destruct Hn].
    exists lo, hi. split; [reflexivity|]. split; [reflexivity|].
    split; [apply Hmin, Hn | apply Hmax, Hn].
Qed.

Lemma attachNDVIMinMax_brackets_witness :
  exists lo hi,
    OPTRAM.scene_properties (S2MSI.attachNDVIMinMax Scenario.AOI Scenario.s1) !! "NDVI_min"
      = Some (VNumber lo) /\
    OPTRAM.scene_properties (S2MSI.attachNDVIMinMax Scenario.AOI Scenario.s1) !! "NDVI_max"
      = Some (VNumber hi) /\
    lo <= 65 # 100 /\ 65 # 100 <= hi.
Proof.
  apply (proj2 (proj2 (attachNDVIMinMax_brackets Scenario.AOI Scenario.s1))
           Scenario.px0 (65 # 100)).
  - left. reflexivity.
  - reflexivity.
Defined.

(** X16.  Attaching the NDVI statistics changes no corner of the calibration
    and no pixel of the series, and the statistics travel with the images:
    every image of the series carries the [NDVI_min] and [NDVI_max] of its
    source image over the AOI, next to the source's other properties. *)
Theorem attached_statistics_travel :
  forall AOI S2_proc,
    OPTRAM.vw_opt AOI (S2MSI.coll AOI S2_proc) = OPTRAM.vw_opt AOI S2_proc /\
    OPTRAM.vd_opt AOI (S2MSI.coll AOI S2_proc) = OPTRAM.vd_opt AOI S2_proc /\
    OPTRAM.iw_opt AOI (S2MSI.coll AOI S2_proc) = OPTRAM.iw_opt AOI S2_proc /\
    OPTRAM.id_opt AOI (S2MSI.coll AOI S2_proc) = OPTRAM.id_opt AOI S2_proc /\
    forall outs,
      OPTRAM.optram_series AOI (S2MSI.coll AOI S2_proc) = Ok outs ->
      exists outs0,
        OPTRAM.optram_series AOI S2_proc = Ok outs0 /\
        List.map data outs = List.map data outs0 /\
        Forall2
          (fun image out =>
             properties out !! "NDVI_min"
               = VNumber <$> ee.Reducer_min (ee.valid_pixels (OPTRAM.NDVI image) AOI) /\
             properties out !! "NDVI_max"
               = VNumber <$> ee.Reducer_max (ee.valid_pixels (OPTRAM.NDVI image) AOI) /\
             forall k, k <> "NDVI_min" -> k <> "NDVI_max" ->
                       k <> "model" -> k <> "units" ->
                       properties out !! k = OPTRAM.scene_properties image !! k)
          S2_proc outs.
Proof.
  intros AOI S2_proc.
  assert (Ha : Forall2
    (fun s s' => forall px, In px AOI ->
       OPTRAM.NDVI s px = OPTRAM.NDVI s' px /\ OPTRAM.STR s px = OPTRAM.STR s' px)
    (S2MSI.coll AOI S2_proc) S2_proc).
  { unfold S2MSI.coll. rewrite <- (List.map_id S2_proc) at 2.
    apply Forall2_map_map. intros s _ px _. split; reflexivity. }
  destruct (OPTRAM_corners_agree AOI _ _ Ha) as (H1 & H2 & H3 & H4).
  destruct (OPTRAM_deltas_agree AOI _ _ Ha) as (H5 & H6).
  repeat (split; [assumption|]).
  intros outs Ho. rewrite optram_series_eq in Ho. rewrite optram_series_eq.
  rewrite H3, H4, H5, H6 in Ho. unfold S2MSI.coll in Ho.
  destruct S2_proc as [|s l].
  - injection Ho as <-. exists []. repeat split; constructor.
  - cbn [List.map] in Ho.
    destruct (OPTRAM.id_opt AOI (s :: l)) as [id|]; [|discriminate].
    destruct (OPTRAM.sd_opt AOI (s :: l)) as [sd|]; [|discriminate].
    destruct (OPTRAM.iw_opt AOI (s :: l)) as [iw|]; [|discriminate].
    destruct (OPTRAM.sw_opt AOI (s :: l)) as [sw|]; [|discriminate].
    injection Ho as <-.
    exists (List.map (OPTRAM.series_image id sd iw sw) (s :: l)).
    split; [reflexivity|].
    assert (Himg : forall image,
      properties (OPTRAM.series_image id sd iw sw (S2MSI.attachNDVIMinMax AOI image))
        !! "NDVI_min"
        = VNumber <$> ee.Reducer_min (ee.valid_pixels (OPTRAM.NDVI image) AOI) /\
      properties (OPTRAM.series_image id sd iw sw (S2MSI.attachNDVIMinMax AOI image))
        !! "NDVI_max"
        = VNumber <$> ee.Reducer_max (ee.valid_pixels (OPTRAM.NDVI image) AOI) /\
      forall k, k <> "NDVI_min" -> k <> "NDVI_max" -> k <> "model" -> k <> "units" ->
        properties (OPTRAM.series_image id sd iw sw (S2MSI.attachNDVIMinMax AOI image))
          !! k
        = OPTRAM.scene_properties image !! k).
    { intros image.
      destruct (OPTRAM_series_image_meta id sd iw sw (S2MSI.attachNDVIMinMax AOI image))
        as (_ & _ & _ & Hk).
      split; [|split].
      - rewrite Hk by discriminate. apply attachNDVIMinMax_min.
      - rewrite Hk by discriminate. apply attachNDVIMinMax_max.
      - intros k K1 K2 K3 K4. rewrite Hk by assumption.
        apply attachNDVIMinMax_other; assumption. }
    split.
    + cbn [List.map]. rewrite !List.map_map. reflexivity.
    + constructor; [apply Himg|]. rewrite List.map_map.
      apply Forall2_map_r. intros image _. apply Himg.
Qed.

Lemma attached_statistics_travel_witness :
  exists outs0,
    OPTRAM.optram_series Probe.AOI Probe.S2_proc = Ok outs0 /\
    length outs0 = 3%nat.
Proof.
  assert (Hc : exists id sd iw sw,
             OPTRAM.id_opt Probe.AOI Probe.coll = Ok id /\
             OPTRAM.sd_opt Probe.AOI Probe.coll = Ok sd /\
             OPTRAM.iw_opt Probe.AOI Probe.coll = Ok iw /\
             OPTRAM.sw_opt Probe.AOI Probe.coll = Ok sw).
  { do 4 eexists. repeat split; vm_compute; reflexivity. }
  destruct Hc as (id & sd & iw & sw & H1 & H2 & H3 & H4).
  pose proof (optram_series_calibrated Probe.AOI Probe.coll id sd iw sw H1 H2 H3 H4) as Ho.
  destruct (proj2 (proj2 (proj2 (proj2
              (attached_statistics_travel Probe.AOI Probe.S2_proc)))) _ Ho)
    as (outs0 & Ho0 & Hd & _).
  exists outs0. split; [exact Ho0|].
  rewrite <- (length_map data), <- Hd, !length_map. reflexivity.
Defined.

(** ** Filters of the ingestion *)

Lemma in_date_range_true start end_ props :
  eeIngest.in_date_range start end_ props = true <-> acquired_within start end_ props.
Proof.
  unfold eeIngest.in_date_range, acquired_within.
  destruct (props !! "system:time_start") as [[s|t]|]; split.
  - discriminate.
  - intros (t' & E & _). discriminate E.
  - intros H. apply andb_true_iff in H as [H1 H2].
    apply Qle_bool_iff in H1. apply negb_Qle_bool in H2. exists t. auto.
  - intros (t' & E & H1 & H2). injection E as <-. apply andb_true_iff. split.
    + apply Qle_bool_iff, H1.
    + apply negb_Qle_bool, H2.
  - discriminate.
  - intros (t' & E & _). discriminate E.
Qed.

Lemma Filter_lt_true c props :
  eeIngest.Filter_lt "CLOUD_COVER" c props = true <-> cloud_cover_below c props.
Proof.
  unfold eeIngest.Filter_lt, cloud_cover_below.
  destruct (props !! "CLOUD_COVER") as [[s|v]|]; split.
  - discriminate.
  - intros (v' & E & _). discriminate E.
  - intros H. apply negb_Qle_bool in H. exists v. auto.
  - intros (v' & E & H). injection E as <-. apply negb_Qle_bool, H.
  - discriminate.
  - intros (v' & E & _). discriminate E.
Qed.

Lemma acquired_within_ext start end_ (props props' : gmap string value) :
  props' !! "system:time_start" = props !! "system:time_start" ->
  acquired_within start end_ props -> acquired_within start end_ props'.
Proof. intros E (t & Ht & H). exists t. rewrite E. auto. Qed.

Lemma cloud_cover_below_ext c (props props' : gmap string value) :
  props' !! "CLOUD_COVER" = props !! "CLOUD_COVER" ->
  cloud_cover_below c props -> cloud_cover_below c props'.
Proof. intros E (v & Hv & H). exists v. rewrite E. auto. Qed.

Lemma S2_coll_acquired meets Sentinel2MSI AOI scene :
  In scene (S2MSI.coll AOI (S2MSI.S2_proc (S2MSI.S2 meets Sentinel2MSI AOI))) ->
  acquired_within series_start series_end (OPTRAM.scene_properties scene).
Proof.
  unfold S2MSI.coll, S2MSI.S2_proc, S2MSI.S2. intros Hs.
  apply in_map_iff in Hs as (s1 & <- & Hs).
  apply in_map_iff in Hs as (r1 & <- & Hs).
  apply in_map_iff in Hs as (r0 & <- & Hs).
  apply filter_In in Hs as [_ Hd]. apply in_date_range_true in Hd.
  eapply acquired_within_ext; [|exact Hd].
  rewrite attachNDVIMinMax_other by discriminate.
  cbn [OPTRAM.scene_properties S2MSI.raw_properties].
  rewrite copied_properties_eq. reflexivity.
Qed.

Lemma L8_parameters_filtered meets Landsat8 AOI scene :
  In scene (L8.parameters (L8.landsat meets Landsat8 AOI)) ->
  acquired_within series_start series_end (TOTRAM.scene_properties scene) /\
  cloud_cover_below 20 (TOTRAM.scene_properties scene).
Proof.
  unfold L8.parameters, L8.landsat. intros Hs.
  apply in_map_iff in Hs as (r1 & <- & Hs).
  apply in_map_iff in Hs as (r0 & <- & Hs).
  apply filter_In in Hs as [Hs Hc]. apply filter_In in Hs as [_ Hd].
  apply in_date_range_true in Hd. apply Filter_lt_true in Hc.
  cbn [TOTRAM.scene_properties L8.raw_properties]. rewrite copied_properties_eq.
  split; assumption.
Qed.

(** X17.  What the ingestion filters establish holds to the end of the
    pipeline.  Every image of [coll] and every image of the OPTRAM series has
    an acquisition time at or after 2021-07-01 and before 2024-06-30; every
    image of [parameters] and every image of the TOTRAM series has, besides,
    a numeric [CLOUD_COVER] below 20. *)
Theorem ingestion_filters_reach_outputs :
  (forall meets Sentinel2MSI AOI,
     let coll := S2MSI.coll AOI (S2MSI.S2_proc (S2MSI.S2 meets Sentinel2MSI AOI)) in
     (forall scene, In scene coll ->
        acquired_within series_start series_end (OPTRAM.scene_properties scene)) /\
     (forall outs out,
        OPTRAM.optram_series AOI coll = Ok outs -> In out outs ->
        acquired_within series_start series_end (properties out))) /\
  (forall meets Landsat8 AOI,
     let parameters := L8.parameters (L8.landsat meets Landsat8 AOI) in
     (forall scene, In scene parameters ->
        acquired_within series_start series_end (TOTRAM.scene_properties scene) /\
        cloud_cover_below 20 (TOTRAM.scene_properties scene)) /\
     (forall outs out,
        TOTRAM.sm_series AOI parameters = Ok outs -> In out outs ->
        acquired_within series_start series_end (properties out) /\
        cloud_cover_below 20 (properties out))).
Proof.
  split.
  - intros meets X AOI coll. split; [apply S2_coll_acquired|].
    intros outs out Ho Hin.
    apply optram_series_inv in Ho as (id & sd & iw & sw & ->).
    apply in_map_iff in Hin as (scene & <- & Hs).
    eapply acquired_within_ext; [|exact (S2_coll_acquired meets X AOI scene Hs)].
    apply OPTRAM_series_image_time.
  - intros meets X AOI parameters. split; [apply L8_parameters_filtered|].
    intros outs out Ho Hin.
    apply sm_series_inv in Ho as (id & sd & iw & sw & ->).
    apply in_map_iff in Hin as (scene & <- & Hs).
    destruct (L8_parameters_filtered meets X AOI scene Hs) as [Ht Hc].
    split.
    + eapply acquired_within_ext; [|exact Ht]. apply TOTRAM_series_image_time.
    + eapply cloud_cover_below_ext; [|exact Hc].
      apply TOTRAM_series_image_meta; discriminate.
Qed.

Lemma ingestion_filters_reach_outputs_witness :
  exists scene,
    nth_error Probe.parameters 0 = Some scene /\
    acquired_within series_start series_end (TOTRAM.scene_properties scene) /\
    cloud_cover_below 20 (TOTRAM.scene_properties scene).
Proof.
  assert (H : exists scene, nth_error Probe.parameters 0 = Some scene).
  { eexists. reflexivity. }
  destruct H as (scene & Hs). exists scene. split; [exact Hs|].
  apply (proj1 (proj2 ingestion_filters_reach_outputs (fun g img => Probe.meets g img)
                  Probe.Landsat8 Probe.AOI) scene).
  eapply nth_error_In. exact Hs.
Defined.

(** ** The July composite of TOTRAM *)

Lemma filter_map_comm {A B : Type} (p : B -> bool) (f : A -> B) (l : list A) :
  List.filter p (List.map f l) = List.map f (List.filter (fun a => p (f a)) l).
Proof.
  induction l as [|a l IH]; simpl; [reflexivity|].
  destruct (p (f a)); simpl; rewrite IH; reflexivity.
Qed.

Lemma filter_ext_eq {A : Type} (p q : A -> bool) (l : list A) :
  (forall a, p a = q a) -> List.filter p l = List.filter q l.
Proof.
  intros H. induction l as [|a l IH]; simpl; [reflexivity|].
  rewrite H, IH. reflexivity.
Qed.

Lemma in_date_range_series_image start end_ id sd iw sw img :
  eeIngest.in_date_range start end_ (properties (TOTRAM.series_image id sd iw sw img))
  = eeIngest.in_date_range start end_ (TOTRAM.scene_properties img).
Proof.
  unfold eeIngest.in_date_range. rewrite TOTRAM_series_image_time. reflexivity.
Qed.

(** X18.  With the trapezoid parameters evaluated, [sm_july] is the mean over
    exactly the images of the collection acquired at or after 2022-07-01 and
    before 2022-07-31 (an image of 31 July is left out).  Each of its pixels is
    the mean of the valid values of those images at that pixel; with no image
    in the window the composite has no band, and the evaluation does not
    fail. *)
Theorem sm_july_window :
  forall AOI parameters id sd iw sw,
    TOTRAM.id AOI parameters = Ok id -> TOTRAM.sd AOI parameters = Ok sd ->
    TOTRAM.iw AOI parameters = Ok iw -> TOTRAM.sw AOI parameters = Ok sw ->
    let july :=
      List.filter
        (fun img => eeIngest.in_date_range L8.july_start L8.july_end
                      (TOTRAM.scene_properties img))
        parameters in
    (forall img, In img july <->
       In img parameters /\
       acquired_within L8.july_start L8.july_end (TOTRAM.scene_properties img)) /\
    (july = [] -> L8.sm_july AOI parameters = Ok []) /\
    (july <> [] ->
     exists b,
       L8.sm_july AOI parameters = Ok [("soil_moisture", b)] /\
       forall px,
         b px = ee.Reducer_mean
                  (ee.valid_values
                     (fun img => data (TOTRAM.series_image id sd iw sw img) px) july)).
Proof.
  intros AOI parameters id sd iw sw H1 H2 H3 H4 july.
  assert (E : L8.sm_july AOI parameters
              = Ok (ee.ImageCollection_mean
                      (List.map (TOTRAM.series_image id sd iw sw) july))).
  { unfold L8.sm_july.
    rewrite (sm_series_calibrated AOI parameters id sd iw sw H1 H2 H3 H4).
    cbn [mbind result_bind]. rewrite filter_map_comm. do 3 f_equal.
    apply filter_ext_eq. intros img. apply in_date_range_series_image. }
  split; [|split].
  - intros img. unfold july. rewrite filter_In, in_date_range_true. reflexivity.
  - intros Hj. rewrite E, Hj. reflexivity.
  - intros Hj. rewrite E. destruct july as [|s l] eqn:Ej; [congruence|].
    eexists. split; [reflexivity|]. intros px. cbn beta.
    rewrite <- (valid_values_map (TOTRAM.series_image id sd iw sw)
                  (fun im => data im px) (s :: l)).
    reflexivity.
Qed.

Lemma sm_july_window_witness :
  exists b v,
    L8.sm_july Probe.AOI Probe.parameters = Ok [("soil_moisture", b)] /\
    b Probe.inside = Some v /\ v == 0.
Proof.
  assert (Hc : exists id sd iw sw,
             TOTRAM.id Probe.AOI Probe.parameters = Ok id /\
             TOTRAM.sd Probe.AOI Probe.parameters = Ok sd /\
             TOTRAM.iw Probe.AOI Probe.parameters = Ok iw /\
             TOTRAM.sw Probe.AOI Probe.parameters = Ok sw).
  { do 4 eexists. repeat split; vm_compute; reflexivity. }
  destruct Hc as (id & sd & iw & sw & H1 & H2 & H3 & H4).
  pose proof (sm_july_window Probe.AOI Probe.parameters id sd iw sw H1 H2 H3 H4)
    as (_ & _ & H).
  assert (Hj : List.filter
                 (fun img => eeIngest.in_date_range L8.july_start L8.july_end
                               (TOTRAM.scene_properties img))
                 Probe.parameters <> []) by (vm_compute; discriminate).
  destruct (H Hj) as (b & Hb & Hpx). specialize (Hpx Probe.inside).
  vm_compute in H1, H2, H3, H4.
  injection H1 as <-. injection H2 as <-. injection H3 as <-. injection H4 as <-.
  vm_compute in Hpx.
  eexists b, _. split; [exact Hb|]. split; [exact Hpx | reflexivity].
Defined.

(** ** Negative reflectance *)

(** X19.  A pixel whose scaled reflectance is negative in one of the two
    bands NDVI reads is masked in the output of the model: in TOTRAM this is
    every pixel with SR_B5 or SR_B4 below 80000/11 (about 7272.7), in OPTRAM
    every pixel with a negative B8 or B4. *)
Theorem negative_reflectance_is_masked :
  (forall AOI landsat outs,
     TOTRAM.sm_series AOI (L8.parameters landsat) = Ok outs ->
     Forall2
       (fun raw out =>
          forall px r5 r4,
            L8.SR_B5 raw px = Some r5 -> L8.SR_B4 raw px = Some r4 ->
            r5 < 80000 # 11 \/ r4 < 80000 # 11 ->
            data out px = None)
       landsat outs) /\
  (forall AOI S2 outs,
     OPTRAM.optram_series AOI (S2MSI.coll AOI (S2MSI.S2_proc S2)) = Ok outs ->
     Forall2
       (fun raw out =>
          forall px b8 b4,
            S2MSI.B8 raw px = Some b8 -> S2MSI.B4 raw px = Some b4 ->
            b8 < 0 \/ b4 < 0 ->
            data out px = None)
       S2 outs).
Proof.
  split.
  - intros AOI landsat outs Ho.
    apply sm_series_inv in Ho as (id & sd & iw & sw & ->).
    unfold L8.parameters. rewrite List.map_map. apply Forall2_map_r.
    intros raw _ px r5 r4 E5 E4 Hneg. cbn.
    unfold ee.lift2, eeIngest.normalizedDifference, eeIngest.add, eeIngest.multiply,
      ee.lift1.
    rewrite E5, E4.
    destruct (Qle_bool 0 (r5 * (275 # 10000000) + - (2 # 10))) eqn:H5;
      [|reflexivity].
    destruct (Qle_bool 0 (r4 * (275 # 10000000) + - (2 # 10))) eqn:H4;
      [|reflexivity].
    apply Qle_bool_iff in H5, H4. exfalso. lra.
  - intros AOI S2 outs Ho.
    apply optram_series_inv in Ho as (id & sd & iw & sw & ->).
    unfold S2MSI.coll, S2MSI.S2_proc. rewrite !List.map_map. apply Forall2_map_r.
    intros raw _ px b8 b4 E8 E4 Hneg. cbn.
    unfold ee.lift2, eeIngest.normalizedDifference, eeIngest.multiply, ee.lift1.
    rewrite E8, E4.
    destruct (Qle_bool 0 (b8 * (1 # 10000))) eqn:H8; [|reflexivity].
    destruct (Qle_bool 0 (b4 * (1 # 10000))) eqn:H4; [|reflexivity].
    apply Qle_bool_iff in H8, H4. exfalso. lra.
Qed.

Lemma negative_reflectance_is_masked_witness :
  (exists out o,
     TOTRAM.sm_series Probe.AOI
       (L8.parameters [Probe.l_full1; Probe.l_bare1;
                       L8.mkRaw (Scenario.const 7000) (Scenario.const 20000)
                         (Scenario.const 44000) ∅]) = Ok out /\
     nth_error out 2 = Some o /\ data o Probe.inside = None) /\
  (exists out o,
     OPTRAM.optram_series Probe.AOI
       (S2MSI.coll Probe.AOI
          (S2MSI.S2_proc
             [Probe.r_full1; Probe.r_bare;
              S2MSI.mkRaw (Scenario.const 1000) (Scenario.const (-1))
                (Scenario.const 2000) ∅])) = Ok out /\
     nth_error out 2 = Some o /\ data o Probe.inside = None).
Proof.
  split.
  - assert (Hc : exists outs,
      TOTRAM.sm_series Probe.AOI
        (L8.parameters [Probe.l_full1; Probe.l_bare1;
                        L8.mkRaw (Scenario.const 7000) (Scenario.const 20000)
                          (Scenario.const 44000) ∅]) = Ok outs).
    { eexists. eapply sm_series_calibrated; vm_compute; reflexivity. }
    destruct Hc as (outs & Ho).
    pose proof (proj1 negative_reflectance_is_masked Probe.AOI _ outs Ho) as H.
    destruct outs as [|o0 outs]; [inversion H|].
    apply List.Forall2_cons_iff in H as [_ H].
    destruct outs as [|o1 outs]; [inversion H|].
    apply List.Forall2_cons_iff in H as [_ H].
    destruct outs as [|o2 outs]; [inversion H|].
    apply List.Forall2_cons_iff in H as [H _].
    eexists _, o2. split; [exact Ho|]. split; [reflexivity|].
    apply (H Probe.inside 20000 7000 eq_refl eq_refl). right. reflexivity.
  - assert (Hc : exists outs,
      OPTRAM.optram_series Probe.AOI
        (S2MSI.coll Probe.AOI
           (S2MSI.S2_proc
              [Probe.r_full1; Probe.r_bare;
               S2MSI.mkRaw (Scenario.const 1000) (Scenario.const (-1))
                 (Scenario.const 2000) ∅])) = Ok outs).
    { eexists. eapply optram_series_calibrated; vm_compute; reflexivity. }
    destruct Hc as (outs & Ho).
    pose proof (proj2 negative_reflectance_is_masked Probe.AOI _ outs Ho) as H.
    destruct outs as [|o0 outs]; [inversion H|].
    apply List.Forall2_cons_iff in H as [_ H].
    destruct outs as [|o1 outs]; [inversion H|].
    apply List.Forall2_cons_iff in H as [_ H].
    destruct outs as [|o2 outs]; [inversion H|].
    apply List.Forall2_cons_iff in H as [H _].
    eexists _, o2. split; [exact Ho|]. split; [reflexivity|].
    apply (H Probe.inside (-1) 1000 eq_refl eq_refl). left. reflexivity.
Defined.
